(** * The LSIF in-memory store ([server/src/jsonStore.ts])

    A shallow embedding of the [JsonStore] class: the ingestion pass
    ([load], [processVertex], [doProcessDocument], [processEdge],
    [doProcessEdge]) and the query engine ([findRangeFromPosition],
    [getResultForId], [findMonikers], [references], [documentSymbols], ...),
    followed by the properties established about them.

    Conventions.
    - JS [Map]s are [gmap]s; the objects stored in them are immutable once
      ingested, so a stored reference is modelled by the stored value.
    - A JS exception is the outcome [Throw]; a loop that has not finished
      within the given number of iterations is the outcome [OutOfFuel].
    - Names follow the source; records live in modules of their own where
      the source reuses a field name ([out.contains] / [in.contains]). *)

From Stdlib Require Import ZArith Ascii String.
From stdpp Require Import base option list strings gmap pretty.

Local Open Scope Z_scope.
Local Open Scope string_scope.
Local Open Scope list_scope.

#[local] Set Warnings "-clear-no-such-hyp".

(** ** Identifiers, positions, vertices and edges (lsif-protocol) *)

(** [Id = number | string]; [===] and [Map] keys never identify a number
    with a string. *)
Inductive Id : Type :=
| IdNum (n : Z)
| IdStr (s : string).

#[global] Instance Id_eq_dec : EqDecision Id.
Proof. solve_decision. Defined.

Definition Id_to_sum (i : Id) : Z + string :=
  match i with IdNum n => inl n | IdStr s => inr s end.
Definition Id_of_sum (x : Z + string) : Id :=
  match x with inl n => IdNum n | inr s => IdStr s end.

#[global] Instance Id_countable : Countable Id.
Proof.
  refine (inj_countable' Id_to_sum Id_of_sum _).
  intros []; reflexivity.
Defined.

(** The text [`${id}`] of a template literal. *)
Definition Id_to_string (i : Id) : string :=
  match i with IdNum n => pretty n | IdStr s => s end.

Record Position : Type := { line : Z; character : Z }.

(** [lsp.Range]: [end] is a keyword, hence [end_]. *)
Record Range : Type := { start : Position; end_ : Position }.

Module MonikerKind.
Inductive t : Type := import | export | local.
#[global] Instance eq_dec : EqDecision t.
Proof. solve_decision. Defined.
End MonikerKind.

Module EventKind.
Inductive t : Type := begin | end_.
End EventKind.

Module EventScope.
Inductive t : Type := group | project | document.
End EventScope.

(** The [tag] of a range vertex. *)
Module RangeTag.
Inductive t : Type :=
| declaration (text : string) (detail : option string) (kind : Z) (fullRange : Range)
| definition (text : string) (detail : option string) (kind : Z) (fullRange : Range)
| reference (text : string)
| unknown (text : string).
End RangeTag.

(** [lsp.DocumentSymbol], and the range based form of the protocol. *)
#[warnings="-register-all"]
Inductive DocumentSymbol : Type :=
  mkDocumentSymbol (name detail : string) (kind : Z) (range selectionRange : Range)
                   (children : option (list DocumentSymbol)).

#[warnings="-register-all"]
Inductive RangeBasedDocumentSymbol : Type :=
  mkRangeBased (id : Id) (children : list RangeBasedDocumentSymbol).

Inductive DocumentSymbolEntries : Type :=
| fullSymbols (l : list DocumentSymbol)
| rangeBased (l : list RangeBasedDocumentSymbol).

Record FoldingRange : Type :=
  { startLine : Z; startCharacter : option Z; endLine : Z; endCharacter : option Z;
    foldingKind : option string }.

(** [lsp.DocumentLink] and [lsp.Diagnostic], the entries of the results of
    those names; the store reads none of their fields. *)
Record DocumentLink : Type :=
  { DocumentLink_range : Range; DocumentLink_target : option string }.

Record Diagnostic : Type :=
  { Diagnostic_range : Range; Diagnostic_severity : option Z;
    Diagnostic_code : option string; Diagnostic_source : option string;
    Diagnostic_message : string }.

(** [lsp.Location]. *)
Record Location : Type := { Location_uri : string; Location_range : Range }.

Module Vertex.
(** The tagged union [Vertex]; the constructor is the [label]. The [key]
    of a moniker is the field [processVertex] derives. *)
Inductive data : Type :=
| metaData (version : option string)
| group (rootUri : option string)
| project
| event (kind : EventKind.t) (scope : EventScope.t) (data : Id)
| document (uri : string) (contents : option string)
| moniker (scheme identifier : string) (kind : option MonikerKind.t) (key : option string)
| range (span : Range) (tag : option RangeTag.t)
| resultSet
| documentSymbolResult (result : DocumentSymbolEntries)
| foldingRangeResult (result : list FoldingRange)
| documentLinkResult (result : list DocumentLink)
| diagnosticResult (result : list Diagnostic)
| declarationResult
| definitionResult
| typeDefinitionResult
| hoverResult (contents : string) (range : option Range)
| referenceResult
| implementationResult
| packageInformation.

Record t : Type := { id : Id; body : data }.

Definition key (v : t) : option string :=
  match body v with moniker _ _ _ k => k | _ => None end.

Definition uri (v : t) : option string :=
  match body v with document u _ => Some u | _ => None end.

Definition is_range (v : t) : bool :=
  match body v with range _ _ => true | _ => false end.

Definition span (v : t) : option Range :=
  match body v with range s _ => Some s | _ => None end.
End Vertex.

Module ItemEdgeProperties.
Inductive t : Type :=
  declarations | definitions | references | referenceResults | referenceLinks.
End ItemEdgeProperties.

Module EdgeLabels.
Inductive t : Type :=
| contains | item | next | moniker | nextMoniker | packageInformation
| textDocument_documentSymbol | textDocument_foldingRange
| textDocument_documentLink | textDocument_diagnostic
| textDocument_definition | textDocument_declaration
| textDocument_typeDefinition | textDocument_hover
| textDocument_references | textDocument_implementation.
End EdgeLabels.

Module Edge.
(** [inV] is present on a 1:1 edge ([Edge.is11]), [inVs] on a 1:N edge
    ([Edge.is1N]). *)
Record t : Type :=
  { label : EdgeLabels.t; outV : Id; inV : option Id; inVs : option (list Id);
    property : option ItemEdgeProperties.t }.
End Edge.

(** What [JSON.parse] yields for a line, as far as [load] looks at it. *)
Inductive Element : Type :=
| JNull                 (* the JSON value null *)
| JOther                (* any other value whose [type] is neither 'vertex' nor 'edge' *)
| JVertex (v : Vertex.t)
| JEdge (e : Edge.t).

(** One input line: its text, and the result of [JSON.parse] on it ([None]
    when it throws a SyntaxError). *)
Record Line : Type := { text : string; JSON_parse : option Element }.

(** ** The store *)

(** [ItemTarget]: a range vertex as it is, or a wrapper
    [{ type: property, range | result: to }]. *)
Inductive ItemTarget : Type :=
| Plain (to : Vertex.t)
| Typed (type : ItemEdgeProperties.t) (to : Vertex.t).

Module Vertices.
Record t : Type :=
  { all : gmap Id Vertex.t; projects : gmap Id Vertex.t;
    documents : gmap Id Vertex.t; ranges : gmap Id Vertex.t }.
Definition empty : t :=
  {| all := ∅; projects := ∅; documents := ∅; ranges := ∅ |}.
End Vertices.

Module Bucket.
Record t : Type := { hash : string; documents : list Vertex.t }.
End Bucket.

Module Indices.
Record t : Type :=
  { monikers : gmap string (list Vertex.t); contents : gmap string string;
    documents : gmap string Bucket.t }.
Definition empty : t := {| monikers := ∅; contents := ∅; documents := ∅ |}.
End Indices.

Module Out.
Record t : Type :=
  { contains : gmap Id (list Vertex.t); item : gmap Id (list ItemTarget);
    next : gmap Id Vertex.t; moniker : gmap Id Vertex.t;
    documentSymbol : gmap Id Vertex.t; foldingRange : gmap Id Vertex.t;
    documentLink : gmap Id Vertex.t; diagnostic : gmap Id Vertex.t;
    declaration : gmap Id Vertex.t; definition : gmap Id Vertex.t;
    typeDefinition : gmap Id Vertex.t; hover : gmap Id Vertex.t;
    references : gmap Id Vertex.t; implementation : gmap Id Vertex.t }.
Definition empty : t :=
  {| contains := ∅; item := ∅; next := ∅; moniker := ∅; documentSymbol := ∅;
     foldingRange := ∅; documentLink := ∅; diagnostic := ∅; declaration := ∅;
     definition := ∅; typeDefinition := ∅; hover := ∅; references := ∅;
     implementation := ∅ |}.
End Out.

Module In.
Record t : Type :=
  { contains : gmap Id Vertex.t; previous : gmap Id Vertex.t;
    moniker : gmap Id Vertex.t }.
Definition empty : t := {| contains := ∅; previous := ∅; moniker := ∅ |}.
End In.

(** The fields of [JsonStore]; [console] collects the lines written with
    [console.error]. *)
Record JsonStore : Type :=
  { version : option string; projectRoot : option string;
    activeGroup : option Id; activeProject : option Id;
    vertices : Vertices.t; indices : Indices.t; out : Out.t; in_ : In.t;
    console : list string }.

(** The constructor. *)
Definition new_JsonStore : JsonStore :=
  {| version := None; projectRoot := None; activeGroup := None; activeProject := None;
     vertices := Vertices.empty; indices := Indices.empty; out := Out.empty;
     in_ := In.empty; console := [] |}.

(** ** Outcomes *)

(** The exceptions of the engine ([SyntaxError] from [JSON.parse],
    [TypeError] from a property read on [null] or [undefined]) and one
    constructor for each [new Error(...)] of the source. *)
Inductive Error : Type :=
| SyntaxError (text : string)
| TypeError (property : string)
| NotIterable (property : string)
| UriError (text : string)
| NoVertexFound (id : Id)
| NoProjectRoot
| NoVersionFound
| NoValidSemVer (version : string)
| RequiresVersion (version : string).

Definition message (e : Error) : string :=
  match e with
  | SyntaxError t => "Unexpected token in JSON: " +:+ t
  | TypeError p => "Cannot read property '" +:+ p +:+ "'"
  | NotIterable p => p +:+ " is not iterable"
  | UriError t => "[UriError]: " +:+ t
  | NoVertexFound i => "No vertex found for Id " +:+ Id_to_string i
  | NoProjectRoot => "No project root provided."
  | NoVersionFound => "No version found."
  | NoValidSemVer v => "No valid semantic version string. The version is: " +:+ v
  | RequiresVersion v => "Requires version 0.5.0 or higher but received: " +:+ v
  end.

Inductive outcome (A : Type) : Type :=
| Ok (a : A)
| Throw (e : Error)
| OutOfFuel.
Arguments Ok {A} a.
Arguments Throw {A} e.
Arguments OutOfFuel {A}.

#[global] Instance outcome_ret : MRet outcome := fun A a => Ok a.
#[global] Instance outcome_bind : MBind outcome := fun A B f m =>
  match m with
  | Ok a => f a
  | Throw e => Throw e
  | OutOfFuel => OutOfFuel
  end.

Definition is_Ok {A : Type} (o : outcome A) : bool :=
  match o with Ok _ => true | _ => false end.

(** The store a run produced; the empty store stands in when it failed. *)
Definition store_of (o : outcome JsonStore) : JsonStore :=
  match o with Ok st => st | _ => new_JsonStore end.

(** ** Semantic versions

    Modelled from the spec: the [semver] package ([SemVer.parse],
    [SemVer.Range], [SemVer.satisfies]) is not part of the sources. The gate
    requires that "the version parses as semantic version and satisfies
    [>0.4.99 <=0.5.0-next.2]"; parsing and precedence are those of
    semantic versioning 2.0.0: three numeric fields without leading zeros,
    an optional dot separated pre-release after [-], optional build
    metadata after [+] that takes no part in precedence; a pre-release
    precedes its release, numeric identifiers compare as numbers and
    precede alphanumeric ones, which compare in ASCII order. A leading [v]
    is accepted, white space around the version is not. Where the program
    depends on how the package works, the
    model follows the package: a version of more than 256 characters or
    with a field above 2^53 - 1 does not parse; a numeric identifier of a
    pre-release that is not below 2^53 - 1 is kept as text and compared
    through its value as a double; and [satisfies], called without
    options, tests against the range as built without options, whatever
    has been assigned to the [includePrerelease] property of the range
    object since. The loose mode of the package, which the program does
    not use, is left out. *)
Module SemVer.

Inductive identifier : Type :=
| numeric (n : N)
| alphanumeric (s : string).

#[global] Instance identifier_eq_dec : EqDecision identifier.
Proof. solve_decision. Defined.

Record t : Type :=
  { major : N; minor : N; patch : N; prerelease : list identifier }.

Definition MAX_LENGTH : nat := 256.
Definition MAX_SAFE_INTEGER : N := 9007199254740991.

Definition is_digit (c : ascii) : bool :=
  let n := N_of_ascii c in ((48 <=? n) && (n <=? 57))%N.

Definition is_letter_or_hyphen (c : ascii) : bool :=
  let n := N_of_ascii c in
  (((65 <=? n) && (n <=? 90)) || ((97 <=? n) && (n <=? 122)) || (n =? 45))%N.

(** Split at every occurrence of [sep]. *)
Fixpoint split_on (sep : ascii) (s : list ascii) : list (list ascii) :=
  match s with
  | [] => [[]]
  | c :: s' =>
      if Ascii.eqb c sep then [] :: split_on sep s'
      else match split_on sep s' with
           | [] => [[c]]
           | w :: ws => (c :: w) :: ws
           end
  end.

(** Split at the first occurrence of [sep], if there is one. *)
Fixpoint split_first (sep : ascii) (s : list ascii) : list ascii * option (list ascii) :=
  match s with
  | [] => ([], None)
  | c :: s' =>
      if Ascii.eqb c sep then ([], Some s')
      else let '(a, b) := split_first sep s' in (c :: a, b)
  end.

Definition digits_value (s : list ascii) : N :=
  fold_left (fun acc c => (acc * 10 + (N_of_ascii c - 48))%N) s 0%N.

(** The value of a natural number as a double: the nearest number with 53
    significant bits, the even one of two that are equally near. *)
Definition to_double (n : N) : N :=
  let size := N.size n in
  if (size <=? 53)%N then n
  else
    let shift := (size - 53)%N in
    let q := N.shiftr n shift in
    let r := (n - N.shiftl q shift)%N in
    let half := N.shiftl 1 (shift - 1) in
    let q := if (half <? r)%N || ((r =? half)%N && N.odd q) then (q + 1)%N else q in
    N.shiftl q shift.

(** [0|[1-9]\d*] *)
Definition parse_numeric (s : list ascii) : option N :=
  match s with
  | [] => None
  | c :: rest =>
      if forallb is_digit s then
        if Ascii.eqb c "0" && negb (Nat.eqb (length rest) 0) then None
        else Some (digits_value s)
      else None
  end.

(** A field of [major.minor.patch]: [0|[1-9]\d*], at most
    [MAX_SAFE_INTEGER]. *)
Definition parse_field (s : list ascii) : option N :=
  n ← parse_numeric s;
  if (n <=? MAX_SAFE_INTEGER)%N then Some n else None.

(** [0|[1-9]\d*|\d*[a-zA-Z-][a-zA-Z0-9-]*]; digits below
    [MAX_SAFE_INTEGER] become a number. *)
Definition parse_identifier (s : list ascii) : option identifier :=
  match s with
  | [] => None
  | _ =>
      if forallb is_digit s then
        n ← parse_numeric s;
        Some (if (n <? MAX_SAFE_INTEGER)%N then numeric n
              else alphanumeric (string_of_list_ascii s))
      else if forallb (fun c => is_digit c || is_letter_or_hyphen c) s
           then Some (alphanumeric (string_of_list_ascii s))
           else None
  end.

(** [[0-9A-Za-z-]+] *)
Definition is_build_identifier (s : list ascii) : bool :=
  negb (Nat.eqb (length s) 0)
  && forallb (fun c => is_digit c || is_letter_or_hyphen c) s.

Definition parse_all {A} (f : list ascii -> option A) (ws : list (list ascii)) : option (list A) :=
  mapM f ws.

Definition parse (version : string) : option t :=
  let s := list_ascii_of_string version in
  if (MAX_LENGTH <? length s)%nat then None
  else
    let s := match s with "v"%char :: s' => s' | _ => s end in
    let '(main, build) := split_first "+" s in
    let build_ok :=
      match build with
      | None => true
      | Some b => forallb is_build_identifier (split_on "." b)
      end in
    let '(core, pre) := split_first "-" main in
    if build_ok then
      match parse_all parse_field (split_on "." core) with
      | Some [ma; mi; pa] =>
          match pre with
          | None => Some {| major := ma; minor := mi; patch := pa; prerelease := [] |}
          | Some p =>
              ids ← parse_all parse_identifier (split_on "." p);
              Some {| major := ma; minor := mi; patch := pa; prerelease := ids |}
          end
      | _ => None
      end
    else None.

(** The number an identifier is compared as, when it consists of digits. *)
Definition numeric_value (a : identifier) : option N :=
  match a with
  | numeric n => Some n
  | alphanumeric s =>
      let l := list_ascii_of_string s in
      if negb (Nat.eqb (length l) 0) && forallb is_digit l
      then Some (to_double (digits_value l))
      else None
  end.

Definition text_of (a : identifier) : string :=
  match a with
  | numeric n => pretty n
  | alphanumeric s => s
  end.

Definition compareIdentifiers (a b : identifier) : comparison :=
  match numeric_value a, numeric_value b with
  | Some x, Some y => N.compare x y
  | Some _, None => Lt
  | None, Some _ => Gt
  | None, None => String.compare (text_of a) (text_of b)
  end.

(** The identifiers in turn: equal ones are passed over, the first two
    that differ decide. *)
Fixpoint comparePreList (a b : list identifier) : comparison :=
  match a, b with
  | [], [] => Eq
  | [], _ :: _ => Lt
  | _ :: _, [] => Gt
  | x :: a', y :: b' =>
      if decide (x = y) then comparePreList a' b'
      else compareIdentifiers x y
  end.

Definition comparePre (a b : t) : comparison :=
  match prerelease a, prerelease b with
  | [], [] => Eq
  | _ :: _, [] => Lt
  | [], _ :: _ => Gt
  | pa, pb => comparePreList pa pb
  end.

Definition compareMain (a b : t) : comparison :=
  match N.compare (major a) (major b) with
  | Eq => match N.compare (minor a) (minor b) with
          | Eq => N.compare (patch a) (patch b)
          | c => c
          end
  | c => c
  end.

Definition compare (a b : t) : comparison :=
  match compareMain a b with
  | Eq => comparePre a b
  | c => c
  end.

Definition gt (a b : t) : bool := match compare a b with Gt => true | _ => false end.
Definition lte (a b : t) : bool := negb (gt a b).
Definition lt (a b : t) : bool := match compare a b with Lt => true | _ => false end.
Definition gte (a b : t) : bool := negb (lt a b).
Definition eq (a b : t) : bool := match compare a b with Eq => true | _ => false end.

Module Operator.
Inductive t : Type := Lt | Lte | Gt | Gte | Eq.
End Operator.

Record Comparator : Type := { operator : Operator.t; semver : t }.

Definition test (c : Comparator) (version : t) : bool :=
  match operator c with
  | Operator.Lt => lt version (semver c)
  | Operator.Lte => lte version (semver c)
  | Operator.Gt => gt version (semver c)
  | Operator.Gte => gte version (semver c)
  | Operator.Eq => eq version (semver c)
  end.

(** A range object with one comparator set: the comparators of its text,
    the [includePrerelease] of the options it was built with, and its
    property [includePrerelease], which starts as that option and can be
    assigned. *)
Record Range : Type :=
  { set : list Comparator; options_includePrerelease : bool; includePrerelease : bool }.

(** [new Range(text, options)], the text in parsed form. *)
Definition Range_new (comparators : list Comparator) (includePrerelease : bool) : Range :=
  {| set := comparators; options_includePrerelease := includePrerelease;
     includePrerelease := includePrerelease |}.

(** [range.includePrerelease = value] *)
Definition set_includePrerelease (value : bool) (range : Range) : Range :=
  {| set := set range; options_includePrerelease := options_includePrerelease range;
     includePrerelease := value |}.

(** [new Range(range, options)] on a range object: the object itself when
    its property agrees with the options, a range built anew from its
    text otherwise. *)
Definition Range_of (range : Range) (includePrerelease_option : bool) : Range :=
  if Bool.eqb (includePrerelease range) includePrerelease_option then range
  else Range_new (set range) includePrerelease_option.

Definition same_tuple (a b : t) : bool :=
  ((major a =? major b) && (minor a =? minor b) && (patch a =? patch b))%N.

(** [range.test(version)]: every comparator holds; unless the options of
    the range include pre-releases, a pre-release version is admitted only
    by a comparator carrying a pre-release of the same
    [major.minor.patch]. *)
Definition Range_test (range : Range) (version : t) : bool :=
  forallb (fun c => test c version) (set range)
  && (options_includePrerelease range
      || match prerelease version with
         | [] => true
         | _ :: _ =>
             existsb (fun c => match prerelease (semver c) with
                               | [] => false
                               | _ :: _ => same_tuple (semver c) version
                               end) (set range)
         end).

(** [satisfies(version, range)], without options. *)
Definition satisfies (version : t) (range : Range) : bool :=
  Range_test (Range_of range false) version.

End SemVer.

(** [new SemVer.Range('>0.4.99 <=0.5.0-next.2')], in parsed form, and the
    assignment [range.includePrerelease = ...] that follows it. *)
Definition v0_4_99 : SemVer.t :=
  {| SemVer.major := 0; SemVer.minor := 4; SemVer.patch := 99; SemVer.prerelease := [] |}.
Definition v0_5_0_next_2 : SemVer.t :=
  {| SemVer.major := 0; SemVer.minor := 5; SemVer.patch := 0;
     SemVer.prerelease := [SemVer.alphanumeric "next"; SemVer.numeric 2] |}.
Definition supported_range (includePrerelease : bool) : SemVer.Range :=
  SemVer.set_includePrerelease includePrerelease
    (SemVer.Range_new
       [ {| SemVer.operator := SemVer.Operator.Gt; SemVer.semver := v0_4_99 |};
         {| SemVer.operator := SemVer.Operator.Lte; SemVer.semver := v0_5_0_next_2 |} ]
       false).

(** ** Field updates *)

Definition set_vertices (f : Vertices.t -> Vertices.t) (s : JsonStore) : JsonStore :=
  {| version := version s; projectRoot := projectRoot s; activeGroup := activeGroup s;
     activeProject := activeProject s; vertices := f (vertices s); indices := indices s;
     out := out s; in_ := in_ s; console := console s |}.
Definition set_indices (f : Indices.t -> Indices.t) (s : JsonStore) : JsonStore :=
  {| version := version s; projectRoot := projectRoot s; activeGroup := activeGroup s;
     activeProject := activeProject s; vertices := vertices s; indices := f (indices s);
     out := out s; in_ := in_ s; console := console s |}.
Definition set_out (f : Out.t -> Out.t) (s : JsonStore) : JsonStore :=
  {| version := version s; projectRoot := projectRoot s; activeGroup := activeGroup s;
     activeProject := activeProject s; vertices := vertices s; indices := indices s;
     out := f (out s); in_ := in_ s; console := console s |}.
Definition set_in (f : In.t -> In.t) (s : JsonStore) : JsonStore :=
  {| version := version s; projectRoot := projectRoot s; activeGroup := activeGroup s;
     activeProject := activeProject s; vertices := vertices s; indices := indices s;
     out := out s; in_ := f (in_ s); console := console s |}.
Definition set_version (v : option string) (s : JsonStore) : JsonStore :=
  {| version := v; projectRoot := projectRoot s; activeGroup := activeGroup s;
     activeProject := activeProject s; vertices := vertices s; indices := indices s;
     out := out s; in_ := in_ s; console := console s |}.
Definition set_projectRoot (r : option string) (s : JsonStore) : JsonStore :=
  {| version := version s; projectRoot := r; activeGroup := activeGroup s;
     activeProject := activeProject s; vertices := vertices s; indices := indices s;
     out := out s; in_ := in_ s; console := console s |}.
Definition set_activeGroup (g : option Id) (s : JsonStore) : JsonStore :=
  {| version := version s; projectRoot := projectRoot s; activeGroup := g;
     activeProject := activeProject s; vertices := vertices s; indices := indices s;
     out := out s; in_ := in_ s; console := console s |}.
Definition set_activeProject (p : option Id) (s : JsonStore) : JsonStore :=
  {| version := version s; projectRoot := projectRoot s; activeGroup := activeGroup s;
     activeProject := p; vertices := vertices s; indices := indices s;
     out := out s; in_ := in_ s; console := console s |}.
Definition console_error (msg : string) (s : JsonStore) : JsonStore :=
  {| version := version s; projectRoot := projectRoot s; activeGroup := activeGroup s;
     activeProject := activeProject s; vertices := vertices s; indices := indices s;
     out := out s; in_ := in_ s; console := console s ++ [msg] |}.

Definition Vertices_set_all (k : Id) (v : Vertex.t) (vs : Vertices.t) : Vertices.t :=
  {| Vertices.all := <[k := v]> (Vertices.all vs); Vertices.projects := Vertices.projects vs;
     Vertices.documents := Vertices.documents vs; Vertices.ranges := Vertices.ranges vs |}.
Definition Vertices_set_projects (k : Id) (v : Vertex.t) (vs : Vertices.t) : Vertices.t :=
  {| Vertices.all := Vertices.all vs; Vertices.projects := <[k := v]> (Vertices.projects vs);
     Vertices.documents := Vertices.documents vs; Vertices.ranges := Vertices.ranges vs |}.
Definition Vertices_set_documents (k : Id) (v : Vertex.t) (vs : Vertices.t) : Vertices.t :=
  {| Vertices.all := Vertices.all vs; Vertices.projects := Vertices.projects vs;
     Vertices.documents := <[k := v]> (Vertices.documents vs); Vertices.ranges := Vertices.ranges vs |}.
Definition Vertices_set_ranges (k : Id) (v : Vertex.t) (vs : Vertices.t) : Vertices.t :=
  {| Vertices.all := Vertices.all vs; Vertices.projects := Vertices.projects vs;
     Vertices.documents := Vertices.documents vs; Vertices.ranges := <[k := v]> (Vertices.ranges vs) |}.

Definition Indices_set_monikers (k : string) (v : list Vertex.t) (i : Indices.t) : Indices.t :=
  {| Indices.monikers := <[k := v]> (Indices.monikers i); Indices.contents := Indices.contents i;
     Indices.documents := Indices.documents i |}.
Definition Indices_set_contents (k : string) (v : string) (i : Indices.t) : Indices.t :=
  {| Indices.monikers := Indices.monikers i; Indices.contents := <[k := v]> (Indices.contents i);
     Indices.documents := Indices.documents i |}.
Definition Indices_set_documents (k : string) (v : Bucket.t) (i : Indices.t) : Indices.t :=
  {| Indices.monikers := Indices.monikers i; Indices.contents := Indices.contents i;
     Indices.documents := <[k := v]> (Indices.documents i) |}.

Definition In_set_contains (k : Id) (v : Vertex.t) (i : In.t) : In.t :=
  {| In.contains := <[k := v]> (In.contains i); In.previous := In.previous i;
     In.moniker := In.moniker i |}.
Definition In_set_previous (k : Id) (v : Vertex.t) (i : In.t) : In.t :=
  {| In.contains := In.contains i; In.previous := <[k := v]> (In.previous i);
     In.moniker := In.moniker i |}.
Definition In_set_moniker (k : Id) (v : Vertex.t) (i : In.t) : In.t :=
  {| In.contains := In.contains i; In.previous := In.previous i;
     In.moniker := <[k := v]> (In.moniker i) |}.

(** The single valued maps of [out]. *)
Definition Out_set_next (k : Id) (v : Vertex.t) (o : Out.t) : Out.t :=
  {| Out.contains := Out.contains o; Out.item := Out.item o;
     Out.next := <[k := v]> (Out.next o); Out.moniker := Out.moniker o;
     Out.documentSymbol := Out.documentSymbol o;
     Out.foldingRange := Out.foldingRange o; Out.documentLink := Out.documentLink o;
     Out.diagnostic := Out.diagnostic o; Out.declaration := Out.declaration o;
     Out.definition := Out.definition o; Out.typeDefinition := Out.typeDefinition o;
     Out.hover := Out.hover o; Out.references := Out.references o;
     Out.implementation := Out.implementation o |}.
Definition Out_set_moniker (k : Id) (v : Vertex.t) (o : Out.t) : Out.t :=
  {| Out.contains := Out.contains o; Out.item := Out.item o; Out.next := Out.next o;
     Out.moniker := <[k := v]> (Out.moniker o);
     Out.documentSymbol := Out.documentSymbol o;
     Out.foldingRange := Out.foldingRange o; Out.documentLink := Out.documentLink o;
     Out.diagnostic := Out.diagnostic o; Out.declaration := Out.declaration o;
     Out.definition := Out.definition o; Out.typeDefinition := Out.typeDefinition o;
     Out.hover := Out.hover o; Out.references := Out.references o;
     Out.implementation := Out.implementation o |}.
Definition Out_set_documentSymbol (k : Id) (v : Vertex.t) (o : Out.t) : Out.t :=
  {| Out.contains := Out.contains o; Out.item := Out.item o; Out.next := Out.next o;
     Out.moniker := Out.moniker o;
     Out.documentSymbol := <[k := v]> (Out.documentSymbol o);
     Out.foldingRange := Out.foldingRange o; Out.documentLink := Out.documentLink o;
     Out.diagnostic := Out.diagnostic o; Out.declaration := Out.declaration o;
     Out.definition := Out.definition o; Out.typeDefinition := Out.typeDefinition o;
     Out.hover := Out.hover o; Out.references := Out.references o;
     Out.implementation := Out.implementation o |}.
Definition Out_set_foldingRange (k : Id) (v : Vertex.t) (o : Out.t) : Out.t :=
  {| Out.contains := Out.contains o; Out.item := Out.item o; Out.next := Out.next o;
     Out.moniker := Out.moniker o; Out.documentSymbol := Out.documentSymbol o;
     Out.foldingRange := <[k := v]> (Out.foldingRange o);
     Out.documentLink := Out.documentLink o; Out.diagnostic := Out.diagnostic o;
     Out.declaration := Out.declaration o; Out.definition := Out.definition o;
     Out.typeDefinition := Out.typeDefinition o; Out.hover := Out.hover o;
     Out.references := Out.references o; Out.implementation := Out.implementation o |}.
Definition Out_set_documentLink (k : Id) (v : Vertex.t) (o : Out.t) : Out.t :=
  {| Out.contains := Out.contains o; Out.item := Out.item o; Out.next := Out.next o;
     Out.moniker := Out.moniker o; Out.documentSymbol := Out.documentSymbol o;
     Out.foldingRange := Out.foldingRange o;
     Out.documentLink := <[k := v]> (Out.documentLink o);
     Out.diagnostic := Out.diagnostic o; Out.declaration := Out.declaration o;
     Out.definition := Out.definition o; Out.typeDefinition := Out.typeDefinition o;
     Out.hover := Out.hover o; Out.references := Out.references o;
     Out.implementation := Out.implementation o |}.
Definition Out_set_diagnostic (k : Id) (v : Vertex.t) (o : Out.t) : Out.t :=
  {| Out.contains := Out.contains o; Out.item := Out.item o; Out.next := Out.next o;
     Out.moniker := Out.moniker o; Out.documentSymbol := Out.documentSymbol o;
     Out.foldingRange := Out.foldingRange o; Out.documentLink := Out.documentLink o;
     Out.diagnostic := <[k := v]> (Out.diagnostic o);
     Out.declaration := Out.declaration o; Out.definition := Out.definition o;
     Out.typeDefinition := Out.typeDefinition o; Out.hover := Out.hover o;
     Out.references := Out.references o; Out.implementation := Out.implementation o |}.
Definition Out_set_definition (k : Id) (v : Vertex.t) (o : Out.t) : Out.t :=
  {| Out.contains := Out.contains o; Out.item := Out.item o; Out.next := Out.next o;
     Out.moniker := Out.moniker o; Out.documentSymbol := Out.documentSymbol o;
     Out.foldingRange := Out.foldingRange o; Out.documentLink := Out.documentLink o;
     Out.diagnostic := Out.diagnostic o; Out.declaration := Out.declaration o;
     Out.definition := <[k := v]> (Out.definition o);
     Out.typeDefinition := Out.typeDefinition o; Out.hover := Out.hover o;
     Out.references := Out.references o; Out.implementation := Out.implementation o |}.
Definition Out_set_typeDefinition (k : Id) (v : Vertex.t) (o : Out.t) : Out.t :=
  {| Out.contains := Out.contains o; Out.item := Out.item o; Out.next := Out.next o;
     Out.moniker := Out.moniker o; Out.documentSymbol := Out.documentSymbol o;
     Out.foldingRange := Out.foldingRange o; Out.documentLink := Out.documentLink o;
     Out.diagnostic := Out.diagnostic o; Out.declaration := Out.declaration o;
     Out.definition := Out.definition o;
     Out.typeDefinition := <[k := v]> (Out.typeDefinition o); Out.hover := Out.hover o;
     Out.references := Out.references o; Out.implementation := Out.implementation o |}.
Definition Out_set_hover (k : Id) (v : Vertex.t) (o : Out.t) : Out.t :=
  {| Out.contains := Out.contains o; Out.item := Out.item o; Out.next := Out.next o;
     Out.moniker := Out.moniker o; Out.documentSymbol := Out.documentSymbol o;
     Out.foldingRange := Out.foldingRange o; Out.documentLink := Out.documentLink o;
     Out.diagnostic := Out.diagnostic o; Out.declaration := Out.declaration o;
     Out.definition := Out.definition o; Out.typeDefinition := Out.typeDefinition o;
     Out.hover := <[k := v]> (Out.hover o); Out.references := Out.references o;
     Out.implementation := Out.implementation o |}.
Definition Out_set_references (k : Id) (v : Vertex.t) (o : Out.t) : Out.t :=
  {| Out.contains := Out.contains o; Out.item := Out.item o; Out.next := Out.next o;
     Out.moniker := Out.moniker o; Out.documentSymbol := Out.documentSymbol o;
     Out.foldingRange := Out.foldingRange o; Out.documentLink := Out.documentLink o;
     Out.diagnostic := Out.diagnostic o; Out.declaration := Out.declaration o;
     Out.definition := Out.definition o; Out.typeDefinition := Out.typeDefinition o;
     Out.hover := Out.hover o; Out.references := <[k := v]> (Out.references o);
     Out.implementation := Out.implementation o |}.
Definition Out_set_contains (k : Id) (v : list Vertex.t) (o : Out.t) : Out.t :=
  {| Out.contains := <[k := v]> (Out.contains o); Out.item := Out.item o;
     Out.next := Out.next o; Out.moniker := Out.moniker o;
     Out.documentSymbol := Out.documentSymbol o; Out.foldingRange := Out.foldingRange o;
     Out.documentLink := Out.documentLink o; Out.diagnostic := Out.diagnostic o;
     Out.declaration := Out.declaration o; Out.definition := Out.definition o;
     Out.typeDefinition := Out.typeDefinition o; Out.hover := Out.hover o;
     Out.references := Out.references o; Out.implementation := Out.implementation o |}.
Definition Out_set_item (k : Id) (v : list ItemTarget) (o : Out.t) : Out.t :=
  {| Out.contains := Out.contains o; Out.item := <[k := v]> (Out.item o);
     Out.next := Out.next o; Out.moniker := Out.moniker o;
     Out.documentSymbol := Out.documentSymbol o; Out.foldingRange := Out.foldingRange o;
     Out.documentLink := Out.documentLink o; Out.diagnostic := Out.diagnostic o;
     Out.declaration := Out.declaration o; Out.definition := Out.definition o;
     Out.typeDefinition := Out.typeDefinition o; Out.hover := Out.hover o;
     Out.references := Out.references o; Out.implementation := Out.implementation o |}.

(** ** Sample streams

    The data of the examples: stand-ins for the digest, the key encoding
    and the URI functions, and lines given by the record [JSON.parse]
    reads from them (the [text] of a record line stands for its JSON text,
    of which [load] only tests the emptiness). *)
Module Sample.

Definition md5_base64 (s : string) : string := s.
Definition JSON_stringify_si (s i : string) : string := s +:+ ":" +:+ i.
Definition URI_parse (s : string) : option string := Some s.
Definition toDatabase (s : string) : string := s.
Definition fromDatabase (s : string) : string := s.

Definition V (id : Z) (body : Vertex.data) : Vertex.t :=
  {| Vertex.id := IdNum id; Vertex.body := body |}.

Definition vertex (id : Z) (body : Vertex.data) : Line :=
  {| text := "vertex"; JSON_parse := Some (JVertex (V id body)) |}.

Definition edge (label : EdgeLabels.t) (outV inV : Z) : Line :=
  {| text := "edge";
     JSON_parse := Some (JEdge {| Edge.label := label; Edge.outV := IdNum outV;
                                  Edge.inV := Some (IdNum inV); Edge.inVs := None;
                                  Edge.property := None |}) |}.

Definition edges (label : EdgeLabels.t) (outV : Z) (inVs : list Z)
    (property : option ItemEdgeProperties.t) : Line :=
  {| text := "edge";
     JSON_parse := Some (JEdge {| Edge.label := label; Edge.outV := IdNum outV;
                                  Edge.inV := None; Edge.inVs := Some (IdNum <$> inVs);
                                  Edge.property := property |}) |}.

Definition span (l1 c1 l2 c2 : Z) : Range :=
  {| start := {| line := l1; character := c1 |};
     end_ := {| line := l2; character := c2 |} |}.

(** The records every accepted stream has: meta data and a group. *)
Definition header (version : string) : list Line :=
  [ vertex 1 (Vertex.metaData (Some version));
    vertex 2 (Vertex.group (Some "file:///root")) ].

(** [{}]: valid JSON, no [type]. *)
Definition untyped : Line := {| text := "{}"; JSON_parse := Some JOther |}.

(** Not JSON. *)
Definition malformed : Line := {| text := "{oops"; JSON_parse := None |}.

(** An edge with no target, from an id that no vertex has. *)
Definition edge_without_targets : Line := edges EdgeLabels.contains 99 [] None.

(** An edge from the group to an id that no vertex has. *)
Definition dangling_edge : Line := edge EdgeLabels.contains 2 99.

(** Two documents registered under one URI with different texts. *)
Definition first_document : Vertex.t := V 3 (Vertex.document "file:///root/a.ts" (Some "one")).
Definition second_document : Vertex.t := V 4 (Vertex.document "file:///root/a.ts" (Some "two")).

(** A document that contains R1 (lines 0-10) and R2 (lines 2-4). *)
Definition R1 : Vertex.t := V 4 (Vertex.range (span 0 0 10 0) None).
Definition R2 : Vertex.t := V 5 (Vertex.range (span 2 4 4 1) None).
Definition nested_ranges : list Line :=
  header "0.4.100"
  ++ [ vertex 3 (Vertex.document "file:///root/a.ts" None);
       {| text := "vertex"; JSON_parse := Some (JVertex R1) |};
       {| text := "vertex"; JSON_parse := Some (JVertex R2) |};
       edges EdgeLabels.contains 3 [4; 5] None ].

(** A document with a document symbol result that lists nothing. *)
Definition empty_symbols : list Line :=
  header "0.4.100"
  ++ [ vertex 3 (Vertex.document "file:///root/a.ts" None);
       vertex 6 (Vertex.documentSymbolResult (rangeBased []));
       edge EdgeLabels.textDocument_documentSymbol 3 6 ].

(** A range whose chain of [next] edges reaches the hover result on the
    third vertex: 3 -> 4 -> 5, hover attached to 5. *)
Definition hover_result : Vertex.t := V 6 (Vertex.hoverResult "text" None).
Definition hover_chain : list Line :=
  header "0.4.100"
  ++ [ vertex 3 (Vertex.range (span 0 0 0 5) None);
       vertex 4 Vertex.resultSet;
       vertex 5 Vertex.resultSet;
       {| text := "vertex"; JSON_parse := Some (JVertex hover_result) |};
       edge EdgeLabels.next 3 4;
       edge EdgeLabels.next 4 5;
       edge EdgeLabels.textDocument_hover 5 6 ].

(** A range with one [next] edge and nothing attached: 3 -> 4. *)
Definition bare_chain : list Line :=
  header "0.4.100"
  ++ [ vertex 3 (Vertex.range (span 0 0 0 5) None);
       vertex 4 Vertex.resultSet;
       edge EdgeLabels.next 3 4 ].

(** Symbol A in document X and symbol B in document Y, whose monikers
    14 and 24 share scheme and identifier. Range 11 (A) is a reference of
    result 13 and of the result 15 nested in it; range 21 (B) is a
    reference of result 23 only. [extra] is appended to the stream. *)
Definition range_A : Vertex.t := V 11 (Vertex.range (span 0 0 0 5) None).
Definition range_B : Vertex.t := V 21 (Vertex.range (span 7 1 7 6) None).
Definition moniker_A : Vertex.t :=
  V 14 (Vertex.moniker "tsc" "lib:foo" (Some MonikerKind.export) None).
Definition moniker_B : Vertex.t :=
  V 24 (Vertex.moniker "tsc" "lib:foo" (Some MonikerKind.import) None).
Definition result_B : Vertex.t := V 23 Vertex.referenceResult.
Definition symbols (extra : list Line) : list Line :=
  header "0.4.100"
  ++ [ vertex 10 (Vertex.document "file:///root/x.ts" None);
       {| text := "vertex"; JSON_parse := Some (JVertex range_A) |};
       vertex 12 Vertex.resultSet;
       vertex 13 Vertex.referenceResult;
       {| text := "vertex"; JSON_parse := Some (JVertex moniker_A) |};
       vertex 15 Vertex.referenceResult;
       vertex 20 (Vertex.document "file:///root/y.ts" None);
       {| text := "vertex"; JSON_parse := Some (JVertex range_B) |};
       vertex 22 Vertex.resultSet;
       {| text := "vertex"; JSON_parse := Some (JVertex result_B) |};
       {| text := "vertex"; JSON_parse := Some (JVertex moniker_B) |};
       edges EdgeLabels.contains 10 [11] None;
       edges EdgeLabels.contains 20 [21] None;
       edge EdgeLabels.next 11 12;
       edge EdgeLabels.next 21 22;
       edge EdgeLabels.textDocument_references 12 13;
       edge EdgeLabels.textDocument_references 22 23;
       edge EdgeLabels.moniker 12 14;
       edge EdgeLabels.moniker 22 24;
       edges EdgeLabels.item 13 [11] (Some ItemEdgeProperties.references);
       edges EdgeLabels.item 13 [15] (Some ItemEdgeProperties.referenceResults);
       edges EdgeLabels.item 15 [11] (Some ItemEdgeProperties.references);
       edges EdgeLabels.item 23 [21] (Some ItemEdgeProperties.references) ]
  ++ extra.

(** The reference result of A also names the moniker of B in a
    [referenceLinks] item. *)
Definition link_to_B : Line :=
  edges EdgeLabels.item 13 [24] (Some ItemEdgeProperties.referenceLinks).

Definition location_A : Location :=
  {| Location_uri := "file:///root/x.ts"; Location_range := span 0 0 0 5 |}.
Definition location_B : Location :=
  {| Location_uri := "file:///root/y.ts"; Location_range := span 7 1 7 6 |}.

(** Two vertices whose [next] edges form a cycle, nothing attached:
    3 -> 4 -> 3. *)
Definition cyclic_chain : list Line :=
  header "0.4.100"
  ++ [ vertex 3 (Vertex.range (span 0 0 0 5) None);
       vertex 4 Vertex.resultSet;
       edge EdgeLabels.next 3 4;
       edge EdgeLabels.next 4 3 ].

(** A range with a [next] edge to a result set that carries a reference
    result and a moniker. *)
Definition attached_chain : list Line :=
  header "0.4.100"
  ++ [ vertex 3 (Vertex.range (span 0 0 0 5) None);
       vertex 4 Vertex.resultSet;
       vertex 5 Vertex.referenceResult;
       vertex 6 (Vertex.moniker "tsc" "lib:foo" (Some MonikerKind.export) None);
       edge EdgeLabels.next 3 4;
       edge EdgeLabels.textDocument_references 4 5;
       edge EdgeLabels.moniker 3 6 ].

(** [lsp.Location.is] on the elements of [out.item]: an element with a
    [range] property that is a range, and no [uri], passes. *)
Definition Location_is (value : ItemTarget) : bool :=
  match value with
  | Typed ItemEdgeProperties.declarations to => Vertex.is_range to
  | Typed ItemEdgeProperties.definitions to => Vertex.is_range to
  | Typed ItemEdgeProperties.references to => Vertex.is_range to
  | _ => false
  end.

(** A document with one range, whose [next] edge leads to the result set
    that carries the hover result. *)
Definition hover_range : Vertex.t := V 4 (Vertex.range (span 0 0 0 5) None).
Definition hover_document : list Line :=
  header "0.4.100"
  ++ [ vertex 3 (Vertex.document "file:///root/a.ts" None);
       {| text := "vertex"; JSON_parse := Some (JVertex hover_range) |};
       vertex 5 Vertex.resultSet;
       {| text := "vertex"; JSON_parse := Some (JVertex hover_result) |};
       edges EdgeLabels.contains 3 [4] None;
       edge EdgeLabels.next 4 5;
       edge EdgeLabels.textDocument_hover 5 6 ].

(** A document whose document symbol result lists one range, which has
    no tag. *)
Definition untagged_symbols_result : Vertex.t :=
  V 6 (Vertex.documentSymbolResult (rangeBased [mkRangeBased (IdNum 4) []])).
Definition untagged_symbols : list Line :=
  header "0.4.100"
  ++ [ vertex 3 (Vertex.document "file:///root/a.ts" None);
       {| text := "vertex"; JSON_parse := Some (JVertex R1) |};
       {| text := "vertex"; JSON_parse := Some (JVertex untagged_symbols_result) |};
       edge EdgeLabels.textDocument_documentSymbol 3 6 ].

End Sample.

(** ** Ingestion *)

Section Store.

(** [crypto.createHash('md5').update(s).digest('base64')]. *)
Variable md5_base64 : string -> string.
(** [JSON.stringify({ s: scheme, i: identifier }, undefined, 0)]. *)
Variable JSON_stringify_si : string -> string -> string.
(** [URI.parse]; [None] when it throws. *)
Variable URI_parse : string -> option string.
(** The URI translations of the [Database] base class. *)
Variable toDatabase : string -> string.
Variable fromDatabase : string -> string.

Definition doProcessDocument (st : JsonStore) (document : Vertex.t)
    (uri : string) (document_contents : option string) : JsonStore :=
  let contents := default "No content provided." document_contents in
  let st := set_vertices (Vertices_set_documents (Vertex.id document) document) st in
  let hash := md5_base64 contents in
  let st := set_indices (Indices_set_contents hash contents) st in
  let value :=
    match Indices.documents (indices st) !! uri with
    | Some value => value
    | None => {| Bucket.hash := hash; Bucket.documents := [] |}
    end in
  let st :=
    if decide (hash = Bucket.hash value) then st
    else console_error ("Document " +:+ uri +:+ " has different content.") st in
  (* [value.documents.push(document)] on the bucket held by the map *)
  set_indices
    (Indices_set_documents uri
       {| Bucket.hash := Bucket.hash value;
          Bucket.documents := Bucket.documents value ++ [document] |}) st.

(** The moniker object after [(vertex as Moniker).key = key]; the same
    object is the one held by [vertices.all]. *)
Definition with_key (vertex : Vertex.t) : Vertex.t :=
  match Vertex.body vertex with
  | Vertex.moniker scheme identifier kind key =>
      if decide (kind = Some MonikerKind.local) then vertex
      else {| Vertex.id := Vertex.id vertex;
              Vertex.body :=
                Vertex.moniker scheme identifier kind
                  (Some (md5_base64 (JSON_stringify_si scheme identifier))) |}
  | _ => vertex
  end.

Definition processVertex (st : JsonStore) (vertex0 : Vertex.t) : outcome JsonStore :=
  let vertex := with_key vertex0 in
  let st := set_vertices (Vertices_set_all (Vertex.id vertex) vertex) st in
  match Vertex.body vertex with
  | Vertex.metaData version => Ok (set_version version st)
  | Vertex.group rootUri =>
      match rootUri with
      | Some rootUri =>
          match URI_parse rootUri with
          | Some root => Ok (set_projectRoot (Some root) st)
          | None => Throw (UriError rootUri)
          end
      | None => Ok st
      end
  | Vertex.project =>
      Ok (set_vertices (Vertices_set_projects (Vertex.id vertex) vertex) st)
  | Vertex.event kind scope data =>
      match kind, scope with
      | EventKind.begin, EventScope.group => Ok (set_activeGroup (Some data) st)
      | EventKind.begin, EventScope.project => Ok (set_activeProject (Some data) st)
      | _, _ => Ok st
      end
  | Vertex.document uri contents => Ok (doProcessDocument st vertex uri contents)
  | Vertex.moniker scheme identifier kind _ =>
      if decide (kind = Some MonikerKind.local) then Ok st
      else
        let key := md5_base64 (JSON_stringify_si scheme identifier) in
        let values := default [] (Indices.monikers (indices st) !! key) in
        Ok (set_indices (Indices_set_monikers key (values ++ [vertex])) st)
  | Vertex.range _ _ =>
      Ok (set_vertices (Vertices_set_ranges (Vertex.id vertex) vertex) st)
  | _ => Ok st
  end.

Definition doProcessEdge (st : JsonStore) (label : EdgeLabels.t) (outV inV : Id)
    (property : option ItemEdgeProperties.t) : outcome JsonStore :=
  match Vertices.all (vertices st) !! outV with
  | None => Throw (NoVertexFound outV)
  | Some from =>
      match Vertices.all (vertices st) !! inV with
      | None => Throw (NoVertexFound inV)
      | Some to =>
          let from_id := Vertex.id from in
          let to_id := Vertex.id to in
          match label with
          | EdgeLabels.contains =>
              let values :=
                match Out.contains (out st) !! from_id with
                | None => [to]
                | Some values => values ++ [to]
                end in
              Ok (set_in (In_set_contains to_id from)
                    (set_out (Out_set_contains from_id values) st))
          | EdgeLabels.item =>
              let itemTarget :=
                match property with
                | Some property => Typed property to
                | None => Plain to
                end in
              let values :=
                match Out.item (out st) !! from_id with
                | None => [itemTarget]
                | Some values => values ++ [itemTarget]
                end in
              Ok (set_out (Out_set_item from_id values) st)
          | EdgeLabels.next =>
              Ok (set_in (In_set_previous to_id from)
                    (set_out (Out_set_next from_id to) st))
          | EdgeLabels.moniker =>
              Ok (set_in (In_set_moniker to_id from)
                    (set_out (Out_set_moniker from_id to) st))
          | EdgeLabels.textDocument_documentSymbol =>
              Ok (set_out (Out_set_documentSymbol from_id to) st)
          | EdgeLabels.textDocument_foldingRange =>
              Ok (set_out (Out_set_foldingRange from_id to) st)
          | EdgeLabels.textDocument_documentLink =>
              Ok (set_out (Out_set_documentLink from_id to) st)
          | EdgeLabels.textDocument_diagnostic =>
              Ok (set_out (Out_set_diagnostic from_id to) st)
          | EdgeLabels.textDocument_definition =>
              Ok (set_out (Out_set_definition from_id to) st)
          | EdgeLabels.textDocument_typeDefinition =>
              Ok (set_out (Out_set_typeDefinition from_id to) st)
          | EdgeLabels.textDocument_hover =>
              Ok (set_out (Out_set_hover from_id to) st)
          | EdgeLabels.textDocument_references =>
              Ok (set_out (Out_set_references from_id to) st)
          | _ => Ok st
          end
      end
  end.

(** [for (let inV of edge.inVs) this.doProcessEdge(...)] *)
Fixpoint doProcessEdges (st : JsonStore) (label : EdgeLabels.t) (outV : Id)
    (inVs : list Id) (property : option ItemEdgeProperties.t) : outcome JsonStore :=
  match inVs with
  | [] => Ok st
  | inV :: inVs =>
      st ← doProcessEdge st label outV inV property;
      doProcessEdges st label outV inVs property
  end.

Definition processEdge (st : JsonStore) (edge : Edge.t) : outcome JsonStore :=
  let property :=
    match Edge.label edge with
    | EdgeLabels.item => Edge.property edge
    | _ => None
    end in
  match Edge.inV edge with
  | Some inV => doProcessEdge st (Edge.label edge) (Edge.outV edge) inV property
  | None =>
      match Edge.inVs edge with
      | Some inVs => doProcessEdges st (Edge.label edge) (Edge.outV edge) inVs property
      | None => Ok st
      end
  end.

(** The ['line'] handler. *)
Definition onLine (st : JsonStore) (l : Line) : outcome JsonStore :=
  if decide (text l = "") then Ok st
  else
    match JSON_parse l with
    | None => Throw (SyntaxError (text l))
    | Some JNull => Throw (TypeError "type")
    | Some JOther => Ok st
    | Some (JVertex element) => processVertex st element
    | Some (JEdge element) => processEdge st element
    end.

(** The lines in order; the promise is settled by the first rejection. *)
Fixpoint onLines (st : JsonStore) (lines : list Line) : outcome JsonStore :=
  match lines with
  | [] => Ok st
  | l :: lines => st ← onLine st l; onLines st lines
  end.

(** The ['close'] handler: [Ok tt] is [resolve()]. The range is built
    without options, [true] is then assigned to its [includePrerelease],
    and [satisfies] is called without options. *)
Definition onClose (st : JsonStore) : outcome unit :=
  match projectRoot st with
  | None => Throw NoProjectRoot
  | Some _ =>
      match version st with
      | None => Throw NoVersionFound
      | Some version =>
          match SemVer.parse version with
          | None => Throw (NoValidSemVer version)
          | Some semVer =>
              if SemVer.satisfies semVer (supported_range true) then Ok tt
              else Throw (RequiresVersion version)
          end
      end
  end.

(** [load]: the store is handed out only when the promise resolves. The
    call of [initialize], which sets up the URI translation of the base
    class, is represented by the parameters [toDatabase] and
    [fromDatabase] of the queries. *)
Definition load (lines : list Line) : outcome JsonStore :=
  st ← onLines new_JsonStore lines;
  _ ← onClose st;
  Ok st.

(** ** Queries *)

(** Modelled from the spec: [asRange] belongs to the [Database] base
    class, which is not part of the sources; "contributed ranges are
    converted to (document URI, range) locations": it copies the [start]
    and [end] of a range vertex, and reading them off a vertex that has
    none throws. *)
Definition asRange (value : Vertex.t) : outcome Range :=
  match Vertex.span value with
  | Some span => Ok span
  | None => Throw (TypeError "line")
  end.

(** [value.documents[0].id] *)
Definition first_document_id (value : Bucket.t) : outcome Id :=
  match Bucket.documents value with
  | document :: _ => Ok (Vertex.id document)
  | [] => Throw (TypeError "id")
  end.

Definition findFile (st : JsonStore) (uri : string) : outcome (option (Id * string)) :=
  match Indices.documents (indices st) !! uri with
  | None => Ok None
  | Some result =>
      id ← first_document_id result;
      Ok (Some (id, Bucket.hash result))
  end.

Definition fileContent (st : JsonStore) (info : Id * string) : option string :=
  Indices.contents (indices st) !! info.2.

Definition containsPosition (range : Range) (position : Position) : bool :=
  (if (line position <? line (start range)) || (line position >? line (end_ range))
  then false
  else if (line position =? line (start range))
          && (character position <? character (start range))
  then false
  else if (line position =? line (end_ range))
          && (character position >? character (end_ range))
  then false
  else true)%Z.

(** Test if [otherRange] is in [range]. If the ranges are equal, will
    return true. *)
Definition containsRange (range otherRange : Range) : bool :=
  (if (line (start otherRange) <? line (start range))
     || (line (end_ otherRange) <? line (start range))
  then false
  else if (line (start otherRange) >? line (end_ range))
          || (line (end_ otherRange) >? line (end_ range))
  then false
  else if (line (start otherRange) =? line (start range))
          && (character (start otherRange) <? character (start range))
  then false
  else if (line (end_ otherRange) =? line (end_ range))
          && (character (end_ otherRange) >? character (end_ range))
  then false
  else true)%Z.

(** One turn of the [for (let item of contains)] loop of
    [findRangeFromPosition]. *)
Definition findRange_step (position : Position)
    (candidate : option Vertex.t) (item : Vertex.t) : option Vertex.t :=
  match Vertex.body item with
  | Vertex.range span _ =>
      if containsPosition span position then
        match candidate with
        | None => Some item
        | Some c =>
            match Vertex.span c with
            | Some cspan => if containsRange cspan span then Some item else candidate
            | None => candidate
            end
        end
      else candidate
  | _ => candidate
  end.

Definition findRangeFromPosition (st : JsonStore) (file : string)
    (position : Position) : outcome (option Vertex.t) :=
  match Indices.documents (indices st) !! file with
  | None => Ok None
  | Some value =>
      id ← first_document_id value;
      match Out.contains (out st) !! id with
      | None => Ok None
      | Some [] => Ok None
      | Some contains => Ok (fold_left (findRange_step position) contains None)
      end
  end.

(** [getResultForId]: the [do ... while (true)] loop, [fuel] turns of it.
    The loop reads [this.out.next.get(id)] with the starting [id]. *)
Fixpoint getResultForId_loop (fuel : nat) (st : JsonStore) (id currentId : Id)
    (edges : gmap Id Vertex.t) : outcome (option Vertex.t * Id) :=
  match fuel with
  | O => OutOfFuel
  | S fuel =>
      match edges !! currentId with
      | Some result => Ok (Some result, currentId)
      | None =>
          match Out.next (out st) !! id with
          | None => Ok (None, id)
          | Some next => getResultForId_loop fuel st id (Vertex.id next) edges
          end
      end
  end.

Definition getResultForId (fuel : nat) (st : JsonStore) (id : Id)
    (edges : gmap Id Vertex.t) : outcome (option Vertex.t * Id) :=
  getResultForId_loop fuel st id id edges.

(** [findMonikers], with the same shape of loop; the moniker found is
    pushed on [result]. *)
Fixpoint findMonikers_loop (fuel : nat) (st : JsonStore) (result : list Vertex.t)
    (id currentId : Id) : outcome (list Vertex.t) :=
  match fuel with
  | O => OutOfFuel
  | S fuel =>
      match Out.moniker (out st) !! currentId with
      | Some moniker => Ok (result ++ [moniker])
      | None =>
          match In.previous (in_ st) !! id with
          | None => Ok result
          | Some previous => findMonikers_loop fuel st result id (Vertex.id previous)
          end
      end
  end.

Definition findMonikers (fuel : nat) (st : JsonStore) (result : list Vertex.t)
    (id : Id) : outcome (list Vertex.t) :=
  findMonikers_loop fuel st result id id.

Definition findVertexForMoniker (st : JsonStore) (moniker : Vertex.t) : option Vertex.t :=
  In.moniker (in_ st) !! Vertex.id moniker.

Definition item (st : JsonStore) (value : Vertex.t) : option (list ItemTarget) :=
  match Vertex.body value with
  | Vertex.declarationResult => Out.item (out st) !! Vertex.id value
  | Vertex.definitionResult => Out.item (out st) !! Vertex.id value
  | Vertex.referenceResult => Out.item (out st) !! Vertex.id value
  | _ => None
  end.

(** [addLocation] on a vertex (no vertex is an [lsp.Location]). The [Set]
    [dedup] is the list of its elements in insertion order. *)
Definition addLocation (st : JsonStore) (result : list Location) (value : Vertex.t)
    (dedup : list Id) : outcome (list Location * list Id) :=
  if decide (Vertex.id value ∈ dedup) then Ok (result, dedup)
  else
    match In.contains (in_ st) !! Vertex.id value with
    | None => Throw (TypeError "uri")
    | Some document =>
        match Vertex.uri document with
        | None => Throw (TypeError "uri")
        | Some uri =>
            range ← asRange value;
            Ok (result ++ [ {| Location_uri := fromDatabase uri; Location_range := range |} ],
                dedup ++ [Vertex.id value])
        end
    end.

(** The state the reference expansion threads through its calls:
    [locations], [dedupRanges] and [monikers]. *)
Definition Expansion : Type := list Location * list Id * list Vertex.t.

(** The body of the [for (let target of targets)] loop of
    [resolveReferenceResult]; [recurse] is the nested call. *)
Definition resolveTarget (st : JsonStore) (includeDeclaration : bool)
    (recurse : Expansion -> Vertex.t -> outcome Expansion)
    (acc : Expansion) (target : ItemTarget) : outcome Expansion :=
  let '(locations, dedupRanges, monikers) := acc in
  match target with
  | Typed ItemEdgeProperties.declarations range =>
      if includeDeclaration then
        '(locations, dedupRanges) ← addLocation st locations range dedupRanges;
        Ok (locations, dedupRanges, monikers)
      else Ok acc
  | Typed ItemEdgeProperties.definitions range =>
      if includeDeclaration then
        '(locations, dedupRanges) ← addLocation st locations range dedupRanges;
        Ok (locations, dedupRanges, monikers)
      else Ok acc
  | Typed ItemEdgeProperties.references range =>
      '(locations, dedupRanges) ← addLocation st locations range dedupRanges;
      Ok (locations, dedupRanges, monikers)
  | Typed ItemEdgeProperties.referenceResults result => recurse acc result
  | Typed ItemEdgeProperties.referenceLinks result =>
      Ok (locations, dedupRanges, monikers ++ [result])
  | Plain _ => Ok acc
  end.

(** A loop over an array that the body does not change. *)
Fixpoint for_of {A S : Type} (body : S -> A -> outcome S) (l : list A) (s : S)
    : outcome S :=
  match l with
  | [] => Ok s
  | x :: l => s ← body s x; for_of body l s
  end.

(** [resolveReferenceResult]; [fuel] bounds the depth of the recursion
    through [referenceResults] items. *)
Fixpoint resolveReferenceResult (fuel : nat) (st : JsonStore) (includeDeclaration : bool)
    (acc : Expansion) (referenceResult : Vertex.t) : outcome Expansion :=
  match fuel with
  | O => OutOfFuel
  | S fuel =>
      match item st referenceResult with
      | None => Ok acc
      | Some targets =>
          for_of (resolveTarget st includeDeclaration
                    (resolveReferenceResult fuel st includeDeclaration))
                 targets acc
      end
  end.

(** The body of [for (const matchingMoniker of matchingMonikers)]. *)
Definition expandMatching (fuel : nat) (st : JsonStore) (includeDeclaration : bool)
    (moniker : Vertex.t) (acc : Expansion) (matchingMoniker : Vertex.t)
    : outcome Expansion :=
  if decide (Vertex.id moniker = Vertex.id matchingMoniker) then Ok acc
  else
    match findVertexForMoniker st matchingMoniker with
    | None => Ok acc
    | Some vertex =>
        '(referenceResult, _) ← getResultForId fuel st (Vertex.id vertex)
                                  (Out.references (out st));
        match referenceResult with
        | None => Ok acc
        | Some referenceResult =>
            resolveReferenceResult fuel st includeDeclaration acc referenceResult
        end
    end.

(** [for (const moniker of monikers)]: the array grows while it is
    traversed, so the loop runs on an index; [fuel] turns of it. The keys
    in [dedupMonikers] include [undefined] ([None]), the key of a moniker
    that has none. *)
Fixpoint monikerLoop (fuel : nat) (st : JsonStore) (includeDeclaration : bool)
    (i : nat) (dedupMonikers : list (option string)) (acc : Expansion)
    : outcome (Expansion * list (option string)) :=
  match fuel with
  | O => OutOfFuel
  | S fuel' =>
      match acc.2 !! i with
      | None => Ok (acc, dedupMonikers)
      | Some moniker =>
          if decide (Vertex.key moniker ∈ dedupMonikers)
          then monikerLoop fuel' st includeDeclaration (S i) dedupMonikers acc
          else
            let dedupMonikers := dedupMonikers ++ [Vertex.key moniker] in
            let matchingMonikers :=
              match Vertex.key moniker with
              | Some key => Indices.monikers (indices st) !! key
              | None => None
              end in
            match matchingMonikers with
            | None => monikerLoop fuel' st includeDeclaration (S i) dedupMonikers acc
            | Some matchingMonikers =>
                acc ← for_of (expandMatching fuel st includeDeclaration moniker)
                        matchingMonikers acc;
                monikerLoop fuel' st includeDeclaration (S i) dedupMonikers acc
            end
      end
  end.

(** The closure [findReferences] of [references]. *)
Definition findReferences (fuel : nat) (st : JsonStore) (includeDeclaration : bool)
    (result : list Location) (dedupRanges : list Id)
    (dedupMonikers : list (option string)) (range : Vertex.t)
    : outcome (list Location * list Id * list (option string)) :=
  '(referenceResult, anchorId) ← getResultForId fuel st (Vertex.id range)
                                   (Out.references (out st));
  match referenceResult with
  | None => Ok (result, dedupRanges, dedupMonikers)
  | Some referenceResult =>
      '(result, dedupRanges, monikers) ←
        resolveReferenceResult fuel st includeDeclaration
          (result, dedupRanges, []) referenceResult;
      monikers ← findMonikers fuel st monikers anchorId;
      '(result, dedupRanges, _, dedupMonikers) ←
        monikerLoop fuel st includeDeclaration 0 dedupMonikers
          (result, dedupRanges, monikers);
      Ok (result, dedupRanges, dedupMonikers)
  end.

Definition references (fuel : nat) (st : JsonStore) (uri : string)
    (position : Position) (includeDeclaration : bool)
    : outcome (option (list Location)) :=
  range ← findRangeFromPosition st (toDatabase uri) position;
  match range with
  | None => Ok None
  | Some range =>
      '(result, _, _) ← findReferences fuel st includeDeclaration [] [] [] range;
      Ok (Some result)
  end.

(** [toDocumentSymbol]: the children are converted whenever the node
    itself converts. *)
Fixpoint toDocumentSymbol (st : JsonStore) (value : RangeBasedDocumentSymbol)
    : outcome (option DocumentSymbol) :=
  match value with
  | mkRangeBased id children =>
      match Vertices.ranges (vertices st) !! id with
      | None => Throw (TypeError "tag")
      | Some range =>
          let create text detail kind fullRange :=
            selectionRange ← asRange range;
            converted ←
              (fix convert (l : list RangeBasedDocumentSymbol)
                 : outcome (list DocumentSymbol) :=
                 match l with
                 | [] => Ok []
                 | child :: l =>
                     c ← toDocumentSymbol st child;
                     rest ← convert l;
                     Ok (match c with Some c => c :: rest | None => rest end)
                 end) children;
            Ok (Some (mkDocumentSymbol text (default "" detail) kind fullRange
                        selectionRange
                        (match children with [] => None | _ => Some converted end))) in
          match Vertex.body range with
          | Vertex.range _ (Some (RangeTag.declaration text detail kind fullRange)) =>
              create text detail kind fullRange
          | Vertex.range _ (Some (RangeTag.definition text detail kind fullRange)) =>
              create text detail kind fullRange
          | _ => Ok None
          end
      end
  end.

(** The [for (let item of ...)] loop of [documentSymbols] over range
    based entries. *)
Fixpoint convertSymbols (st : JsonStore) (l : list RangeBasedDocumentSymbol)
    (result : list DocumentSymbol) : outcome (list DocumentSymbol) :=
  match l with
  | [] => Ok result
  | item :: l =>
      converted ← toDocumentSymbol st item;
      convertSymbols st l
        (match converted with Some c => result ++ [c] | None => result end)
  end.

(** [documentSymbols]. The edge may name a vertex of any label, and its
    [result] is read all the same: an empty array of another result gives
    no answer; the entries of a non-empty one are no document symbols and
    have no [id], so their conversion reads the [tag] of no range; the
    [result] of a hover result has no [length] and cannot be traversed; a
    vertex without [result] has no [length] to read. *)
Definition documentSymbols (st : JsonStore) (uri : string)
    : outcome (option (list DocumentSymbol)) :=
  match Indices.documents (indices st) !! toDatabase uri with
  | None => Ok None
  | Some value =>
      id ← first_document_id value;
      match Out.documentSymbol (out st) !! id with
      | None => Ok None
      | Some documentSymbolResult =>
          match Vertex.body documentSymbolResult with
          | Vertex.documentSymbolResult (fullSymbols []) => Ok None
          | Vertex.documentSymbolResult (rangeBased []) => Ok None
          | Vertex.documentSymbolResult (fullSymbols result) => Ok (Some result)
          | Vertex.documentSymbolResult (rangeBased result) =>
              result ← convertSymbols st result [];
              Ok (Some result)
          | Vertex.foldingRangeResult [] => Ok None
          | Vertex.documentLinkResult [] => Ok None
          | Vertex.diagnosticResult [] => Ok None
          | Vertex.foldingRangeResult (_ :: _) => Throw (TypeError "tag")
          | Vertex.documentLinkResult (_ :: _) => Throw (TypeError "tag")
          | Vertex.diagnosticResult (_ :: _) => Throw (TypeError "tag")
          | Vertex.hoverResult _ _ => Throw (NotIterable "result")
          | _ => Throw (TypeError "length")
          end
      end
  end.

(** The answer of [hover]. Its [range] is the one of the hover result
    when it has one, and otherwise the range vertex found at the position,
    as it is. The edge may name a vertex of any label: [contents] and
    [range] are read off its [result], so a result that is an array has
    neither, and the contents of the answer are [undefined]; a vertex
    without [result] has nothing to read them off. *)
Inductive HoverRange : Type :=
| ofResult (range : Range)
| ofVertex (range : Vertex.t).

Record Hover : Type := { Hover_contents : option string; Hover_range : HoverRange }.

Definition hover (fuel : nat) (st : JsonStore) (uri : string) (position : Position)
    : outcome (option Hover) :=
  range ← findRangeFromPosition st (toDatabase uri) position;
  match range with
  | None => Ok None
  | Some range =>
      '(hoverResult, _) ← getResultForId fuel st (Vertex.id range) (Out.hover (out st));
      match hoverResult with
      | None => Ok None
      | Some hoverResult =>
          match Vertex.body hoverResult with
          | Vertex.hoverResult contents (Some hoverRange) =>
              Ok (Some {| Hover_contents := Some contents;
                          Hover_range := ofResult hoverRange |})
          | Vertex.hoverResult contents None =>
              Ok (Some {| Hover_contents := Some contents;
                          Hover_range := ofVertex range |})
          | Vertex.documentSymbolResult _ =>
              Ok (Some {| Hover_contents := None; Hover_range := ofVertex range |})
          | Vertex.foldingRangeResult _ =>
              Ok (Some {| Hover_contents := None; Hover_range := ofVertex range |})
          | Vertex.documentLinkResult _ =>
              Ok (Some {| Hover_contents := None; Hover_range := ofVertex range |})
          | Vertex.diagnosticResult _ =>
              Ok (Some {| Hover_contents := None; Hover_range := ofVertex range |})
          | _ => Throw (TypeError "range")
          end
      end
  end.

(** [lsp.Location.is] belongs to the package [vscode-languageserver]; it
    is applied to the elements of [out.item]. *)
Variable Location_is : ItemTarget -> bool.

(** [asLocation]: an element that is a location already is returned as it
    is; of any other element the [id] is read, which only a plain range
    has. *)
Definition asLocation (st : JsonStore) (value : ItemTarget)
    : outcome (ItemTarget + Location) :=
  if Location_is value then Ok (inl value)
  else
    match value with
    | Plain value =>
        match In.contains (in_ st) !! Vertex.id value with
        | None => Throw (TypeError "uri")
        | Some document =>
            match Vertex.uri document with
            | None => Throw (TypeError "uri")
            | Some uri =>
                range ← asRange value;
                Ok (inr {| Location_uri := fromDatabase uri; Location_range := range |})
            end
        end
    | Typed _ _ => Throw (TypeError "uri")
    end.

Definition declarations (fuel : nat) (st : JsonStore) (uri : string)
    (position : Position) : outcome (option (list (ItemTarget + Location))) :=
  range ← findRangeFromPosition st (toDatabase uri) position;
  match range with
  | None => Ok None
  | Some range =>
      '(declarationResult, _) ← getResultForId fuel st (Vertex.id range)
                                  (Out.declaration (out st));
      match declarationResult with
      | None => Ok None
      | Some declarationResult =>
          match item st declarationResult with
          | None => Ok None
          | Some ranges =>
              result ← for_of (fun result element =>
                                 location ← asLocation st element;
                                 Ok (result ++ [location])) ranges [];
              Ok (Some result)
          end
      end
  end.

(** * Properties *)

(** ** Vocabulary of the statements *)

(** The ids of the vertex records of a stream that reach [processVertex]. *)
Definition ingested_ids (lines : list Line) : list Id :=
  omap (fun l => if decide (text l = "") then None
                 else match JSON_parse l with
                      | Some (JVertex v) => Some (Vertex.id v)
                      | _ => None
                      end) lines.

(** The targets [processEdge] applies an edge to, in order. *)
Definition edge_targets (e : Edge.t) : list Id :=
  match Edge.inV e with
  | Some inV => [inV]
  | None => default [] (Edge.inVs e)
  end.

(** A bucket of [indices.documents] as [doProcessDocument] builds it: it
    has a first document, registered under the bucket's URI, and carries
    the digest of the text of that document. *)
Definition bucket_ok (uri : string) (b : Bucket.t) : Prop :=
  exists first rest contents,
    Bucket.documents b = first :: rest
    /\ Vertex.body first = Vertex.document uri contents
    /\ Bucket.hash b = md5_base64 (default "No content provided." contents).

(** A position lies in a range, in the words of the specification: on the
    start line its character is at least that of the start, on the end
    line at most that of the end, and on the lines strictly between any
    character qualifies. *)
Definition position_in_range (range : Range) (position : Position) : Prop :=
  (line (start range) <= line position <= line (end_ range)
   /\ (line position = line (start range) ->
       character (start range) <= character position)
   /\ (line position = line (end_ range) ->
       character position <= character (end_ range)))%Z.

Definition Position_le (p q : Position) : Prop :=
  (line p < line q \/ (line p = line q /\ character p <= character q))%Z.

(** [inner] nests inside [outer]. *)
Definition range_within (outer inner : Range) : Prop :=
  Position_le (start outer) (start inner) /\ Position_le (end_ inner) (end_ outer).

(** The range vertices of a list that contain the position. *)
Definition is_candidate (position : Position) (item : Vertex.t) : bool :=
  match Vertex.span item with
  | Some span => containsPosition span position
  | None => false
  end.

Definition candidates (position : Position) (contains : list Vertex.t) : list Vertex.t :=
  List.filter (is_candidate position) contains.

Definition nests_inside (current later : Vertex.t) : bool :=
  match Vertex.span current, Vertex.span later with
  | Some outer, Some inner => containsRange outer inner
  | _, _ => false
  end.

(** The choice among the matches, in the words of the specification: a
    later match replaces the current one exactly when it nests inside it,
    otherwise the first encountered wins. *)
Fixpoint refine (current : Vertex.t) (later : list Vertex.t) : Vertex.t :=
  match later with
  | [] => current
  | item :: later =>
      if nests_inside current item then refine item later else refine current later
  end.

Definition most_specific (matches : list Vertex.t) : option Vertex.t :=
  match matches with
  | [] => None
  | first :: later => Some (refine first later)
  end.

(** The number of entries of a document symbol result. *)
Definition entries_length (entries : DocumentSymbolEntries) : nat :=
  match entries with
  | fullSymbols l => length l
  | rangeBased l => length l
  end.

(** The location [addLocation] pushes for a range vertex. *)
Definition location_of (st : JsonStore) (value : Vertex.t) : option Location :=
  document ← In.contains (in_ st) !! Vertex.id value;
  uri ← Vertex.uri document;
  range ← Vertex.span value;
  Some {| Location_uri := fromDatabase uri; Location_range := range |}.

(** The range [range] is contributed by the expansion of the reference
    result [result]: it is one of its [references] items, one of its
    [declarations] or [definitions] items when declarations are asked for,
    or it is contributed by a nested [referenceResults] item. *)
Inductive contributes (st : JsonStore) (includeDeclaration : bool)
  : Vertex.t -> Vertex.t -> Prop :=
| contributes_references result targets range :
    item st result = Some targets ->
    Typed ItemEdgeProperties.references range ∈ targets ->
    contributes st includeDeclaration result range
| contributes_declarations result targets range :
    item st result = Some targets ->
    includeDeclaration = true ->
    Typed ItemEdgeProperties.declarations range ∈ targets ->
    contributes st includeDeclaration result range
| contributes_definitions result targets range :
    item st result = Some targets ->
    includeDeclaration = true ->
    Typed ItemEdgeProperties.definitions range ∈ targets ->
    contributes st includeDeclaration result range
| contributes_referenceResults result targets nested range :
    item st result = Some targets ->
    Typed ItemEdgeProperties.referenceResults nested ∈ targets ->
    contributes st includeDeclaration nested range ->
    contributes st includeDeclaration result range.

(** The range is contributed by a reference result of the store. *)
Definition contributed (st : JsonStore) (includeDeclaration : bool)
    (range : Vertex.t) : Prop :=
  exists result, contributes st includeDeclaration result range.

(** [locations] holds one location for each id of [dedupRanges], in the
    same order, no id occurs twice, and each location is the one of a
    contributed range. *)
Definition deduplicated (st : JsonStore) (includeDeclaration : bool)
    (locations : list Location) (dedupRanges : list Id) : Prop :=
  exists ranges : list Vertex.t,
    dedupRanges = Vertex.id <$> ranges
    /\ NoDup dedupRanges
    /\ Forall2 (fun location range => location_of st range = Some location)
         locations ranges
    /\ Forall (contributed st includeDeclaration) ranges.

(** The result [r] is attached to [id] itself or to the target of the
    [next] edge of [id]; [anchorId] is the vertex that carries it. *)
Definition found (st : JsonStore) (edges : gmap Id Vertex.t) (id : Id)
    (r : Vertex.t) (anchorId : Id) : Prop :=
  (edges !! id = Some r /\ anchorId = id)
  \/ (edges !! id = None
      /\ exists next, Out.next (out st) !! id = Some next
                      /\ edges !! Vertex.id next = Some r
                      /\ anchorId = Vertex.id next).

(** The moniker [m] is attached to [id] itself or to the source of the
    [next] edge into [id]. *)
Definition moniker_of (st : JsonStore) (id : Id) (m : Vertex.t) : Prop :=
  Out.moniker (out st) !! id = Some m
  \/ (Out.moniker (out st) !! id = None
      /\ exists previous, In.previous (in_ st) !! id = Some previous
                          /\ Out.moniker (out st) !! Vertex.id previous = Some m).

(** [x] is the target of a [referenceLinks] item of the store. *)
Definition linked (st : JsonStore) (x : Vertex.t) : Prop :=
  exists (r : Id) (targets : list ItemTarget),
    Out.item (out st) !! r = Some targets
    /\ Typed ItemEdgeProperties.referenceLinks x ∈ targets.

(** How an expansion state evolves: ids are only added to [dedupRanges],
    monikers are only appended, and only targets of [referenceLinks]
    items, and [deduplicated] is kept. *)
Definition grows (st : JsonStore) (includeDeclaration : bool) (a b : Expansion) : Prop :=
  a.1.2 ⊆ b.1.2
  /\ a.2 `prefix_of` b.2
  /\ (forall x, x ∈ b.2 -> x ∈ a.2 \/ linked st x)
  /\ (deduplicated st includeDeclaration a.1.1 a.1.2 ->
      deduplicated st includeDeclaration b.1.1 b.1.2).

(** The first of the monikers that carries the key. *)
Definition first_with_key (key : string) (monikers : list Vertex.t) : option Vertex.t :=
  head (filter (fun x => Vertex.key x = Some key) monikers).

(** The walk from [id] finds a result on [id] or on the target of its
    [next] edge, or [id] has no [next] edge. *)
Definition within_one_hop (st : JsonStore) (edges : gmap Id Vertex.t) (id : Id) : Prop :=
  is_Some (edges !! id)
  \/ Out.next (out st) !! id = None
  \/ exists next, Out.next (out st) !! id = Some next
                  /\ is_Some (edges !! Vertex.id next).

(** The range lies in a document: [addLocation] has a location for it. *)
Definition locatable (st : JsonStore) (range : Vertex.t) : Prop :=
  is_Some (location_of st range).

(** The reference result can be expanded: the ranges it contributes are
    locatable and its [referenceResults] items nest less than [depth]
    deep. *)
Fixpoint resolves (depth : nat) (st : JsonStore) (includeDeclaration : bool)
    (result : Vertex.t) : Prop :=
  match depth with
  | O => False
  | S depth =>
      match item st result with
      | None => True
      | Some targets =>
          Forall (fun target =>
                    match target with
                    | Typed ItemEdgeProperties.declarations range =>
                        includeDeclaration = true -> locatable st range
                    | Typed ItemEdgeProperties.definitions range =>
                        includeDeclaration = true -> locatable st range
                    | Typed ItemEdgeProperties.references range => locatable st range
                    | Typed ItemEdgeProperties.referenceResults nested =>
                        resolves depth st includeDeclaration nested
                    | _ => True
                    end) targets
      end
  end.

(** The monikers the expansion anchored at the moniker [m] can match can
    be expanded. A pending moniker is [m] or the target of a
    [referenceLinks] item; the monikers it matches are those the index
    lists under its key; the vertex of each has its reference result
    within one hop, and that result resolves. *)
Definition expandable (depth : nat) (st : JsonStore) (includeDeclaration : bool)
    (m : Vertex.t) : Prop :=
  forall pending key matching moniker vertex,
    pending = m \/ linked st pending ->
    Vertex.key pending = Some key ->
    Indices.monikers (indices st) !! key = Some matching ->
    moniker ∈ matching ->
    findVertexForMoniker st moniker = Some vertex ->
    within_one_hop st (Out.references (out st)) (Vertex.id vertex)
    /\ forall result anchorId,
         found st (Out.references (out st)) (Vertex.id vertex) result anchorId ->
         resolves depth st includeDeclaration result.

(** The keys of the index that the moniker loop has not met yet. *)
Definition unseen (st : JsonStore) (dedupMonikers : list (option string)) : gset string :=
  filter (fun key => Some key ∉ dedupMonikers) (dom (Indices.monikers (indices st))).

(** The canonical document of a URI: the first document vertex registered
    for it. *)
Definition canonical_document (st : JsonStore) (uri : string) : option Vertex.t :=
  value ← Indices.documents (indices st) !! uri;
  head (Bucket.documents value).

(** The vertex records of a stream that reach [processVertex], in order. *)
Definition ingested_vertices (lines : list Line) : list Vertex.t :=
  omap (fun l => if decide (text l = "") then None
                 else match JSON_parse l with
                      | Some (JVertex v) => Some v
                      | _ => None
                      end) lines.

(** The root URIs of the group records and the versions of the meta data
    records of a stream, in order. *)
Definition rootUris (lines : list Line) : list string :=
  omap (fun v => match Vertex.body v with
                 | Vertex.group rootUri => rootUri
                 | _ => None
                 end) (ingested_vertices lines).

Definition versions (lines : list Line) : list (option string) :=
  omap (fun v => match Vertex.body v with
                 | Vertex.metaData version => Some version
                 | _ => None
                 end) (ingested_vertices lines).

(** The digest [doProcessDocument] computes for a document vertex. *)
Definition document_hash (v : Vertex.t) : option string :=
  match Vertex.body v with
  | Vertex.document _ contents =>
      Some (md5_base64 (default "No content provided." contents))
  | _ => None
  end.

(** The id [k] is the id of a vertex of the store. *)
Definition known (st : JsonStore) (k : Id) : Prop :=
  is_Some (Vertices.all (vertices st) !! k).

(** Every key of [m] and the id of every vertex [m] holds are known. *)
Definition closed (st : JsonStore) (m : gmap Id Vertex.t) : Prop :=
  forall k v, m !! k = Some v -> known st k /\ known st (Vertex.id v).

Definition ItemTarget_to (target : ItemTarget) : Vertex.t :=
  match target with Plain to => to | Typed _ to => to end.

(** The single valued maps of [out] and [in]. *)
Definition single_valued (st : JsonStore) : list (gmap Id Vertex.t) :=
  [ Out.next (out st); Out.moniker (out st); Out.documentSymbol (out st);
    Out.foldingRange (out st); Out.documentLink (out st); Out.diagnostic (out st);
    Out.declaration (out st); Out.definition (out st); Out.typeDefinition (out st);
    Out.hover (out st); Out.references (out st); Out.implementation (out st);
    In.contains (in_ st); In.previous (in_ st); In.moniker (in_ st) ].

(** No map of the store refers to a vertex the store does not hold, and
    every vertex is held under its own id. *)
Definition referential_integrity (st : JsonStore) : Prop :=
  (forall k v, Vertices.all (vertices st) !! k = Some v -> Vertex.id v = k)
  /\ Forall (closed st) (single_valued st)
  /\ (forall k l, Out.contains (out st) !! k = Some l ->
        known st k /\ forall v, v ∈ l -> known st (Vertex.id v))
  /\ (forall k l, Out.item (out st) !! k = Some l ->
        known st k /\ forall t, t ∈ l -> known st (Vertex.id (ItemTarget_to t))).

(** The typed collections hold vertices of their kind under their ids. *)
Definition typed_collections (st : JsonStore) : Prop :=
  (forall k v, Vertices.projects (vertices st) !! k = Some v ->
     Vertex.id v = k /\ Vertex.body v = Vertex.project)
  /\ (forall k v, Vertices.documents (vertices st) !! k = Some v ->
        Vertex.id v = k /\ is_Some (Vertex.uri v))
  /\ (forall k v, Vertices.ranges (vertices st) !! k = Some v ->
        Vertex.id v = k /\ Vertex.is_range v = true).

(** The moniker index holds, under each key, non-local monikers that carry
    that key, the digest of their scheme and identifier. *)
Definition moniker_index_ok (st : JsonStore) : Prop :=
  forall key ms m,
    Indices.monikers (indices st) !! key = Some ms -> m ∈ ms ->
    exists scheme identifier kind,
      Vertex.body m = Vertex.moniker scheme identifier kind (Some key)
      /\ kind <> Some MonikerKind.local
      /\ key = md5_base64 (JSON_stringify_si scheme identifier).

(** The content index maps the digest of a text to the text, and holds the
    hash of every bucket. *)
Definition content_index_ok (st : JsonStore) : Prop :=
  (forall hash contents,
     Indices.contents (indices st) !! hash = Some contents ->
     md5_base64 contents = hash)
  /\ (forall uri b,
        Indices.documents (indices st) !! uri = Some b ->
        is_Some (Indices.contents (indices st) !! Bucket.hash b)).

(** A 1:N edge record and a 1:1 edge record. *)
Definition edge_1N (label : EdgeLabels.t) (outV : Id) (inVs : list Id)
    (property : option ItemEdgeProperties.t) : Edge.t :=
  {| Edge.label := label; Edge.outV := outV; Edge.inV := None;
     Edge.inVs := Some inVs; Edge.property := property |}.

Definition edge_11 (label : EdgeLabels.t) (outV inV : Id)
    (property : option ItemEdgeProperties.t) : Edge.t :=
  {| Edge.label := label; Edge.outV := outV; Edge.inV := Some inV;
     Edge.inVs := None; Edge.property := property |}.

(** The range vertex carries a [declaration] or a [definition] tag, the
    ones [toDocumentSymbol] converts. *)
Definition names_symbol (range : Vertex.t) : bool :=
  match Vertex.body range with
  | Vertex.range _ (Some (RangeTag.declaration _ _ _ _)) => true
  | Vertex.range _ (Some (RangeTag.definition _ _ _ _)) => true
  | _ => false
  end.

Definition RangeBased_id (value : RangeBasedDocumentSymbol) : Id :=
  match value with mkRangeBased id _ => id end.

(** The [result] of the vertex is an array. *)
Definition array_result (v : Vertex.t) : bool :=
  match Vertex.body v with
  | Vertex.documentSymbolResult _ => true
  | Vertex.foldingRangeResult _ => true
  | Vertex.documentLinkResult _ => true
  | Vertex.diagnosticResult _ => true
  | _ => false
  end.

(** ** Ingestion lemmas *)

Lemma bind_Ok {A B} (m : outcome A) (f : A -> outcome B) (b : B) :
  m ≫= f = Ok b -> exists a, m = Ok a /\ f a = Ok b.
Proof. destruct m; simpl; intros H; try discriminate; eauto. Qed.

Lemma onLines_app (st : JsonStore) (l1 l2 : list Line) :
  onLines st (l1 ++ l2) = onLines st l1 ≫= fun st' => onLines st' l2.
Proof.
  revert st; induction l1 as [|l l1 IH]; intros st; simpl; [reflexivity|].
  destruct (onLine st l) as [st'| |]; simpl; auto.
Qed.

Lemma with_key_id (v : Vertex.t) : Vertex.id (with_key v) = Vertex.id v.
Proof.
  unfold with_key. destruct (Vertex.body v); try reflexivity.
  case_decide; reflexivity.
Qed.

Lemma processVertex_all (st st' : JsonStore) (v : Vertex.t) :
  processVertex st v = Ok st' ->
  Vertices.all (vertices st')
  = <[Vertex.id v := with_key v]> (Vertices.all (vertices st)).
Proof.
  unfold processVertex, doProcessDocument. rewrite with_key_id. intros H.
  repeat case_match; simplify_eq; reflexivity.
Qed.

Lemma doProcessEdge_vertices (st st' : JsonStore) label outV inV property :
  doProcessEdge st label outV inV property = Ok st' -> vertices st' = vertices st.
Proof.
  unfold doProcessEdge. intros H.
  repeat case_match; simplify_eq; reflexivity.
Qed.

Lemma doProcessEdges_vertices inVs : forall (st st' : JsonStore) label outV property,
  doProcessEdges st label outV inVs property = Ok st' -> vertices st' = vertices st.
Proof.
  induction inVs as [|i inVs IH]; simpl; intros st st' label outV property H.
  - by simplify_eq.
  - apply bind_Ok in H as (st1 & H1 & H2).
    rewrite (IH _ _ _ _ _ H2). eapply doProcessEdge_vertices; eauto.
Qed.

Lemma processEdge_vertices (st st' : JsonStore) (e : Edge.t) :
  processEdge st e = Ok st' -> vertices st' = vertices st.
Proof.
  unfold processEdge. intros H. repeat case_match; simplify_eq;
    eauto using doProcessEdge_vertices, doProcessEdges_vertices.
Qed.

(** A vertex is known to the store exactly when an earlier line
    ingested it. *)
Lemma onLines_all (lines : list Line) : forall (st st' : JsonStore) (k : Id),
  onLines st lines = Ok st' ->
  is_Some (Vertices.all (vertices st') !! k)
  <-> is_Some (Vertices.all (vertices st) !! k) \/ k ∈ ingested_ids lines.
Proof.
  induction lines as [|l lines IH]; intros st st' k H; simpl in H.
  - simplify_eq. unfold ingested_ids; simpl. set_solver.
  - apply bind_Ok in H as (st1 & H1 & H2).
    rewrite (IH _ _ k H2). clear IH H2.
    unfold ingested_ids; simpl. fold (ingested_ids lines).
    unfold onLine in H1.
    case_decide as Ht; [simplify_eq; tauto|].
    destruct (JSON_parse l) as [[| |v|e]|]; simplify_eq.
    + tauto.
    + rewrite (processVertex_all _ _ _ H1).
      rewrite lookup_insert. case_decide; subst.
      * split; [intros _; right; set_solver|intros _; eauto].
      * set_solver.
    + rewrite (processEdge_vertices _ _ _ H1). tauto.
Qed.

Lemma onLines_new_all (lines : list Line) (st : JsonStore) (k : Id) :
  onLines new_JsonStore lines = Ok st ->
  Vertices.all (vertices st) !! k = None <-> k ∉ ingested_ids lines.
Proof.
  intros H. pose proof (onLines_all lines _ _ k H) as E.
  simpl in E. rewrite lookup_empty in E. rewrite eq_None_not_Some.
  split; intros N; [intros I; apply N, E; auto|].
  intros S; apply E in S as [[? S]|S]; [discriminate|done].
Qed.

Lemma doProcessEdges_dangling inVs : forall (st : JsonStore) label outV property,
  inVs <> [] ->
  (Vertices.all (vertices st) !! outV = None
   \/ exists i, i ∈ inVs /\ Vertices.all (vertices st) !! i = None) ->
  exists id, doProcessEdges st label outV inVs property = Throw (NoVertexFound id)
             /\ (id = outV \/ id ∈ inVs)
             /\ Vertices.all (vertices st) !! id = None.
Proof.
  induction inVs as [|i inVs IH]; intros st label outV property Hne Hd; [done|].
  simpl. unfold doProcessEdge at 1.
  destruct (Vertices.all (vertices st) !! outV) as [from|] eqn:Hfrom.
  2:{ exists outV; simpl; auto. }
  destruct (Vertices.all (vertices st) !! i) as [to|] eqn:Hto.
  2:{ exists i; simpl. split; [done|]. split; [right; set_solver|done]. }
  destruct Hd as [Hd|(j & Hj & Hnone)]; [congruence|].
  assert (j ∈ inVs) as Hj' by (apply elem_of_cons in Hj as [->|]; [congruence|done]).
  assert (inVs <> []) as Hne' by (intros ->; set_solver).
  assert (exists st1,
    doProcessEdge st label outV i property = Ok st1 /\ vertices st1 = vertices st)
    as (st1 & E1 & V1).
  { unfold doProcessEdge. rewrite Hfrom, Hto.
    destruct label; eexists; split; reflexivity. }
  unfold doProcessEdge in E1. rewrite Hfrom, Hto in E1. rewrite E1. simpl.
  destruct (IH st1 label outV property Hne') as (id & E & Hid & Hn).
  { right. exists j. rewrite V1. done. }
  exists id. rewrite V1 in Hn. split; [done|]. split; [|done].
  destruct Hid; [auto|right; set_solver].
Qed.

Lemma doProcessEdge_indices (st st' : JsonStore) label outV inV property :
  doProcessEdge st label outV inV property = Ok st' ->
  indices st' = indices st /\ console st' = console st.
Proof.
  unfold doProcessEdge. intros H.
  repeat case_match; simplify_eq; split; reflexivity.
Qed.

Lemma doProcessEdges_indices inVs : forall (st st' : JsonStore) label outV property,
  doProcessEdges st label outV inVs property = Ok st' ->
  indices st' = indices st /\ console st' = console st.
Proof.
  induction inVs as [|i inVs IH]; simpl; intros st st' label outV property H.
  - by simplify_eq.
  - apply bind_Ok in H as (st1 & H1 & H2).
    apply doProcessEdge_indices in H1 as [<- <-]. eauto.
Qed.

Lemma processEdge_indices (st st' : JsonStore) (e : Edge.t) :
  processEdge st e = Ok st' -> indices st' = indices st.
Proof.
  unfold processEdge. intros H.
  destruct (Edge.inV e); [eapply doProcessEdge_indices; eauto|].
  destruct (Edge.inVs e); [eapply doProcessEdges_indices; eauto|].
  by simplify_eq.
Qed.

(** What [doProcessDocument] does to the bucket of the document's URI. *)
Lemma doProcessDocument_bucket (st : JsonStore) (document : Vertex.t) uri contents :
  let hash := md5_base64 (default "No content provided." contents) in
  let value := default {| Bucket.hash := hash; Bucket.documents := [] |}
                 (Indices.documents (indices st) !! uri) in
  Indices.documents (indices (doProcessDocument st document uri contents))
  = <[uri := {| Bucket.hash := Bucket.hash value;
                Bucket.documents := Bucket.documents value ++ [document] |}]>
      (Indices.documents (indices st)).
Proof.
  unfold doProcessDocument; simpl.
  destruct (Indices.documents (indices st) !! uri); simpl;
    case_decide; reflexivity.
Qed.

Lemma processVertex_buckets (st st' : JsonStore) (v : Vertex.t) :
  (forall uri b, Indices.documents (indices st) !! uri = Some b -> bucket_ok uri b) ->
  processVertex st v = Ok st' ->
  forall uri b, Indices.documents (indices st') !! uri = Some b -> bucket_ok uri b.
Proof.
  intros Hinv H uri b. unfold processVertex in H.
  destruct (Vertex.body (with_key v)) eqn:Hb;
    repeat case_match; simplify_eq; try (apply Hinv).
  rewrite doProcessDocument_bucket. simpl.
  rewrite lookup_insert. case_decide as Hu; [subst|apply Hinv].
  intros Hl; simplify_eq.
  destruct (Indices.documents (indices st) !! uri) as [b0|] eqn:Hl0; simpl.
  - destruct (Hinv _ _ Hl0) as (first & rest & c & Hd & Hbody & Hh).
    exists first, (rest ++ [with_key v]), c. simpl. rewrite Hd. auto.
  - exists (with_key v), [], contents. simpl. auto.
Qed.

Lemma onLines_buckets (lines : list Line) : forall (st st' : JsonStore),
  (forall uri b, Indices.documents (indices st) !! uri = Some b -> bucket_ok uri b) ->
  onLines st lines = Ok st' ->
  forall uri b, Indices.documents (indices st') !! uri = Some b -> bucket_ok uri b.
Proof.
  induction lines as [|l lines IH]; intros st st' Hinv H; simpl in H.
  - by simplify_eq.
  - apply bind_Ok in H as (st1 & H1 & H2). eapply IH; [|exact H2].
    unfold onLine in H1. case_decide; [by simplify_eq|].
    destruct (JSON_parse l) as [[| |v|e]|]; simplify_eq.
    + done.
    + eapply processVertex_buckets; eauto.
    + rewrite (processEdge_indices _ _ _ H1). done.
Qed.

Lemma load_Ok (lines : list Line) (st : JsonStore) :
  load lines = Ok st -> onLines new_JsonStore lines = Ok st.
Proof.
  unfold load. intros H. apply bind_Ok in H as (st1 & H1 & H2).
  apply bind_Ok in H2 as (u & _ & H3). by simplify_eq.
Qed.

(** In a loaded store every bucket has a first document. *)
Lemma loaded_bucket (lines : list Line) (st : JsonStore) (uri : string)
    (value : Bucket.t) :
  load lines = Ok st ->
  Indices.documents (indices st) !! uri = Some value ->
  bucket_ok uri value.
Proof.
  intros H. apply load_Ok in H. revert uri value.
  eapply onLines_buckets; [|exact H].
  intros u b Hu. cbn in Hu. by rewrite lookup_empty in Hu.
Qed.

Lemma load_app_Throw (before more : list Line) (st : JsonStore) (l : Line) (e : Error) :
  onLines new_JsonStore before = Ok st ->
  onLine st l = Throw e ->
  load (before ++ l :: more) = Throw e.
Proof.
  intros Hb Hl. unfold load. rewrite onLines_app, Hb. simpl. rewrite Hl. reflexivity.
Qed.

Lemma load_app_skip (before more : list Line) (st : JsonStore) (l : Line) :
  onLines new_JsonStore before = Ok st ->
  onLine st l = Ok st ->
  load (before ++ l :: more) = load (before ++ more).
Proof.
  intros Hb Hl. unfold load. rewrite !onLines_app, Hb. simpl. rewrite Hl. reflexivity.
Qed.

(** C10. [load] skips empty lines: a stream loads to the same outcome,
    store included, as the stream without its empty lines, and an empty
    line is accepted whatever [JSON.parse] would make of it. *)
Theorem load_skips_empty_lines (lines : list Line) :
  load (filter (fun l => text l <> "") lines) = load lines
  /\ forall st parsed, onLine st {| text := ""; JSON_parse := parsed |} = Ok st.
Proof.
  split; [|reflexivity].
  unfold load. f_equal.
  generalize new_JsonStore.
  induction lines as [|l lines IH]; intros st; [reflexivity|].
  rewrite filter_cons. case_decide as Ht; simpl.
  - destruct (onLine st l); simpl; auto.
  - assert (text l = "") as He by (by destruct (decide (text l = ""))).
    unfold onLine. rewrite decide_True by done. simpl. apply IH.
Qed.

(** C8, amended. When the lines before it are processed without error, a
    non-empty line that is not valid JSON makes [load] fail with the
    parse error of that line, and no store is returned; a non-empty line
    that parses to a record without the vertex/edge discriminator, or to
    any other value but [null], is skipped: the stream loads as it does
    without that line; the line [null] makes [load] fail with the type
    error of reading [type] off it, and no store is returned. *)
Theorem load_malformed_line (before more : list Line) (st : JsonStore) (l : Line) :
  onLines new_JsonStore before = Ok st ->
  text l <> "" ->
  (JSON_parse l = None -> load (before ++ l :: more) = Throw (SyntaxError (text l)))
  /\ (JSON_parse l = Some JOther ->
      onLine st l = Ok st /\ load (before ++ l :: more) = load (before ++ more))
  /\ (JSON_parse l = Some JNull ->
      load (before ++ l :: more) = Throw (TypeError "type")).
Proof.
  intros Hb Ht. split; [|split]; intros Hp.
  - eapply load_app_Throw; [exact Hb|].
    unfold onLine. rewrite decide_False by done. rewrite Hp. reflexivity.
  - assert (onLine st l = Ok st) as Hl.
    { unfold onLine. rewrite decide_False by done. rewrite Hp. reflexivity. }
    split; [exact Hl|]. eapply load_app_skip; eauto.
  - eapply load_app_Throw; [exact Hb|].
    unfold onLine. rewrite decide_False by done. rewrite Hp. reflexivity.
Qed.

(** C6, amended. When the lines before it are processed without error, an
    edge record that has at least one target ([inV], or a non-empty
    [inVs]) and one of whose endpoints is not the id of a vertex ingested
    on an earlier line makes [load] fail with the error naming a missing
    endpoint, and no store is returned. *)
Theorem load_dangling_edge (before more : list Line) (st : JsonStore) (l : Line)
    (e : Edge.t) :
  onLines new_JsonStore before = Ok st ->
  text l <> "" ->
  JSON_parse l = Some (JEdge e) ->
  edge_targets e <> [] ->
  (exists k, (k = Edge.outV e \/ k ∈ edge_targets e) /\ k ∉ ingested_ids before) ->
  exists id,
    load (before ++ l :: more) = Throw (NoVertexFound id)
    /\ (id = Edge.outV e \/ id ∈ edge_targets e)
    /\ (id ∉ ingested_ids before)
    /\ message (NoVertexFound id) = ("No vertex found for Id " +:+ Id_to_string id).
Proof.
  intros Hb Ht Hp Hne (k & Hk & Hmiss).
  apply (onLines_new_all before st k Hb) in Hmiss.
  assert (exists id, processEdge st e = Throw (NoVertexFound id)
                     /\ (id = Edge.outV e \/ id ∈ edge_targets e)
                     /\ Vertices.all (vertices st) !! id = None)
    as (id & He & Hid & Hnone).
  { unfold processEdge, edge_targets in *.
    destruct (Edge.inV e) as [inV|].
    - destruct (doProcessEdges_dangling [inV] st (Edge.label e) (Edge.outV e)
                  (match Edge.label e with
                   | EdgeLabels.item => Edge.property e | _ => None end))
        as (id & E & Hid & Hn); [done| |].
      + destruct Hk as [->|Hk]; [left; done|right; eauto].
      + exists id. simpl in E.
        destruct (doProcessEdge st (Edge.label e) (Edge.outV e) inV _);
          simpl in E; try discriminate; auto.
    - destruct (Edge.inVs e) as [inVs|]; simpl in *; [|done].
      apply doProcessEdges_dangling; [done|].
      destruct Hk as [->|Hk]; [left; done|right; eauto]. }
  exists id. split; [|split; [done|split; [|reflexivity]]].
  - eapply load_app_Throw; [exact Hb|].
    unfold onLine. rewrite decide_False by done. rewrite Hp. exact He.
  - by apply (onLines_new_all before st id Hb).
Qed.

(** C7. A document vertex whose URI is already registered and whose text
    digests differently from the bucket does not make [load] fail: the
    line is processed and ingestion goes on from the new store; the
    bucket keeps its hash, which is the digest of its first document, so
    [findFile] and [fileContent] answer for that URI as before, with the
    id and hash of the first document; the new vertex is appended to the
    bucket and registered under its own id; a line is written to the
    error console. *)
Theorem divergent_document_not_fatal (before more : list Line) (st : JsonStore)
    (l : Line) (document : Vertex.t) (uri : string) (contents : option string)
    (bucket : Bucket.t) :
  onLines new_JsonStore before = Ok st ->
  text l <> "" ->
  JSON_parse l = Some (JVertex document) ->
  Vertex.body document = Vertex.document uri contents ->
  Indices.documents (indices st) !! uri = Some bucket ->
  md5_base64 (default "No content provided." contents) <> Bucket.hash bucket ->
  exists st' first rest first_contents,
    onLine st l = Ok st'
    /\ onLines new_JsonStore (before ++ l :: more) = onLines st' more
    /\ Bucket.documents bucket = first :: rest
    /\ Vertex.body first = Vertex.document uri first_contents
    /\ Bucket.hash bucket = md5_base64 (default "No content provided." first_contents)
    /\ Indices.documents (indices st') !! uri
       = Some {| Bucket.hash := Bucket.hash bucket;
                 Bucket.documents := first :: rest ++ [document] |}
    /\ findFile st uri = Ok (Some (Vertex.id first, Bucket.hash bucket))
    /\ findFile st' uri = Ok (Some (Vertex.id first, Bucket.hash bucket))
    /\ fileContent st' (Vertex.id first, Bucket.hash bucket)
       = fileContent st (Vertex.id first, Bucket.hash bucket)
    /\ Vertices.documents (vertices st') !! Vertex.id document = Some document
    /\ Vertices.all (vertices st') !! Vertex.id document = Some document
    /\ console st' = console st ++ ["Document " +:+ uri +:+ " has different content."].
Proof.
  intros Hb Ht Hp Hbody Hl Hneq.
  assert (forall u b, Indices.documents (indices new_JsonStore) !! u = Some b ->
                      bucket_ok u b) as Hnew0
    by (intros u b Hu; cbn in Hu; by rewrite lookup_empty in Hu).
  destruct (onLines_buckets before _ _ Hnew0 Hb _ _ Hl)
    as (first & rest & c & Hd & Hfirst & Hh).
  assert (with_key document = document) as Hwk
    by (unfold with_key; rewrite Hbody; reflexivity).
  eexists _, first, rest, c.
  split.
  { unfold onLine. rewrite decide_False by done. rewrite Hp.
    unfold processVertex. rewrite Hwk, Hbody. reflexivity. }
  split.
  { rewrite onLines_app, Hb. simpl. unfold onLine at 1.
    rewrite decide_False by done. rewrite Hp.
    unfold processVertex. rewrite Hwk, Hbody. reflexivity. }
  do 3 (split; [done|]).
  assert (Indices.documents
            (indices (doProcessDocument
               (set_vertices (Vertices_set_all (Vertex.id document) document) st)
               document uri contents)) !! uri
          = Some {| Bucket.hash := Bucket.hash bucket;
                    Bucket.documents := first :: rest ++ [document] |}) as Hnew.
  { rewrite doProcessDocument_bucket. simpl. rewrite lookup_insert_eq, Hl. simpl.
    by rewrite Hd. }
  split; [exact Hnew|].
  split; [unfold findFile, first_document_id; rewrite Hl, Hd; reflexivity|].
  split; [unfold findFile, first_document_id; rewrite Hnew; reflexivity|].
  unfold doProcessDocument, fileContent; simpl. rewrite Hl.
  rewrite decide_False by done. simpl.
  split; [by rewrite lookup_insert_ne|].
  split; [by rewrite lookup_insert_eq|].
  split; [by rewrite lookup_insert_eq|reflexivity].
Qed.

(** ** The version gate *)

Lemma onClose_cases (st : JsonStore) (root ver : string) :
  projectRoot st = Some root ->
  version st = Some ver ->
  onClose st
  = match SemVer.parse ver with
    | None => Throw (NoValidSemVer ver)
    | Some semVer =>
        if SemVer.satisfies semVer (supported_range true) then Ok tt
        else Throw (RequiresVersion ver)
    end.
Proof. intros Hr Hv. unfold onClose. rewrite Hr, Hv. reflexivity. Qed.

Lemma satisfies_supported_range (v : SemVer.t) :
  SemVer.satisfies v (supported_range true) = true
  <-> SemVer.compare v v0_4_99 = Gt /\ SemVer.compare v v0_5_0_next_2 <> Gt
      /\ (SemVer.prerelease v = [] \/ SemVer.same_tuple v0_5_0_next_2 v = true).
Proof.
  unfold SemVer.satisfies, supported_range, SemVer.Range_of, SemVer.Range_test,
    SemVer.test, SemVer.lte, SemVer.gt; simpl.
  destruct (SemVer.compare v v0_4_99), (SemVer.compare v v0_5_0_next_2);
    simpl; try (split; [discriminate|intros (? & ? & ?); congruence]);
    destruct (SemVer.prerelease v); simpl; rewrite ?orb_false_r;
    try (split; [intros _; split; [done|]; split; [done|by left]|done]);
    destruct (SemVer.same_tuple v0_5_0_next_2 v);
    try (split; [intros _; split; [done|]; split; [done|by right]|done]);
    (split; [discriminate|intros (_ & _ & [?|?]); discriminate]).
Qed.

(** C4, amended. With a project root present, the gate of [load] resolves
    only for versions that parse as semantic versions and lie above 0.4.99
    and not above 0.5.0-next.2 in semantic-version precedence, and it
    resolves for every such version that has no pre-release tag or is a
    pre-release of 0.5.0; every version it does not resolve for is
    rejected by an error that carries the version. So 0.4.5 and 0.4.99 are
    rejected, 0.4.100 and 0.5.0-next.2 are accepted, 0.5.0-next.3 is
    rejected, and 0.5.0, which follows its own pre-releases, is
    rejected. *)
Theorem version_gate (st : JsonStore) (root ver : string) :
  projectRoot st = Some root ->
  version st = Some ver ->
  (onClose st = Ok tt ->
   exists v, SemVer.parse ver = Some v
             /\ SemVer.compare v v0_4_99 = Gt
             /\ SemVer.compare v v0_5_0_next_2 <> Gt)
  /\ (forall v, SemVer.parse ver = Some v ->
        SemVer.prerelease v = [] \/ SemVer.same_tuple v0_5_0_next_2 v = true ->
        SemVer.compare v v0_4_99 = Gt ->
        SemVer.compare v v0_5_0_next_2 <> Gt ->
        onClose st = Ok tt)
  /\ (SemVer.parse ver = None -> onClose st = Throw (NoValidSemVer ver))
  /\ (onClose st = Ok tt
      \/ onClose st = Throw (NoValidSemVer ver)
      \/ onClose st = Throw (RequiresVersion ver))
  /\ message (RequiresVersion ver)
     = ("Requires version 0.5.0 or higher but received: " +:+ ver)
  /\ (ver = "0.4.5" -> onClose st = Throw (RequiresVersion "0.4.5"))
  /\ (ver = "0.4.99" -> onClose st = Throw (RequiresVersion "0.4.99"))
  /\ (ver = "0.4.100" -> onClose st = Ok tt)
  /\ (ver = "0.5.0" -> onClose st = Throw (RequiresVersion "0.5.0"))
  /\ (ver = "0.5.0-next.2" -> onClose st = Ok tt)
  /\ (ver = "0.5.0-next.3" -> onClose st = Throw (RequiresVersion "0.5.0-next.3")).
Proof.
  intros Hr Hv. rewrite (onClose_cases st root ver Hr Hv).
  split; [|split; [|split; [|split; [|split; [reflexivity|]]]]].
  - destruct (SemVer.parse ver) as [v|] eqn:Hp; [|discriminate].
    pose proof (satisfies_supported_range v) as Hs.
    destruct (SemVer.satisfies v (supported_range true)); [|discriminate].
    intros _. exists v. destruct (proj1 Hs eq_refl) as (? & ? & _). auto.
  - intros v Hp Hpre Hlow Hup. rewrite Hp.
    by rewrite (proj2 (satisfies_supported_range v)).
  - by intros ->.
  - destruct (SemVer.parse ver) as [v|]; [|auto].
    destruct (SemVer.satisfies v (supported_range true)); auto.
  - repeat split; intros ->; vm_compute; reflexivity.
Qed.

(** ** Position lookup *)

Lemma containsPosition_iff (range : Range) (position : Position) :
  containsPosition range position = true <-> position_in_range range position.
Proof.
  unfold containsPosition, position_in_range.
  repeat match goal with
         | |- context [Z.ltb ?a ?b] => destruct (Z.ltb_spec a b)
         | |- context [Z.gtb ?a ?b] => rewrite (Z.gtb_ltb a b)
         | |- context [Z.eqb ?a ?b] => destruct (Z.eqb_spec a b)
         end; simpl; split; try discriminate; intros; try reflexivity; lia.
Qed.

Lemma containsRange_iff (outer inner : Range) :
  (line (start inner) <= line (end_ inner))%Z ->
  containsRange outer inner = true <-> range_within outer inner.
Proof.
  intros Hwf. unfold containsRange, range_within, Position_le.
  repeat match goal with
         | |- context [Z.ltb ?a ?b] => destruct (Z.ltb_spec a b)
         | |- context [Z.gtb ?a ?b] => rewrite (Z.gtb_ltb a b)
         | |- context [Z.eqb ?a ?b] => destruct (Z.eqb_spec a b)
         end; simpl; split; try discriminate; intros; try reflexivity; lia.
Qed.

Lemma findRange_step_candidate (position : Position) (candidate : option Vertex.t)
    (item : Vertex.t) :
  findRange_step position candidate item
  = if is_candidate position item then
      match candidate with
      | None => Some item
      | Some c => if nests_inside c item then Some item else candidate
      end
    else candidate.
Proof.
  unfold findRange_step, is_candidate, nests_inside, Vertex.span.
  destruct (Vertex.body item); try reflexivity.
  destruct (containsPosition span position); [|reflexivity].
  destruct candidate as [c|]; [|reflexivity].
  destruct (Vertex.body c); reflexivity.
Qed.

Lemma fold_findRange_refine (position : Position) (contains : list Vertex.t) :
  forall c, fold_left (findRange_step position) contains (Some c)
            = Some (refine c (candidates position contains)).
Proof.
  induction contains as [|item contains IH]; intros c; simpl; [reflexivity|].
  rewrite findRange_step_candidate.
  destruct (is_candidate position item); simpl; [|apply IH].
  destruct (nests_inside c item); apply IH.
Qed.

Lemma fold_findRange_most_specific (position : Position) (contains : list Vertex.t) :
  fold_left (findRange_step position) contains None
  = most_specific (candidates position contains).
Proof.
  induction contains as [|item contains IH]; simpl; [reflexivity|].
  rewrite findRange_step_candidate.
  destruct (is_candidate position item); simpl; [|apply IH].
  apply fold_findRange_refine.
Qed.

(** C5. In a loaded store, [findRangeFromPosition] looks only at what the
    canonical document of the URI directly contains, keeps the range
    vertices whose span contains the position, and returns the most
    specific of them: a later match replaces the current one exactly when
    it nests inside it. With R1 on lines 0-10 and R2 on lines 2-4 contained
    in the document, in either order, the query at (3, 0) returns R2. *)
Theorem findRangeFromPosition_most_specific (lines : list Line) (st : JsonStore)
    (file : string) (position : Position) :
  load lines = Ok st ->
  (forall range, containsPosition range position = true
                 <-> position_in_range range position)
  /\ (forall outer inner, (line (start inner) <= line (end_ inner))%Z ->
        containsRange outer inner = true <-> range_within outer inner)
  /\ (Indices.documents (indices st) !! file = None ->
      findRangeFromPosition st file position = Ok None)
  /\ (forall value,
        Indices.documents (indices st) !! file = Some value ->
        exists document,
          canonical_document st file = Some document
          /\ findRangeFromPosition st file position
             = Ok (most_specific
                     (candidates position
                        (default [] (Out.contains (out st) !! Vertex.id document))))
          /\ forall id1 id2 c1 c2 c3 c4 tag1 tag2 contains,
               let R1 := {| Vertex.id := id1;
                            Vertex.body := Vertex.range (Sample.span 0 c1 10 c2) tag1 |} in
               let R2 := {| Vertex.id := id2;
                            Vertex.body := Vertex.range (Sample.span 2 c3 4 c4) tag2 |} in
               Out.contains (out st) !! Vertex.id document = Some contains ->
               contains = [R1; R2] \/ contains = [R2; R1] ->
               position = {| line := 3; character := 0 |} ->
               findRangeFromPosition st file position = Ok (Some R2)).
Proof.
  intros Hload.
  split; [intros; apply containsPosition_iff|].
  split; [intros; by apply containsRange_iff|].
  split; [intros H; unfold findRangeFromPosition; rewrite H; reflexivity|].
  intros value Hv.
  destruct (loaded_bucket lines st file value Hload Hv)
    as (document & rest & c & Hd & _ & _).
  exists document.
  split; [unfold canonical_document; rewrite Hv; simpl; by rewrite Hd|].
  assert (forall contains,
            Out.contains (out st) !! Vertex.id document = contains ->
            findRangeFromPosition st file position
            = Ok (most_specific (candidates position (default [] contains)))) as Hspec.
  { intros contains Hc. unfold findRangeFromPosition, first_document_id.
    rewrite Hv, Hd. simpl. rewrite Hc.
    destruct contains as [[|item contains]|]; try reflexivity.
    f_equal. apply fold_findRange_most_specific. }
  split; [by apply Hspec|].
  intros id1 id2 c1 c2 c3 c4 tag1 tag2 contains R1 R2 Hc Hl ->.
  rewrite (Hspec _ Hc). destruct Hl as [-> | ->]; reflexivity.
Qed.

(** ** Document symbols *)

Lemma canonical_document_Some (st : JsonStore) (uri : string) (document : Vertex.t) :
  canonical_document st uri = Some document ->
  exists value rest,
    Indices.documents (indices st) !! uri = Some value
    /\ Bucket.documents value = document :: rest.
Proof.
  unfold canonical_document.
  destruct (Indices.documents (indices st) !! uri) as [value|]; [|discriminate].
  simpl. destruct (Bucket.documents value) as [|d rest] eqn:Hd; [discriminate|].
  simpl. intros H; simplify_eq. eauto.
Qed.

(** C9. When the canonical document of the URI has a document symbol
    result attached whose result list is empty, [documentSymbols] returns
    not-found ([undefined]) and no sequence; whenever it returns a
    sequence, the result attached to the canonical document lists at least
    one entry. *)
Theorem documentSymbols_empty_result (st : JsonStore) (uri : string) :
  (forall document result entries,
     canonical_document st (toDatabase uri) = Some document ->
     Out.documentSymbol (out st) !! Vertex.id document = Some result ->
     Vertex.body result = Vertex.documentSymbolResult entries ->
     entries_length entries = 0%nat ->
     documentSymbols st uri = Ok None)
  /\ (forall symbols,
        documentSymbols st uri = Ok (Some symbols) ->
        exists document result entries,
          canonical_document st (toDatabase uri) = Some document
          /\ Out.documentSymbol (out st) !! Vertex.id document = Some result
          /\ Vertex.body result = Vertex.documentSymbolResult entries
          /\ (0 < entries_length entries)%nat).
Proof.
  split.
  - intros document result entries Hc Hr Hb He.
    apply canonical_document_Some in Hc as (value & rest & Hv & Hd).
    unfold documentSymbols, first_document_id. rewrite Hv, Hd. simpl.
    rewrite Hr, Hb.
    destruct entries as [[|? ?]|[|? ?]]; simpl in He;
      try discriminate; reflexivity.
  - intros symbols H. unfold documentSymbols, first_document_id in H.
    unfold canonical_document.
    destruct (Indices.documents (indices st) !! toDatabase uri) as [value|] eqn:Hv;
      [|discriminate].
    destruct (Bucket.documents value) as [|document rest] eqn:Hd; [discriminate|].
    simpl in H.
    destruct (Out.documentSymbol (out st) !! Vertex.id document) as [result|] eqn:Hr;
      [|discriminate].
    destruct (Vertex.body result) as [| | | | | | | |entries|[|? ?]|[|? ?]|[|? ?]| | | | | | |]
      eqn:Hb; try discriminate.
    exists document, result, entries. simpl. rewrite Hd.
    do 3 (split; [done|]).
    destruct entries as [[|? ?]|[|? ?]]; simpl; try discriminate; lia.
Qed.

(** ** Chain walks *)

Lemma getResultForId_loop_stuck (st : JsonStore) (id : Id) (edges : gmap Id Vertex.t)
    (next : Vertex.t) :
  Out.next (out st) !! id = Some next ->
  edges !! Vertex.id next = None ->
  forall fuel, getResultForId_loop fuel st id (Vertex.id next) edges = OutOfFuel.
Proof.
  intros Hn He fuel. induction fuel as [|fuel IH]; simpl; [reflexivity|].
  rewrite He, Hn. exact IH.
Qed.

(** The walk never returns when neither the starting vertex nor the target
    of its [next] edge carries the result. *)
Lemma getResultForId_stuck (st : JsonStore) (id : Id) (edges : gmap Id Vertex.t)
    (next : Vertex.t) :
  edges !! id = None ->
  Out.next (out st) !! id = Some next ->
  edges !! Vertex.id next = None ->
  forall fuel, getResultForId fuel st id edges = OutOfFuel.
Proof.
  intros H0 Hn He [|fuel]; [reflexivity|].
  unfold getResultForId; simpl. rewrite H0, Hn.
  by apply getResultForId_loop_stuck.
Qed.

(** What the walk returns when it does: the result sits on the starting
    vertex or on the target of its [next] edge. *)
Lemma getResultForId_Ok (fuel : nat) (st : JsonStore) (id : Id)
    (edges : gmap Id Vertex.t) (result : option Vertex.t) (anchorId : Id) :
  getResultForId fuel st id edges = Ok (result, anchorId) ->
  match result with
  | Some r =>
      edges !! anchorId = Some r
      /\ (anchorId = id
          \/ exists next, edges !! id = None /\ Out.next (out st) !! id = Some next
                          /\ anchorId = Vertex.id next)
  | None => anchorId = id /\ edges !! id = None /\ Out.next (out st) !! id = None
  end.
Proof.
  destruct fuel as [|fuel]; [discriminate|].
  unfold getResultForId; simpl.
  destruct (edges !! id) as [r|] eqn:H0.
  { intros H; simplify_eq. auto. }
  destruct (Out.next (out st) !! id) as [next|] eqn:Hn.
  2:{ intros H; simplify_eq. auto. }
  destruct (edges !! Vertex.id next) as [r|] eqn:He.
  - destruct fuel as [|fuel]; [discriminate|]. simpl. rewrite He.
    intros H; simplify_eq. split; [done|]. right. eauto.
  - by rewrite (getResultForId_loop_stuck st id edges next Hn He).
Qed.

Lemma getResultForId_here (fuel : nat) (st : JsonStore) (id : Id)
    (edges : gmap Id Vertex.t) (r : Vertex.t) :
  edges !! id = Some r ->
  getResultForId (S fuel) st id edges = Ok (Some r, id).
Proof. intros H. unfold getResultForId; simpl. by rewrite H. Qed.

Lemma getResultForId_next (fuel : nat) (st : JsonStore) (id : Id)
    (edges : gmap Id Vertex.t) (next r : Vertex.t) :
  edges !! id = None ->
  Out.next (out st) !! id = Some next ->
  edges !! Vertex.id next = Some r ->
  getResultForId (S (S fuel)) st id edges = Ok (Some r, Vertex.id next).
Proof. intros H0 Hn He. unfold getResultForId; simpl. by rewrite H0, Hn, He. Qed.

Lemma findMonikers_loop_stuck (st : JsonStore) (id : Id) (result : list Vertex.t)
    (previous : Vertex.t) :
  In.previous (in_ st) !! id = Some previous ->
  Out.moniker (out st) !! Vertex.id previous = None ->
  forall fuel, findMonikers_loop fuel st result id (Vertex.id previous) = OutOfFuel.
Proof.
  intros Hp Hm fuel. induction fuel as [|fuel IH]; simpl; [reflexivity|].
  rewrite Hm, Hp. exact IH.
Qed.

Lemma findMonikers_stuck (st : JsonStore) (id : Id) (result : list Vertex.t)
    (previous : Vertex.t) :
  Out.moniker (out st) !! id = None ->
  In.previous (in_ st) !! id = Some previous ->
  Out.moniker (out st) !! Vertex.id previous = None ->
  forall fuel, findMonikers fuel st result id = OutOfFuel.
Proof.
  intros H0 Hp Hm [|fuel]; [reflexivity|].
  unfold findMonikers; simpl. rewrite H0, Hp.
  by apply findMonikers_loop_stuck.
Qed.

Lemma findMonikers_Ok (fuel : nat) (st : JsonStore) (id : Id)
    (result result' : list Vertex.t) :
  findMonikers fuel st result id = Ok result' ->
  (exists moniker anchor,
      result' = result ++ [moniker] /\ Out.moniker (out st) !! anchor = Some moniker)
  \/ result' = result.
Proof.
  destruct fuel as [|fuel]; [discriminate|].
  unfold findMonikers; simpl.
  destruct (Out.moniker (out st) !! id) as [m|] eqn:H0.
  { intros H; simplify_eq. left; eauto. }
  destruct (In.previous (in_ st) !! id) as [previous|] eqn:Hp.
  2:{ intros H; simplify_eq. auto. }
  destruct (Out.moniker (out st) !! Vertex.id previous) as [m|] eqn:Hm.
  - destruct fuel as [|fuel]; [discriminate|]. simpl. rewrite Hm.
    intros H; simplify_eq. left; eauto.
  - by rewrite (findMonikers_loop_stuck st id result previous Hp Hm).
Qed.

(** C2, amended. The walks carry no guard against cycles and are not
    bounded by the size of the graph. [getResultForId] terminates, with
    the same result for every bound of two turns or more, whenever the
    result is attached to the starting vertex, or the starting vertex has
    no [next] edge, or the result is attached to the target of that edge;
    [findMonikers] terminates likewise whenever a moniker is attached to
    the starting vertex, or the starting vertex has no [previous] edge, or
    a moniker is attached to the source of that edge. *)
Theorem chain_walks_terminate (st : JsonStore) (id : Id) (edges : gmap Id Vertex.t)
    (result : list Vertex.t) :
  (is_Some (edges !! id)
   \/ Out.next (out st) !! id = None
   \/ (exists next, Out.next (out st) !! id = Some next
                    /\ is_Some (edges !! Vertex.id next)) ->
   exists r, forall fuel, (2 <= fuel)%nat -> getResultForId fuel st id edges = Ok r)
  /\ (is_Some (Out.moniker (out st) !! id)
      \/ In.previous (in_ st) !! id = None
      \/ (exists previous, In.previous (in_ st) !! id = Some previous
                           /\ is_Some (Out.moniker (out st) !! Vertex.id previous)) ->
      exists r, forall fuel, (2 <= fuel)%nat -> findMonikers fuel st result id = Ok r).
Proof.
  split.
  - intros H. destruct (edges !! id) as [r|] eqn:H0.
    { exists (Some r, id). intros [|fuel] Hf; [lia|]. by apply getResultForId_here. }
    destruct (Out.next (out st) !! id) as [next|] eqn:Hn.
    2:{ exists (None, id). intros [|fuel] Hf; [lia|].
        unfold getResultForId; simpl. by rewrite H0, Hn. }
    destruct H as [[? H]|[H|(next' & Hn' & [r Hr])]]; try discriminate.
    assert (next' = next) as -> by congruence.
    exists (Some r, Vertex.id next).
    intros [|[|fuel]] Hf; try lia. by apply getResultForId_next.
  - intros H. unfold findMonikers.
    destruct (Out.moniker (out st) !! id) as [m|] eqn:H0.
    { exists (result ++ [m]). intros [|fuel] Hf; [lia|]. simpl. by rewrite H0. }
    destruct (In.previous (in_ st) !! id) as [previous|] eqn:Hp.
    2:{ exists result. intros [|fuel] Hf; [lia|]. simpl. by rewrite H0, Hp. }
    destruct H as [[? H]|[H|(previous' & Hp' & [m Hm])]]; try discriminate.
    assert (previous' = previous) as -> by congruence.
    exists (result ++ [m]).
    intros [|[|fuel]] Hf; try lia. simpl. by rewrite H0, Hp, Hm.
Qed.

(** ** Reference expansion *)

Lemma grows_refl (st : JsonStore) (includeDeclaration : bool) (a : Expansion) :
  grows st includeDeclaration a a.
Proof. unfold grows. split; [done|]. split; [done|]. split; auto. Qed.

Lemma grows_trans (st : JsonStore) (includeDeclaration : bool) (a b c : Expansion) :
  grows st includeDeclaration a b -> grows st includeDeclaration b c ->
  grows st includeDeclaration a c.
Proof.
  intros (S1 & P1 & L1 & D1) (S2 & P2 & L2 & D2). unfold grows.
  split; [by etrans|]. split; [by etrans|]. split; [|auto].
  intros x Hx. destruct (L2 x Hx) as [Hb|]; auto.
Qed.

Lemma for_of_grows {A : Type} (st : JsonStore) (includeDeclaration : bool)
    (body : Expansion -> A -> outcome Expansion) (l : list A) :
  (forall s x s', x ∈ l -> body s x = Ok s' -> grows st includeDeclaration s s') ->
  forall s s', for_of body l s = Ok s' -> grows st includeDeclaration s s'.
Proof.
  induction l as [|x l IH]; intros Hbody s s' H; simpl in H.
  - simplify_eq. apply grows_refl.
  - apply bind_Ok in H as (s1 & H1 & H2).
    eapply grows_trans; [eapply Hbody; [apply list_elem_of_here|exact H1]|].
    eapply IH; [|exact H2]. intros ? ? ? ?; apply Hbody. by apply list_elem_of_further.
Qed.

(** A turn of a loop on an element of the array: the state it starts from
    and the state it leaves. *)
Lemma for_of_elem {A : Type} (st : JsonStore) (includeDeclaration : bool)
    (body : Expansion -> A -> outcome Expansion) (l : list A) (x : A) :
  (forall s y s', y ∈ l -> body s y = Ok s' -> grows st includeDeclaration s s') ->
  x ∈ l ->
  forall s s', for_of body l s = Ok s' ->
  exists s1 s2, grows st includeDeclaration s s1 /\ body s1 x = Ok s2
                /\ grows st includeDeclaration s2 s'.
Proof.
  induction l as [|y l IH]; intros Hbody Hx s s' H; [by apply elem_of_nil in Hx|].
  simpl in H. apply bind_Ok in H as (s1 & H1 & H2).
  apply elem_of_cons in Hx as [->|Hx].
  - exists s, s1. split; [apply grows_refl|]. split; [exact H1|].
    eapply for_of_grows; [|exact H2].
    intros ? ? ? ?; apply Hbody. by apply list_elem_of_further.
  - destruct (IH ltac:(intros ? ? ? ?; apply Hbody; by apply list_elem_of_further)
                Hx s1 s' H2) as (t1 & t2 & G1 & Hb & G2).
    exists t1, t2. split; [|done].
    eapply grows_trans; [|exact G1]. eapply Hbody; [apply list_elem_of_here|exact H1].
Qed.

Lemma addLocation_Ok (st : JsonStore) (locations locations' : list Location)
    (value : Vertex.t) (dedup dedup' : list Id) :
  addLocation st locations value dedup = Ok (locations', dedup') ->
  (Vertex.id value ∈ dedup /\ locations' = locations /\ dedup' = dedup)
  \/ ((Vertex.id value ∉ dedup)
      /\ exists location, location_of st value = Some location
                          /\ locations' = locations ++ [location]
                          /\ dedup' = dedup ++ [Vertex.id value]).
Proof.
  unfold addLocation, asRange.
  case_decide as Hin; [intros H; simplify_eq; auto|].
  destruct (In.contains (in_ st) !! Vertex.id value) as [document|] eqn:Hc;
    [|discriminate].
  destruct (Vertex.uri document) as [uri|] eqn:Hu; [|discriminate].
  destruct (Vertex.span value) as [span|] eqn:Hs; [|discriminate].
  simpl. intros H; simplify_eq. right. split; [done|].
  eexists. split; [|split; reflexivity].
  unfold location_of. rewrite Hc. simpl. rewrite Hu. simpl. rewrite Hs. reflexivity.
Qed.

Lemma addLocation_elem (st : JsonStore) (locations locations' : list Location)
    (value : Vertex.t) (dedup dedup' : list Id) :
  addLocation st locations value dedup = Ok (locations', dedup') ->
  Vertex.id value ∈ dedup'.
Proof.
  intros H. apply addLocation_Ok in H
    as [(Hin & -> & ->)|(Hnin & location & Hloc & -> & ->)]; [done|set_solver].
Qed.

Lemma addLocation_grows (st : JsonStore) (includeDeclaration : bool)
    (locations locations' : list Location)
    (value : Vertex.t) (dedup dedup' : list Id) (monikers : list Vertex.t) :
  contributed st includeDeclaration value ->
  addLocation st locations value dedup = Ok (locations', dedup') ->
  grows st includeDeclaration (locations, dedup, monikers) (locations', dedup', monikers).
Proof.
  intros Hc H. apply addLocation_Ok in H
    as [(Hin & -> & ->)|(Hnin & location & Hloc & -> & ->)].
  - apply grows_refl.
  - unfold grows; simpl.
    split; [set_solver|]. split; [done|]. split; [auto|].
    intros (ranges & -> & Hnd & Hall & Hcs).
    exists (ranges ++ [value]). rewrite fmap_app. simpl.
    split; [done|]. split; [|split].
    + apply NoDup_app. split; [done|]. split; [|apply NoDup_singleton].
      intros x Hx Hx'. apply list_elem_of_singleton in Hx'. by subst.
    + apply Forall2_app; [done|]. by constructor.
    + apply Forall_app. split; [done|]. by constructor.
Qed.

Lemma resolveTarget_grows (st : JsonStore) (includeDeclaration : bool)
    (recurse : Expansion -> Vertex.t -> outcome Expansion)
    (result : Vertex.t) (targets : list ItemTarget) :
  item st result = Some targets ->
  (forall a v a', recurse a v = Ok a' -> grows st includeDeclaration a a') ->
  forall a target a',
    target ∈ targets ->
    resolveTarget st includeDeclaration recurse a target = Ok a' ->
    grows st includeDeclaration a a'.
Proof.
  intros Hitem Hrec [[locations dedup] monikers] target a' Hin H.
  assert (forall range,
            contributed st includeDeclaration range ->
            (addLocation st locations range dedup ≫=
               fun '(locations, dedupRanges) => Ok (locations, dedupRanges, monikers))
            = Ok a' -> grows st includeDeclaration (locations, dedup, monikers) a')
    as Hadd.
  { intros range Hc Ha. apply bind_Ok in Ha as ([l' d'] & H1 & H2). simplify_eq.
    by eapply addLocation_grows. }
  destruct target as [to|type to]; simpl in H.
  { simplify_eq. apply grows_refl. }
  destruct type.
  - destruct includeDeclaration eqn:Hincl; [|simplify_eq; apply grows_refl].
    eapply Hadd; [|exact H]. exists result.
    by eapply contributes_declarations.
  - destruct includeDeclaration eqn:Hincl; [|simplify_eq; apply grows_refl].
    eapply Hadd; [|exact H]. exists result.
    by eapply contributes_definitions.
  - eapply Hadd; [|exact H]. exists result. by eapply contributes_references.
  - by eapply Hrec.
  - simplify_eq. unfold grows; simpl. split; [done|]. split; [by apply prefix_app_r|].
    split; [|auto]. intros x Hx. apply elem_of_app in Hx as [Hx|Hx]; [auto|].
    apply list_elem_of_singleton in Hx as ->. right.
    exists (Vertex.id result), targets. split; [|done].
    unfold item in Hitem. by destruct (Vertex.body result).
Qed.

Lemma resolveReferenceResult_grows (st : JsonStore) (includeDeclaration : bool)
    (fuel : nat) :
  forall a referenceResult a',
    resolveReferenceResult fuel st includeDeclaration a referenceResult = Ok a' ->
    grows st includeDeclaration a a'.
Proof.
  induction fuel as [|fuel IH]; intros a referenceResult a' H; [discriminate|].
  simpl in H. destruct (item st referenceResult) as [targets|] eqn:Hitem.
  - eapply for_of_grows; [|exact H]. intros s x s' Hx.
    eapply resolveTarget_grows; eauto.
  - simplify_eq. apply grows_refl.
Qed.

Lemma expandMatching_grows (st : JsonStore) (includeDeclaration : bool) (fuel : nat)
    (moniker : Vertex.t) (a : Expansion) (matchingMoniker : Vertex.t) (a' : Expansion) :
  expandMatching fuel st includeDeclaration moniker a matchingMoniker = Ok a' ->
  grows st includeDeclaration a a'.
Proof.
  unfold expandMatching. case_decide as Hid; [intros; simplify_eq; apply grows_refl|].
  destruct (findVertexForMoniker st matchingMoniker) as [vertex|];
    [|intros; simplify_eq; apply grows_refl].
  intros Hx. apply bind_Ok in Hx as ([[r|] anchor] & _ & Hr).
  - by eapply resolveReferenceResult_grows.
  - simplify_eq. apply grows_refl.
Qed.

Lemma monikerLoop_grows (st : JsonStore) (includeDeclaration : bool) (fuel : nat) :
  forall i dedupMonikers a a' dedupMonikers',
    monikerLoop fuel st includeDeclaration i dedupMonikers a = Ok (a', dedupMonikers') ->
    grows st includeDeclaration a a'.
Proof.
  induction fuel as [|fuel IH]; intros i dm a a' dm' H; [discriminate|].
  simpl in H. destruct (a.2 !! i) as [moniker|]; [|simplify_eq; apply grows_refl].
  case_decide; [by eapply IH|].
  destruct (match Vertex.key moniker with
            | Some key => Indices.monikers (indices st) !! key
            | None => None
            end) as [matching|]; [|by eapply IH].
  apply bind_Ok in H as (a1 & H1 & H2).
  eapply grows_trans; [|by eapply IH].
  eapply for_of_grows; [|exact H1]. intros ? ? ? _. apply expandMatching_grows.
Qed.

(** Every range a reference result contributes is in [dedupRanges] once
    the result has been expanded. *)
Lemma resolveReferenceResult_contributes (st : JsonStore) (includeDeclaration : bool)
    (result range : Vertex.t) :
  contributes st includeDeclaration result range ->
  forall fuel a a',
    resolveReferenceResult fuel st includeDeclaration a result = Ok a' ->
    Vertex.id range ∈ a'.1.2.
Proof.
  assert (forall result fuel targets a a' target,
            item st result = Some targets ->
            resolveReferenceResult (S fuel) st includeDeclaration a result = Ok a' ->
            target ∈ targets ->
            exists s1 s2,
              resolveTarget st includeDeclaration
                (resolveReferenceResult fuel st includeDeclaration) s1 target = Ok s2
              /\ grows st includeDeclaration s2 a') as Hturn.
  { clear result range.
    intros result fuel targets a a' target Hitem H Hin. simpl in H. rewrite Hitem in H.
    destruct (for_of_elem st includeDeclaration
                (resolveTarget st includeDeclaration
                   (resolveReferenceResult fuel st includeDeclaration))
                targets target) with (s := a) (s' := a')
      as (s1 & s2 & _ & Hb & G); [|done|done|by exists s1, s2].
    intros s y s' Hy. eapply resolveTarget_grows; eauto.
    intros ? ? ?. apply resolveReferenceResult_grows. }
  assert (forall (s1 s2 : Expansion) a' range,
            (let '(locations, dedupRanges, monikers) := s1 in
             addLocation st locations range dedupRanges ≫=
               fun '(locations, dedupRanges) => Ok (locations, dedupRanges, monikers))
            = Ok s2 ->
            grows st includeDeclaration s2 a' -> Vertex.id range ∈ a'.1.2) as Hadd.
  { clear result range. intros [[l d] m] s2 a' rg Hb G.
    apply bind_Ok in Hb as ([l' d'] & H1 & H2). simplify_eq.
    pose proof (addLocation_elem st _ _ _ _ _ H1) as Hin.
    destruct G as (Hsub & _). by apply Hsub. }
  induction 1 as [result targets range Hitem Hin
                 |result targets range Hitem Hincl Hin
                 |result targets range Hitem Hincl Hin
                 |result targets nested range Hitem Hin Hnested IH];
    intros [|fuel] a a' H; try discriminate;
    destruct (Hturn result fuel targets a a' _ Hitem H Hin) as (s1 & s2 & Hb & G).
  - destruct s1 as [[l d] m]. apply (Hadd (l, d, m) s2 a' range Hb G).
  - subst. destruct s1 as [[l d] m]. apply (Hadd (l, d, m) s2 a' range Hb G).
  - subst. destruct s1 as [[l d] m]. apply (Hadd (l, d, m) s2 a' range Hb G).
  - destruct s1 as [[? ?] ?]. simpl in Hb.
    destruct G as (Hsub & _). apply Hsub. by eapply IH.
Qed.

Lemma getResultForId_found (fuel : nat) (st : JsonStore) (id : Id)
    (edges : gmap Id Vertex.t) (result : option Vertex.t) (anchorId a : Id)
    (r : Vertex.t) :
  getResultForId fuel st id edges = Ok (result, anchorId) ->
  found st edges id r a ->
  result = Some r /\ anchorId = a.
Proof.
  intros H Hf. apply getResultForId_Ok in H.
  destruct Hf as [[H0 ->]|(H0 & next & Hn & He & ->)].
  - destruct result as [r'|].
    + destruct H as [Hr [->|(next & Hnone & _)]]; [|congruence].
      split; congruence.
    + destruct H as (_ & Hnone & _). congruence.
  - destruct result as [r'|].
    + destruct H as [Hr [->|(next' & _ & Hn' & ->)]]; [congruence|].
      simplify_eq. split; congruence.
    + destruct H as (_ & _ & Hnone). congruence.
Qed.

Lemma findMonikers_moniker_of (fuel : nat) (st : JsonStore) (id : Id)
    (result result' : list Vertex.t) (m : Vertex.t) :
  findMonikers fuel st result id = Ok result' ->
  moniker_of st id m ->
  result' = result ++ [m].
Proof.
  destruct fuel as [|fuel]; [discriminate|].
  unfold findMonikers; simpl. intros H [H0|(H0 & previous & Hp & Hm)].
  - rewrite H0 in H. by simplify_eq.
  - rewrite H0, Hp in H. destruct fuel as [|fuel]; [discriminate|].
    simpl in H. rewrite Hm in H. by simplify_eq.
Qed.

Lemma expandMatching_contributes (st : JsonStore) (includeDeclaration : bool)
    (fuel : nat) (moniker matchingMoniker vertex result range : Vertex.t)
    (anchorId : Id) (a a' : Expansion) :
  expandMatching fuel st includeDeclaration moniker a matchingMoniker = Ok a' ->
  Vertex.id moniker <> Vertex.id matchingMoniker ->
  findVertexForMoniker st matchingMoniker = Some vertex ->
  found st (Out.references (out st)) (Vertex.id vertex) result anchorId ->
  contributes st includeDeclaration result range ->
  Vertex.id range ∈ a'.1.2.
Proof.
  unfold expandMatching. intros H Hne Hv Hf Hc.
  rewrite decide_False in H by done. rewrite Hv in H.
  apply bind_Ok in H as ([res anchor] & Hg & H).
  destruct (getResultForId_found _ _ _ _ _ _ _ _ Hg Hf) as [-> _].
  by eapply resolveReferenceResult_contributes.
Qed.

Lemma first_with_key_app (key : string) (l k : list Vertex.t) (first : Vertex.t) :
  first_with_key key l = Some first -> first_with_key key (l ++ k) = Some first.
Proof.
  unfold first_with_key. intros H. rewrite filter_app, head_app. by rewrite H.
Qed.

(** The closure over the pending monikers: the first pending moniker that
    carries the key [key], when the key has not been processed yet,
    expands the reference result of every moniker of the index under that
    key but itself. *)
Lemma monikerLoop_closure (st : JsonStore) (includeDeclaration : bool)
    (key : string) (matching : list Vertex.t)
    (first other vertex result range : Vertex.t) (anchorId : Id) :
  Indices.monikers (indices st) !! key = Some matching ->
  other ∈ matching ->
  Vertex.id first <> Vertex.id other ->
  findVertexForMoniker st other = Some vertex ->
  found st (Out.references (out st)) (Vertex.id vertex) result anchorId ->
  contributes st includeDeclaration result range ->
  forall fuel i dedupMonikers a a' dedupMonikers',
    monikerLoop fuel st includeDeclaration i dedupMonikers a = Ok (a', dedupMonikers') ->
    first_with_key key (drop i a.2) = Some first ->
    Some key ∉ dedupMonikers ->
    Vertex.id range ∈ a'.1.2.
Proof.
  intros Hidx Hother Hne Hv Hf Hc.
  induction fuel as [|fuel IH];
    intros i dm a a' dm' H Hfirst Hfresh; [discriminate|].
  simpl in H.
  destruct (a.2 !! i) as [moniker|] eqn:Hi.
  2:{ apply lookup_ge_None_1 in Hi. rewrite drop_ge in Hfirst by done. discriminate. }
  rewrite (drop_S _ _ _ Hi) in Hfirst. unfold first_with_key in Hfirst.
  rewrite filter_cons in Hfirst.
  destruct (decide (Vertex.key moniker = Some key)) as [Hk|Hk].
  - simpl in Hfirst. injection Hfirst as ->.
    rewrite decide_False in H by (by rewrite Hk).
    rewrite Hk, Hidx in H. apply bind_Ok in H as (a1 & H1 & H2).
    destruct (for_of_elem st includeDeclaration
                (expandMatching (S fuel) st includeDeclaration first)
                matching other) with (s := a) (s' := a1)
      as (s1 & s2 & _ & Hb & G); [|done|done|].
    { intros ? ? ? _. apply expandMatching_grows. }
    assert (Vertex.id range ∈ s2.1.2) as Hin
      by (eapply expandMatching_contributes; eauto).
    apply monikerLoop_grows in H2 as (Hsub & _).
    destruct G as (Hsub' & _). apply Hsub, Hsub', Hin.
  - fold (first_with_key key (drop (S i) a.2)) in Hfirst.
    case_decide as Hdm; [by eapply IH|].
    assert (Some key ∉ dm ++ [Vertex.key moniker]) as Hfresh'.
    { intros Hx. apply elem_of_app in Hx as [Hx|Hx]; [done|].
      apply list_elem_of_singleton in Hx. congruence. }
    destruct (match Vertex.key moniker with
              | Some key => Indices.monikers (indices st) !! key
              | None => None
              end) as [matching'|].
    + apply bind_Ok in H as (a1 & H1 & H2).
      assert (grows st includeDeclaration a a1) as (_ & [k Hpre] & _ & _).
      { eapply for_of_grows; [|exact H1]. intros ? ? ? _. apply expandMatching_grows. }
      apply (IH (S i) _ a1 a' dm' H2); [|done].
      rewrite Hpre, drop_app. by apply first_with_key_app.
    + by apply (IH (S i) _ a a' dm' H).
Qed.

(** ** The bound on the loops

    A result returned within some number of turns is the result returned
    within any larger number: the bound only decides whether a run is
    followed to its end. *)

Lemma getResultForId_loop_mono (st : JsonStore) (id : Id) (edges : gmap Id Vertex.t)
    (n : nat) :
  forall m currentId r, (n <= m)%nat ->
    getResultForId_loop n st id currentId edges = Ok r ->
    getResultForId_loop m st id currentId edges = Ok r.
Proof.
  induction n as [|n IH]; intros m currentId r Hle H; [discriminate|].
  destruct m as [|m]; [lia|]. simpl in *.
  destruct (edges !! currentId); [done|].
  destruct (Out.next (out st) !! id); [|done].
  apply IH; [lia|done].
Qed.

Lemma findMonikers_loop_mono (st : JsonStore) (id : Id) (result : list Vertex.t)
    (n : nat) :
  forall m currentId r, (n <= m)%nat ->
    findMonikers_loop n st result id currentId = Ok r ->
    findMonikers_loop m st result id currentId = Ok r.
Proof.
  induction n as [|n IH]; intros m currentId r Hle H; [discriminate|].
  destruct m as [|m]; [lia|]. simpl in *.
  destruct (Out.moniker (out st) !! currentId); [done|].
  destruct (In.previous (in_ st) !! id); [|done].
  apply IH; [lia|done].
Qed.

Lemma for_of_mono {A S : Type} (body1 body2 : S -> A -> outcome S) (l : list A) :
  (forall s x r, body1 s x = Ok r -> body2 s x = Ok r) ->
  forall s r, for_of body1 l s = Ok r -> for_of body2 l s = Ok r.
Proof.
  intros Hbody. induction l as [|x l IH]; intros s r H; simpl in *; [done|].
  apply bind_Ok in H as (s1 & H1 & H2).
  rewrite (Hbody _ _ _ H1). simpl. by apply IH.
Qed.

Lemma resolveTarget_mono (st : JsonStore) (includeDeclaration : bool)
    (recurse1 recurse2 : Expansion -> Vertex.t -> outcome Expansion) :
  (forall a v r, recurse1 a v = Ok r -> recurse2 a v = Ok r) ->
  forall a target r,
    resolveTarget st includeDeclaration recurse1 a target = Ok r ->
    resolveTarget st includeDeclaration recurse2 a target = Ok r.
Proof.
  intros Hrec [[locations dedup] monikers] [to|[] to] r H; simpl in *; auto.
Qed.

Lemma resolveReferenceResult_mono (st : JsonStore) (includeDeclaration : bool)
    (n : nat) :
  forall m a referenceResult r, (n <= m)%nat ->
    resolveReferenceResult n st includeDeclaration a referenceResult = Ok r ->
    resolveReferenceResult m st includeDeclaration a referenceResult = Ok r.
Proof.
  induction n as [|n IH]; intros m a referenceResult r Hle H; [discriminate|].
  destruct m as [|m]; [lia|]. simpl in *.
  destruct (item st referenceResult) as [targets|]; [|done].
  eapply for_of_mono; [|exact H].
  intros s x r'. apply resolveTarget_mono. intros a' v r''. apply IH. lia.
Qed.

Lemma expandMatching_mono (st : JsonStore) (includeDeclaration : bool) (n m : nat)
    (moniker : Vertex.t) (a : Expansion) (matchingMoniker : Vertex.t) (r : Expansion) :
  (n <= m)%nat ->
  expandMatching n st includeDeclaration moniker a matchingMoniker = Ok r ->
  expandMatching m st includeDeclaration moniker a matchingMoniker = Ok r.
Proof.
  intros Hle. unfold expandMatching. case_decide as Hid; [done|].
  destruct (findVertexForMoniker st matchingMoniker) as [vertex|]; [|done].
  intros Hx. apply bind_Ok in Hx as ([res anchor] & Hg & H).
  unfold getResultForId in *.
  rewrite (getResultForId_loop_mono _ _ _ n m _ _ Hle Hg). simpl.
  destruct res; [|done]. by eapply resolveReferenceResult_mono.
Qed.

Lemma monikerLoop_mono (st : JsonStore) (includeDeclaration : bool) (n : nat) :
  forall m i dedupMonikers a r, (n <= m)%nat ->
    monikerLoop n st includeDeclaration i dedupMonikers a = Ok r ->
    monikerLoop m st includeDeclaration i dedupMonikers a = Ok r.
Proof.
  induction n as [|n IH]; intros m i dm a r Hle H; [discriminate|].
  destruct m as [|m]; [lia|]. simpl in *.
  destruct (a.2 !! i) as [moniker|]; [|done].
  case_decide as Hdm; [apply IH; [lia|done]|].
  destruct (match Vertex.key moniker with
            | Some key => Indices.monikers (indices st) !! key
            | None => None
            end) as [matching|]; [|apply IH; [lia|done]].
  apply bind_Ok in H as (a1 & H1 & H2).
  erewrite for_of_mono; [| |exact H1].
  - simpl. apply IH; [lia|done].
  - intros s x r'. apply expandMatching_mono. lia.
Qed.

Lemma references_mono (n m : nat) (st : JsonStore) (uri : string)
    (position : Position) (includeDeclaration : bool) (r : option (list Location)) :
  (n <= m)%nat ->
  references n st uri position includeDeclaration = Ok r ->
  references m st uri position includeDeclaration = Ok r.
Proof.
  intros Hle. unfold references. intros H.
  apply bind_Ok in H as (range & Hrange & H). rewrite Hrange. simpl.
  destruct range as [range|]; [|done].
  apply bind_Ok in H as ([[result dd] dm] & Hfind & H). simplify_eq.
  unfold findReferences in *.
  apply bind_Ok in Hfind as ([res anchor] & Hg & Hfind).
  unfold getResultForId in *.
  rewrite (getResultForId_loop_mono _ _ _ n m _ _ Hle Hg). simpl.
  destruct res as [rr|]; [|by simplify_eq].
  apply bind_Ok in Hfind as ([[l1 d1] links] & Hres & Hfind).
  rewrite (resolveReferenceResult_mono _ _ n m _ _ _ Hle Hres). simpl.
  apply bind_Ok in Hfind as (monikers & Hmon & Hfind).
  unfold findMonikers in *.
  rewrite (findMonikers_loop_mono _ _ _ n m _ _ Hle Hmon). simpl.
  apply bind_Ok in Hfind as ([[[l2 d2] ms2] dm2] & Hloop & Hfind).
  rewrite (monikerLoop_mono _ _ n m _ _ _ _ Hle Hloop). simpl.
  by simplify_eq.
Qed.

Lemma deduplicated_elem (st : JsonStore) (includeDeclaration : bool)
    (locations : list Location) (dedupRanges : list Id) (i : Id) :
  deduplicated st includeDeclaration locations dedupRanges ->
  i ∈ dedupRanges ->
  exists r location,
    Vertex.id r = i /\ location_of st r = Some location /\ location ∈ locations.
Proof.
  intros (ranges & -> & _ & Hall & _) Hi.
  apply list_elem_of_fmap in Hi as (r & -> & Hr).
  apply list_elem_of_lookup in Hr as (n & Hn).
  destruct (Forall2_lookup_r _ _ _ _ _ Hall Hn) as (location & Hl & Hloc).
  exists r, location. split; [done|]. split; [done|].
  apply list_elem_of_lookup. eauto.
Qed.

Lemma findReferences_closure (st : JsonStore) (includeDeclaration : bool) (fuel : nat)
    (range : Vertex.t) (result : list Location) (dedupRanges : list Id)
    (dedupMonikers : list (option string)) :
  findReferences fuel st includeDeclaration [] [] [] range
  = Ok (result, dedupRanges, dedupMonikers) ->
  deduplicated st includeDeclaration result dedupRanges
  /\ forall referenceResult anchorId m key matching other vertex result' anchorId'
            contributed locations ids pending first,
       found st (Out.references (out st)) (Vertex.id range) referenceResult anchorId ->
       moniker_of st anchorId m ->
       Indices.monikers (indices st) !! key = Some matching ->
       other ∈ matching ->
       resolveReferenceResult fuel st includeDeclaration ([], [], []) referenceResult
       = Ok (locations, ids, pending) ->
       first_with_key key (pending ++ [m]) = Some first ->
       Vertex.id first <> Vertex.id other ->
       findVertexForMoniker st other = Some vertex ->
       found st (Out.references (out st)) (Vertex.id vertex) result' anchorId' ->
       contributes st includeDeclaration result' contributed ->
       Vertex.id contributed ∈ dedupRanges.
Proof.
  assert (deduplicated st includeDeclaration [] []) as Hnil.
  { exists []. split; [done|]. split; [apply NoDup_nil_2|]. split; constructor. }
  unfold findReferences. intros H.
  apply bind_Ok in H as ([res anchor] & Hg & H).
  destruct res as [rr|].
  2:{ simplify_eq. split; [done|].
      intros rr a m key matching other vertex r' a' c ls ds pending first Hf.
      by destruct (getResultForId_found _ _ _ _ _ _ _ _ Hg Hf). }
  apply bind_Ok in H as ([[l1 d1] links] & Hres & H).
  apply bind_Ok in H as (monikers & Hmon & H).
  apply bind_Ok in H as ([[[l2 d2] ms2] dm2] & Hloop & H).
  simplify_eq.
  pose proof (resolveReferenceResult_grows _ _ _ _ _ _ Hres) as (_ & _ & _ & Hd1).
  pose proof (monikerLoop_grows _ _ _ _ _ _ _ _ Hloop) as (_ & _ & _ & Hd2).
  simpl in *. split; [auto|].
  intros rr' a m key matching other vertex r' a' c ls ds pending first
         Hf Hm Hidx Hother Hres' Hfirst Hne Hv Hf' Hc.
  destruct (getResultForId_found _ _ _ _ _ _ _ _ Hg Hf) as [E ->].
  injection E as <-. rewrite Hres in Hres'. injection Hres' as <- <- <-.
  rewrite (findMonikers_moniker_of _ _ _ _ _ _ Hmon Hm) in Hloop.
  apply (monikerLoop_closure st includeDeclaration key matching first other vertex r' c a'
           Hidx Hother Hne Hv Hf' Hc _ _ _ _ _ _ Hloop).
  - exact Hfirst.
  - apply not_elem_of_nil.
Qed.

(** ** The expansion returns

    On a store whose reference results resolve and whose walks find their
    result within one hop, every step of the expansion returns, when it is
    given turns enough. *)

Lemma for_of_total {A S : Type} (body : S -> A -> outcome S) (l : list A) :
  (forall x, x ∈ l -> forall s, exists s', body s x = Ok s') ->
  forall s, exists s', for_of body l s = Ok s'.
Proof.
  induction l as [|x l IH]; intros Hbody s; simpl; [by exists s|].
  destruct (Hbody x (list_elem_of_here _ _) s) as [s1 ->]. simpl.
  apply IH. intros y Hy. apply Hbody. by apply list_elem_of_further.
Qed.

Lemma addLocation_total (st : JsonStore) (value : Vertex.t) :
  locatable st value ->
  forall locations dedup, exists r, addLocation st locations value dedup = Ok r.
Proof.
  intros [location Hl] locations dedup. unfold addLocation, asRange.
  case_decide; [by eexists|].
  unfold location_of in Hl.
  destruct (In.contains (in_ st) !! Vertex.id value) as [document|]; [|discriminate].
  simpl in Hl. destruct (Vertex.uri document) as [uri|]; [|discriminate].
  simpl in Hl. destruct (Vertex.span value) as [span|]; [|discriminate].
  simpl. by eexists.
Qed.

Lemma resolveReferenceResult_total (st : JsonStore) (includeDeclaration : bool)
    (depth : nat) :
  forall result, resolves depth st includeDeclaration result ->
  forall a, exists a',
    resolveReferenceResult depth st includeDeclaration a result = Ok a'.
Proof.
  induction depth as [|depth IH]; intros result Hr a; [done|].
  simpl in *. destruct (item st result) as [targets|]; [|by exists a].
  apply for_of_total. intros target Hin [[locations dedup] monikers].
  rewrite Forall_forall in Hr. specialize (Hr target Hin).
  assert (forall range, locatable st range ->
            exists s', (addLocation st locations range dedup ≫=
                          fun '(locations, dedupRanges) =>
                            Ok (locations, dedupRanges, monikers)) = Ok s') as Hadd.
  { intros range Hl.
    destruct (addLocation_total st range Hl locations dedup) as [[l' d'] ->].
    simpl. by eexists. }
  destruct target as [to|[] to]; simpl; try (by eexists).
  - destruct includeDeclaration; [by apply Hadd, Hr|by eexists].
  - destruct includeDeclaration; [by apply Hadd, Hr|by eexists].
  - by apply Hadd.
  - by apply IH.
Qed.

Lemma getResultForId_total (st : JsonStore) (edges : gmap Id Vertex.t) (id : Id) :
  within_one_hop st edges id ->
  exists r, forall fuel, (2 <= fuel)%nat -> getResultForId fuel st id edges = Ok r.
Proof.
  unfold within_one_hop. intros H. destruct (edges !! id) as [r|] eqn:H0.
  { exists (Some r, id). intros [|fuel] Hf; [lia|]. by apply getResultForId_here. }
  destruct (Out.next (out st) !! id) as [next|] eqn:Hn.
  2:{ exists (None, id). intros [|fuel] Hf; [lia|].
      unfold getResultForId; simpl. by rewrite H0, Hn. }
  destruct H as [[? H]|[H|(next' & Hn' & [r Hr])]]; try discriminate.
  assert (next' = next) as -> by congruence.
  exists (Some r, Vertex.id next).
  intros [|[|fuel]] Hf; try lia. by apply getResultForId_next.
Qed.

Lemma findMonikers_total (st : JsonStore) (id : Id) (m : Vertex.t)
    (result : list Vertex.t) (fuel : nat) :
  moniker_of st id m -> (2 <= fuel)%nat ->
  findMonikers fuel st result id = Ok (result ++ [m]).
Proof.
  intros Hm Hf. destruct fuel as [|[|fuel]]; try lia.
  unfold findMonikers; simpl. destruct Hm as [H0|(H0 & previous & Hp & Hm)].
  - by rewrite H0.
  - by rewrite H0, Hp, Hm.
Qed.

Lemma expandMatching_total (st : JsonStore) (includeDeclaration : bool)
    (depth fuel : nat) (m moniker : Vertex.t) (key : string)
    (matching : list Vertex.t) (matchingMoniker : Vertex.t) :
  expandable depth st includeDeclaration m ->
  moniker = m \/ linked st moniker ->
  Vertex.key moniker = Some key ->
  Indices.monikers (indices st) !! key = Some matching ->
  matchingMoniker ∈ matching ->
  (2 <= fuel)%nat -> (depth <= fuel)%nat ->
  forall a, exists a',
    expandMatching fuel st includeDeclaration moniker a matchingMoniker = Ok a'.
Proof.
  intros Hex Hp Hkey Hidx Hin H2 Hd a. unfold expandMatching.
  case_decide; [by eexists|].
  destruct (findVertexForMoniker st matchingMoniker) as [vertex|] eqn:Hv;
    [|by eexists].
  destruct (Hex moniker key matching matchingMoniker vertex Hp Hkey Hidx Hin Hv)
    as [Hwalk Hres].
  destruct (getResultForId_total _ _ _ Hwalk) as [[r anchorId] Hg].
  rewrite (Hg fuel H2). simpl. destruct r as [r|]; [|by eexists].
  assert (found st (Out.references (out st)) (Vertex.id vertex) r anchorId) as Hf.
  { pose proof (getResultForId_Ok _ _ _ _ _ _ (Hg fuel H2)) as [He Ha].
    destruct Ha as [->|(next & H0 & Hn & ->)]; [by left|].
    right. split; [done|]. by exists next. }
  destruct (resolveReferenceResult_total st includeDeclaration depth r
              (Hres r anchorId Hf) a) as [a' Ha'].
  exists a'. by eapply resolveReferenceResult_mono.
Qed.

Lemma unseen_subseteq (st : JsonStore) (dm : list (option string)) (k : option string) :
  unseen st (dm ++ [k]) ⊆ unseen st dm.
Proof.
  unfold unseen. intros x. rewrite !elem_of_filter. intros [Hx ?]. split; [|done].
  intros Hin. apply Hx. apply elem_of_app. by left.
Qed.

Lemma unseen_subset (st : JsonStore) (dm : list (option string)) (key : string)
    (matching : list Vertex.t) :
  Indices.monikers (indices st) !! key = Some matching ->
  Some key ∉ dm ->
  unseen st (dm ++ [Some key]) ⊂ unseen st dm.
Proof.
  intros Hidx Hfresh. split; [apply unseen_subseteq|].
  intros Hsub. assert (key ∈ unseen st (dm ++ [Some key])) as Hin.
  { apply Hsub. unfold unseen. apply elem_of_filter. split; [done|].
    apply elem_of_dom. by eexists. }
  unfold unseen in Hin. apply elem_of_filter in Hin as [Hin _].
  apply Hin. apply elem_of_app. right. apply list_elem_of_here.
Qed.

(** The moniker loop returns: each key of the index is expanded once at
    most, and between two expansions the loop only advances in the list
    of pending monikers. *)
Lemma monikerLoop_total (st : JsonStore) (includeDeclaration : bool) (depth : nat)
    (m : Vertex.t) :
  expandable depth st includeDeclaration m ->
  forall n k dedupMonikers a i,
    (forall x, x ∈ a.2 -> x = m \/ linked st x) ->
    (size (unseen st dedupMonikers) <= n)%nat ->
    (length a.2 - i <= k)%nat ->
    exists fuel r,
      (2 <= fuel)%nat /\ (depth <= fuel)%nat
      /\ monikerLoop fuel st includeDeclaration i dedupMonikers a = Ok r.
Proof.
  intros Hex n. induction n as [n IHn] using lt_wf_ind.
  intros k. induction k as [|k IHk]; intros dm a i Hp Hn Hk;
    destruct (a.2 !! i) as [moniker|] eqn:Hi;
    try (exists (S (S (max 2 depth))), (a, dm); split; [lia|]; split; [lia|];
         simpl; by rewrite Hi);
    pose proof (lookup_lt_Some _ _ _ Hi) as Hlt; [lia|].
  destruct (decide (Vertex.key moniker ∈ dm)) as [Hdm|Hdm].
  { destruct (IHk dm a (S i) Hp Hn ltac:(lia)) as (fuel & r & F2 & Fd & Hr).
    exists (S fuel), r. split; [lia|]. split; [lia|].
    simpl. rewrite Hi. by rewrite decide_True. }
  destruct (match Vertex.key moniker with
            | Some key => Indices.monikers (indices st) !! key
            | None => None
            end) as [matching|] eqn:Hm.
  - assert (exists key, Vertex.key moniker = Some key
                        /\ Indices.monikers (indices st) !! key = Some matching)
      as (key & Hkey & Hidx)
      by (destruct (Vertex.key moniker) as [key|]; [by exists key|discriminate]).
    rewrite Hkey in Hdm.
    pose proof (subset_size _ _ (unseen_subset st dm key matching Hidx Hdm)) as Hlt'.
    assert (moniker = m \/ linked st moniker) as Hpm
      by (apply Hp; apply list_elem_of_lookup; eauto).
    destruct (for_of_total
                (expandMatching (max 2 depth) st includeDeclaration moniker) matching)
      with (s := a) as [a1 Ha1].
    { intros x Hx s.
      apply (expandMatching_total st includeDeclaration depth (max 2 depth) m moniker
               key matching); auto; lia. }
    assert (forall x, x ∈ a1.2 -> x = m \/ linked st x) as Hp1.
    { assert (grows st includeDeclaration a a1) as (_ & _ & Hlinks & _).
      { eapply for_of_grows; [|exact Ha1]. intros ? ? ? _. apply expandMatching_grows. }
      intros x Hx. destruct (Hlinks x Hx); auto. }
    destruct (IHn (size (unseen st (dm ++ [Some key]))) ltac:(lia)
                (length a1.2) (dm ++ [Some key]) a1 (S i) Hp1 ltac:(lia) ltac:(lia))
      as (fuel & r & F2 & Fd & Hr).
    exists (S fuel), r. split; [lia|]. split; [lia|].
    simpl. rewrite Hi. rewrite decide_False by (by rewrite Hkey).
    rewrite Hm. rewrite Hkey.
    erewrite for_of_mono; [| |exact Ha1].
    + simpl. exact Hr.
    + intros s x r'. apply expandMatching_mono. lia.
  - pose proof (subseteq_size _ _ (unseen_subseteq st dm (Vertex.key moniker))) as Hle.
    destruct (IHk (dm ++ [Vertex.key moniker]) a (S i) Hp ltac:(lia) ltac:(lia))
      as (fuel & r & F2 & Fd & Hr).
    exists (S fuel), r. split; [lia|]. split; [lia|].
    simpl. rewrite Hi. rewrite decide_False by done. by rewrite Hm.
Qed.

Lemma references_total (st : JsonStore) (uri : string) (position : Position)
    (includeDeclaration : bool) (range referenceResult m : Vertex.t) (anchorId : Id)
    (depth : nat) :
  findRangeFromPosition st (toDatabase uri) position = Ok (Some range) ->
  found st (Out.references (out st)) (Vertex.id range) referenceResult anchorId ->
  moniker_of st anchorId m ->
  resolves depth st includeDeclaration referenceResult ->
  expandable depth st includeDeclaration m ->
  exists fuel locations,
    references fuel st uri position includeDeclaration = Ok (Some locations).
Proof.
  intros Hr Hf Hm Hres Hex.
  destruct (resolveReferenceResult_total st includeDeclaration depth referenceResult
              Hres ([], [], [])) as [[[l1 d1] links] H1].
  assert (forall x, x ∈ links ++ [m] -> x = m \/ linked st x) as Hp.
  { pose proof (resolveReferenceResult_grows _ _ _ _ _ _ H1) as (_ & _ & Hlinks & _).
    intros x Hx. apply elem_of_app in Hx as [Hx|Hx].
    - destruct (Hlinks x Hx) as [Hx'|Hx']; [by apply elem_of_nil in Hx'|auto].
    - apply list_elem_of_singleton in Hx. auto. }
  destruct (monikerLoop_total st includeDeclaration depth m Hex
              (size (unseen st [])) (length (links ++ [m])) []
              (l1, d1, links ++ [m]) 0%nat Hp ltac:(lia) ltac:(simpl; lia))
    as (fuel & [[[l2 d2] ms2] dm2] & F2 & Fd & H2).
  exists fuel, l2. unfold references. rewrite Hr. simpl.
  unfold findReferences.
  assert (getResultForId fuel st (Vertex.id range) (Out.references (out st))
          = Ok (Some referenceResult, anchorId)) as ->.
  { destruct fuel as [|[|fuel]]; try lia.
    destruct Hf as [[H0 ->]|(H0 & next & Hn & He & ->)].
    - by apply getResultForId_here.
    - by apply getResultForId_next. }
  simpl. rewrite (resolveReferenceResult_mono _ _ _ fuel _ _ _ Fd H1). simpl.
  rewrite (findMonikers_total st anchorId m links fuel Hm F2). simpl.
  rewrite H2. reflexivity.
Qed.

(** C3, amended. Whenever [references] returns a sequence, the sequence
    holds at most one location for each contributing range id: it lists
    the locations of contributed ranges with pairwise different ids; it is
    the sequence returned under every larger bound on the loops; and it
    includes a location for every range contributed by the reference
    result found for the vertex of another moniker of the index that
    shares the key of the anchor's moniker, provided that other moniker is
    not the first one with that key among the pending monikers: the
    targets of the [referenceLinks] items met while the anchor's reference
    result is expanded, in order, followed by the anchor's moniker. The
    query does return a sequence, under every bound that is large enough,
    when a range is found at the position, a reference result and a
    moniker are found for it, that reference result resolves, and the
    monikers that the pending monikers can match can be expanded. *)
Theorem references_deduplicated_closure (st : JsonStore) (uri : string)
    (position : Position) (includeDeclaration : bool) :
  (forall fuel locations,
     references fuel st uri position includeDeclaration = Ok (Some locations) ->
     (exists ranges : list Vertex.t,
         NoDup (Vertex.id <$> ranges)
         /\ Forall2 (fun location range => location_of st range = Some location)
              locations ranges
         /\ Forall (contributed st includeDeclaration) ranges)
     /\ (forall fuel', (fuel <= fuel')%nat ->
           references fuel' st uri position includeDeclaration = Ok (Some locations))
     /\ forall range referenceResult anchorId m key matching other vertex result'
               anchorId' contributed collected ids pending first,
          findRangeFromPosition st (toDatabase uri) position = Ok (Some range) ->
          found st (Out.references (out st)) (Vertex.id range) referenceResult anchorId ->
          moniker_of st anchorId m ->
          Vertex.key m = Some key ->
          Indices.monikers (indices st) !! key = Some matching ->
          other ∈ matching ->
          resolveReferenceResult fuel st includeDeclaration ([], [], []) referenceResult
          = Ok (collected, ids, pending) ->
          first_with_key key (pending ++ [m]) = Some first ->
          Vertex.id first <> Vertex.id other ->
          findVertexForMoniker st other = Some vertex ->
          found st (Out.references (out st)) (Vertex.id vertex) result' anchorId' ->
          contributes st includeDeclaration result' contributed ->
          exists r location,
            Vertex.id r = Vertex.id contributed
            /\ location_of st r = Some location
            /\ location ∈ locations)
  /\ (forall range referenceResult anchorId m depth,
        findRangeFromPosition st (toDatabase uri) position = Ok (Some range) ->
        found st (Out.references (out st)) (Vertex.id range) referenceResult anchorId ->
        moniker_of st anchorId m ->
        resolves depth st includeDeclaration referenceResult ->
        expandable depth st includeDeclaration m ->
        exists fuel locations,
          forall fuel', (fuel <= fuel')%nat ->
            references fuel' st uri position includeDeclaration = Ok (Some locations)).
Proof.
  split.
  - intros fuel locations H.
    assert (forall fuel', (fuel <= fuel')%nat ->
              references fuel' st uri position includeDeclaration = Ok (Some locations))
      as Hstable by (intros fuel' Hle; by eapply references_mono).
    unfold references in H.
    apply bind_Ok in H as ([range|] & Hrange & H); [|discriminate].
    apply bind_Ok in H as ([[result dd] dm] & Hfind & H). simplify_eq.
    apply findReferences_closure in Hfind as [Hded Hclosure].
    split; [|split; [exact Hstable|]].
    + destruct Hded as (ranges & -> & Hnd & Hall & Hcs). by exists ranges.
    + intros range' rr a m key matching other vertex r' a' c ls ds pending first Hr.
      rewrite Hrange in Hr. injection Hr as <-.
      intros Hf Hm Hkey Hidx Hother Hres Hfirst Hne Hv Hf' Hc.
      eapply deduplicated_elem; [exact Hded|].
      exact (Hclosure rr a m key matching other vertex r' a' c ls ds pending first
               Hf Hm Hidx Hother Hres Hfirst Hne Hv Hf' Hc).
  - intros range rr a m depth Hr Hf Hm Hres Hex.
    destruct (references_total st uri position includeDeclaration range rr m a depth
                Hr Hf Hm Hres Hex) as (fuel & locations & H).
    exists fuel, locations. intros fuel' Hle. by eapply references_mono.
Qed.





(** ** Invariants of the ingestion pass *)

(** A property that holds of the empty store and is kept by every vertex
    record and every single edge application holds of every store the
    lines build. *)
Lemma onLines_invariant (P : JsonStore -> Prop) :
  (forall st v st', P st -> processVertex st v = Ok st' -> P st') ->
  (forall st label outV inV property st',
     P st -> doProcessEdge st label outV inV property = Ok st' -> P st') ->
  forall lines st st', P st -> onLines st lines = Ok st' -> P st'.
Proof.
  intros Hv He.
  assert (forall inVs st label outV property st',
            P st -> doProcessEdges st label outV inVs property = Ok st' -> P st')
    as Hes.
  { induction inVs as [|i inVs IH]; simpl; intros st label outV property st' HP H.
    - by simplify_eq.
    - apply bind_Ok in H as (st1 & H1 & H2). eauto. }
  induction lines as [|l lines IH]; intros st st' HP H; simpl in H.
  - by simplify_eq.
  - apply bind_Ok in H as (st1 & H1 & H2). eapply IH; [|exact H2].
    unfold onLine in H1. case_decide as Ht; [by simplify_eq|].
    destruct (JSON_parse l) as [[| |v|e]|]; simplify_eq; eauto.
    unfold processEdge in H1.
    destruct (Edge.inV e); [eauto|]. destruct (Edge.inVs e); [eauto|by simplify_eq].
Qed.

Lemma load_invariant (P : JsonStore -> Prop) :
  P new_JsonStore ->
  (forall st v st', P st -> processVertex st v = Ok st' -> P st') ->
  (forall st label outV inV property st',
     P st -> doProcessEdge st label outV inV property = Ok st' -> P st') ->
  forall lines st, load lines = Ok st -> P st.
Proof.
  intros H0 Hv He lines st H. apply load_Ok in H.
  eapply onLines_invariant; eauto.
Qed.

Lemma processVertex_adjacency (st st' : JsonStore) (v : Vertex.t) :
  processVertex st v = Ok st' -> out st' = out st /\ in_ st' = in_ st.
Proof.
  unfold processVertex, doProcessDocument. intros H.
  repeat case_match; simplify_eq; split; reflexivity.
Qed.

Lemma doProcessEdge_fields (st st' : JsonStore) label outV inV property :
  doProcessEdge st label outV inV property = Ok st' ->
  vertices st' = vertices st /\ indices st' = indices st
  /\ version st' = version st /\ projectRoot st' = projectRoot st
  /\ console st' = console st.
Proof.
  unfold doProcessEdge. intros H.
  repeat case_match; simplify_eq; repeat split; reflexivity.
Qed.

Lemma processVertex_typed (st st' : JsonStore) (v : Vertex.t) :
  typed_collections st -> processVertex st v = Ok st' -> typed_collections st'.
Proof.
  intros (Hp & Hd & Hr) H. unfold processVertex, doProcessDocument in H.
  destruct (Vertex.body (with_key v)) eqn:Hb;
    repeat case_match; simplify_eq; unfold typed_collections; simpl;
    (split; [|split]); try assumption;
    intros k x Hx; apply lookup_insert_Some in Hx as [[<- <-]|[_ Hx]]; eauto;
    (split; [reflexivity|]);
    first [ exact Hb
          | unfold Vertex.uri; rewrite Hb; eauto
          | unfold Vertex.is_range; by rewrite Hb ].
Qed.

Lemma doProcessEdge_typed (st st' : JsonStore) label outV inV property :
  typed_collections st -> doProcessEdge st label outV inV property = Ok st' ->
  typed_collections st'.
Proof.
  intros H He. apply doProcessEdge_fields in He as (Hv & _).
  unfold typed_collections. by rewrite Hv.
Qed.

Lemma closed_insert (st : JsonStore) (m : gmap Id Vertex.t) (k : Id) (v : Vertex.t) :
  closed st m -> known st k -> known st (Vertex.id v) -> closed st (<[k := v]> m).
Proof.
  intros Hm Hk Hv k' v' Hl.
  apply lookup_insert_Some in Hl as [[<- <-]|[_ Hl]]; [done|by apply Hm].
Qed.

Lemma processVertex_integrity (st st' : JsonStore) (v : Vertex.t) :
  referential_integrity st -> processVertex st v = Ok st' -> referential_integrity st'.
Proof.
  intros (Hkeys & Hsv & Hc & Hi) H.
  destruct (processVertex_adjacency _ _ _ H) as [Hout Hin].
  pose proof (processVertex_all _ _ _ H) as Hall.
  assert (forall k, known st k -> known st' k) as Hmono.
  { intros k [x Hx]. unfold known. rewrite Hall, lookup_insert.
    case_decide; eauto. }
  unfold referential_integrity, single_valued. rewrite Hout, Hin, Hall.
  split; [|split; [|split]].
  - intros k x Hx. apply lookup_insert_Some in Hx as [[<- <-]|[_ Hx]]; [|by apply Hkeys].
    apply with_key_id.
  - eapply Forall_impl; [exact Hsv|]. intros m Hm k x Hx.
    destruct (Hm k x Hx). auto.
  - intros k l Hl. destruct (Hc k l Hl) as [? Hl']. split; [auto|].
    intros x Hx. auto.
  - intros k l Hl. destruct (Hi k l Hl) as [? Hl']. split; [auto|].
    intros x Hx. auto.
Qed.

Lemma doProcessEdge_single_valued (st st' : JsonStore) label outV inV property
    (from to : Vertex.t) :
  Vertices.all (vertices st) !! outV = Some from ->
  Vertices.all (vertices st) !! inV = Some to ->
  doProcessEdge st label outV inV property = Ok st' ->
  Forall2 (fun m' m => m' = m \/ m' = <[Vertex.id from := to]> m
                       \/ m' = <[Vertex.id to := from]> m)
    (single_valued st') (single_valued st).
Proof.
  intros Hfrom Hto H. unfold doProcessEdge in H. rewrite Hfrom, Hto in H.
  destruct label; simplify_eq; unfold single_valued; simpl;
    repeat (constructor; [auto|]); constructor.
Qed.

Lemma Forall_closed_step (st : JsonStore) (ms' ms : list (gmap Id Vertex.t))
    (from to : Vertex.t) :
  Forall2 (fun m' m => m' = m \/ m' = <[Vertex.id from := to]> m
                       \/ m' = <[Vertex.id to := from]> m) ms' ms ->
  Forall (closed st) ms ->
  known st (Vertex.id from) -> known st (Vertex.id to) ->
  Forall (closed st) ms'.
Proof.
  intros H2 Hall Kf Kt. induction H2 as [|m' m ms' ms Hm _ IH]; [constructor|].
  apply Forall_cons in Hall as [Hm0 Hall]. constructor; [|by apply IH].
  destruct Hm as [->|[->| ->]]; [done|by apply closed_insert..].
Qed.

Lemma doProcessEdge_integrity (st st' : JsonStore) label outV inV property :
  referential_integrity st -> doProcessEdge st label outV inV property = Ok st' ->
  referential_integrity st'.
Proof.
  intros (Hkeys & Hsv & Hc & Hi) H.
  destruct (doProcessEdge_fields _ _ _ _ _ _ H) as (Hvert & _).
  assert (forall k, known st' k <-> known st k) as Hknown
    by (intros k; unfold known; by rewrite Hvert).
  assert (exists from to, Vertices.all (vertices st) !! outV = Some from
                          /\ Vertices.all (vertices st) !! inV = Some to)
    as (from & to & Hfrom & Hto).
  { unfold doProcessEdge in H.
    destruct (Vertices.all (vertices st) !! outV); [|discriminate].
    destruct (Vertices.all (vertices st) !! inV); [|discriminate]. eauto. }
  assert (known st (Vertex.id from)) as Kf by (rewrite (Hkeys _ _ Hfrom); by eexists).
  assert (known st (Vertex.id to)) as Kt by (rewrite (Hkeys _ _ Hto); by eexists).
  split; [by rewrite Hvert|]. split; [|split].
  - pose proof (doProcessEdge_single_valued _ _ _ _ _ _ _ _ Hfrom Hto H) as H2.
    eapply Forall_impl; [exact (Forall_closed_step _ _ _ _ _ H2 Hsv Kf Kt)|].
    intros m Hm k v Hl. rewrite !Hknown. by apply Hm.
  - unfold doProcessEdge in H. rewrite Hfrom, Hto in H.
    intros k l Hl. rewrite Hknown.
    assert (known st k /\ forall v, v ∈ l -> known st (Vertex.id v)) as [? Hl'].
    { destruct label; simplify_eq; simpl in Hl; try (by apply Hc).
      apply lookup_insert_Some in Hl as [[<- <-]|[_ Hl]]; [|by apply Hc].
      split; [done|].
      destruct (Out.contains (out st) !! Vertex.id from) as [old|] eqn:Hold.
      - intros v Hv. apply elem_of_app in Hv as [Hv|Hv].
        + by apply (Hc _ _ Hold).
        + by apply list_elem_of_singleton in Hv as ->.
      - intros v Hv. by apply list_elem_of_singleton in Hv as ->. }
    split; [done|]. intros v Hv. rewrite Hknown. auto.
  - unfold doProcessEdge in H. rewrite Hfrom, Hto in H.
    intros k l Hl. rewrite Hknown.
    assert (known st k /\ forall t, t ∈ l -> known st (Vertex.id (ItemTarget_to t)))
      as [? Hl'].
    { destruct label; simplify_eq; simpl in Hl; try (by apply Hi).
      apply lookup_insert_Some in Hl as [[<- <-]|[_ Hl]]; [|by apply Hi].
      split; [done|].
      assert (forall t0 : ItemTarget,
                t0 = match property with
                     | Some property => Typed property to
                     | None => Plain to
                     end -> known st (Vertex.id (ItemTarget_to t0))) as Hnew
        by (intros t0 ->; by destruct property).
      destruct (Out.item (out st) !! Vertex.id from) as [old|] eqn:Hold.
      - intros t Hx. apply elem_of_app in Hx as [Hx|Hx].
        + by apply (Hi _ _ Hold).
        + apply list_elem_of_singleton in Hx. by apply Hnew.
      - intros t Hx. apply list_elem_of_singleton in Hx. by apply Hnew. }
    split; [done|]. intros t Hx. rewrite Hknown. auto.
Qed.

Lemma with_key_body (v : Vertex.t) scheme identifier kind key :
  Vertex.body (with_key v) = Vertex.moniker scheme identifier kind key ->
  kind <> Some MonikerKind.local ->
  key = Some (md5_base64 (JSON_stringify_si scheme identifier)).
Proof.
  unfold with_key. destruct (Vertex.body v) eqn:Hb; try (rewrite Hb; discriminate).
  case_decide as Hk; simpl; intros H Hne; [rewrite Hb in H|]; by simplify_eq.
Qed.

Lemma processVertex_moniker_index (st st' : JsonStore) (v : Vertex.t) :
  moniker_index_ok st -> processVertex st v = Ok st' -> moniker_index_ok st'.
Proof.
  intros Hinv H. unfold processVertex, doProcessDocument in H.
  destruct (Vertex.body (with_key v)) eqn:Hb;
    repeat case_match; simplify_eq; try exact Hinv.
  intros k ms m Hl Hm. simpl in Hl.
  apply lookup_insert_Some in Hl as [[<- <-]|[_ Hl]]; [|by eapply Hinv].
  apply elem_of_app in Hm as [Hm|Hm].
  - destruct (Indices.monikers (indices st)
                !! md5_base64 (JSON_stringify_si scheme identifier)) eqn:Hold;
      simpl in Hm; [by eapply Hinv|by apply elem_of_nil in Hm].
  - apply list_elem_of_singleton in Hm as ->.
    exists scheme, identifier, kind. split; [|done].
    rewrite Hb. f_equal. by eapply with_key_body.
Qed.

Lemma processVertex_content_index (st st' : JsonStore) (v : Vertex.t) :
  content_index_ok st -> processVertex st v = Ok st' -> content_index_ok st'.
Proof.
  intros [Hc Hb] H. unfold processVertex in H.
  destruct (Vertex.body (with_key v)) eqn:Hbody;
    repeat case_match; simplify_eq; try (split; assumption).
  split.
  - unfold doProcessDocument; simpl. intros h c Hl.
    destruct (decide (md5_base64 (default "No content provided." contents)
                      = Bucket.hash
                          (default {| Bucket.hash :=
                                        md5_base64 (default "No content provided." contents);
                                      Bucket.documents := [] |}
                             (Indices.documents (indices st) !! uri)))) as [E|E].
    + destruct (Indices.documents (indices st) !! uri); simpl in *;
        case_decide; try done; simpl in Hl;
        apply lookup_insert_Some in Hl as [[<- <-]|[_ Hl]]; auto.
    + destruct (Indices.documents (indices st) !! uri); simpl in *;
        case_decide; try done; simpl in Hl;
        apply lookup_insert_Some in Hl as [[<- <-]|[_ Hl]]; auto.
  - intros u b Hl. rewrite doProcessDocument_bucket in Hl. simpl in Hl.
    assert (Indices.contents
              (indices (doProcessDocument
                 (set_vertices (Vertices_set_all (Vertex.id (with_key v)) (with_key v)) st)
                 (with_key v) uri contents))
            = <[md5_base64 (default "No content provided." contents)
                := default "No content provided." contents]>
                (Indices.contents (indices st))) as ->.
    { unfold doProcessDocument; simpl.
      destruct (Indices.documents (indices st) !! uri); simpl; case_decide; reflexivity. }
    apply lookup_insert_Some in Hl as [[<- <-]|[_ Hl]].
    + simpl. destruct (Indices.documents (indices st) !! uri) as [b0|] eqn:Hold; simpl.
      * apply lookup_insert_is_Some'. right. by eapply Hb.
      * apply lookup_insert_is_Some'. by left.
    + apply lookup_insert_is_Some'. right. by eapply Hb.
Qed.

Lemma doProcessEdge_indices_inv (P : Indices.t -> Prop) (st st' : JsonStore)
    label outV inV property :
  P (indices st) -> doProcessEdge st label outV inV property = Ok st' -> P (indices st').
Proof. intros HP H. apply doProcessEdge_fields in H as (_ & -> & _). exact HP. Qed.

(** X1. In a loaded store the typed collections hold vertices of their kind:
    [vertices.projects] project vertices, [vertices.documents] document
    vertices, [vertices.ranges] range vertices, each under its own id. *)
Theorem loaded_typed_collections (lines : list Line) (st : JsonStore) :
  load lines = Ok st -> typed_collections st.
Proof.
  apply load_invariant.
  - split; [|split]; intros k v Hl; cbn in Hl; by rewrite lookup_empty in Hl.
  - intros ? ? ?; apply processVertex_typed.
  - intros ? ? ? ? ? ?; apply doProcessEdge_typed.
Qed.

(** X2. A loaded store has no dangling reference: every vertex is held under
    its own id, and every key and every vertex of the adjacency maps
    ([out.*], [in.*], the [contains] and [item] lists) has a known id. *)
Theorem loaded_referential_integrity (lines : list Line) (st : JsonStore) :
  load lines = Ok st -> referential_integrity st.
Proof.
  apply load_invariant.
  - split; [|split; [|split]].
    + intros k v Hl; cbn in Hl; by rewrite lookup_empty in Hl.
    + unfold single_valued; cbn. repeat (constructor; [intros k v Hl;
        by rewrite lookup_empty in Hl|]). constructor.
    + intros k v Hl; cbn in Hl; by rewrite lookup_empty in Hl.
    + intros k v Hl; cbn in Hl; by rewrite lookup_empty in Hl.
  - intros ? ? ?; apply processVertex_integrity.
  - intros ? ? ? ? ? ?; apply doProcessEdge_integrity.
Qed.

Lemma onLines_monikers_mono (lines : list Line) (st st' : JsonStore)
    (key : string) (ms : list Vertex.t) :
  onLines st lines = Ok st' ->
  Indices.monikers (indices st) !! key = Some ms ->
  exists ms', Indices.monikers (indices st') !! key = Some ms' /\ ms `prefix_of` ms'.
Proof.
  intros H Hl.
  refine (onLines_invariant
            (fun s => exists ms', Indices.monikers (indices s) !! key = Some ms'
                                  /\ ms `prefix_of` ms') _ _ lines st st' _ H);
    [| |by exists ms].
  - intros s v s' (ms1 & H1 & Hp) Hv. unfold processVertex, doProcessDocument in Hv.
    destruct (Vertex.body (with_key v)) eqn:Hb;
      repeat case_match; simplify_eq; simpl; eauto.
    destruct (decide (md5_base64 (JSON_stringify_si scheme identifier) = key)) as [<-|Hne].
    + rewrite lookup_insert_eq, H1. simpl. eexists. split; [done|].
      etrans; [exact Hp|]. by apply prefix_app_r.
    + rewrite lookup_insert_ne by done. eauto.
  - intros s label outV inV property s' HP He.
    exact (doProcessEdge_indices_inv
                (fun i => exists ms', Indices.monikers i !! key = Some ms'
                                      /\ ms `prefix_of` ms') _ _ _ _ _ _ HP He).
Qed.

(** X3. The moniker index of a loaded store: under each key it lists non-local
    monikers that carry the key, the digest of their scheme and
    identifier; and every non-local moniker of the stream is listed under
    its key. Local monikers are not indexed. *)
Theorem loaded_moniker_index (lines : list Line) (st : JsonStore) :
  load lines = Ok st ->
  moniker_index_ok st
  /\ forall v scheme identifier kind key0,
       v ∈ ingested_vertices lines ->
       Vertex.body v = Vertex.moniker scheme identifier kind key0 ->
       kind <> Some MonikerKind.local ->
       exists ms,
         Indices.monikers (indices st) !! md5_base64 (JSON_stringify_si scheme identifier)
         = Some ms
         /\ with_key v ∈ ms.
Proof.
  intros Hload. split.
  - revert Hload. apply load_invariant.
    + intros k ms m Hl; cbn in Hl; by rewrite lookup_empty in Hl.
    + intros ? ? ?; apply processVertex_moniker_index.
    + intros s label outV inV property s' HP He.
      exact (doProcessEdge_indices_inv
                  (fun i => forall key ms m, Indices.monikers i !! key = Some ms ->
                     m ∈ ms -> exists scheme identifier kind,
                       Vertex.body m = Vertex.moniker scheme identifier kind (Some key)
                       /\ kind <> Some MonikerKind.local
                       /\ key = md5_base64 (JSON_stringify_si scheme identifier))
                  _ _ _ _ _ _ HP He).
  - apply load_Ok in Hload. revert Hload. generalize new_JsonStore.
    induction lines as [|l lines IH]; intros st0 H v scheme identifier kind key0 Hin Hb Hk.
    { by apply elem_of_nil in Hin. }
    simpl in H. apply bind_Ok in H as (st1 & H1 & H2).
    unfold ingested_vertices in Hin. simpl in Hin. fold (ingested_vertices lines) in Hin.
    unfold onLine in H1. case_decide as Ht; [simplify_eq; eauto|].
    destruct (JSON_parse l) as [[| |v0|e]|]; simplify_eq; eauto.
    apply elem_of_cons in Hin as [->|Hin]; [|eauto].
    assert (exists ms, Indices.monikers (indices st1)
                         !! md5_base64 (JSON_stringify_si scheme identifier) = Some ms
                       /\ with_key v0 ∈ ms) as (ms & Hms & Hin).
    { unfold processVertex in H1.
      assert (Vertex.body (with_key v0)
              = Vertex.moniker scheme identifier kind
                  (Some (md5_base64 (JSON_stringify_si scheme identifier)))) as Hwk.
      { unfold with_key. rewrite Hb. by rewrite decide_False. }
      rewrite Hwk in H1. rewrite decide_False in H1 by done. simplify_eq. simpl.
      rewrite lookup_insert_eq. eexists. split; [done|].
      apply elem_of_app. right. apply list_elem_of_here. }
    destruct (onLines_monikers_mono _ _ _ _ _ H2 Hms) as (ms' & Hms' & Hp).
    exists ms'. split; [done|]. destruct Hp as [k ->]. apply elem_of_app. by left.
Qed.

(** X4. The content index of a loaded store is addressed by content, and
    [findFile] and [fileContent] compose: for every registered URI
    [findFile] answers with the id of the canonical document and the hash
    of the bucket, and [fileContent] finds, for that answer, a text whose
    digest is the hash. *)
Theorem loaded_file_content (lines : list Line) (st : JsonStore) (uri : string)
    (b : Bucket.t) :
  load lines = Ok st ->
  Indices.documents (indices st) !! uri = Some b ->
  exists document contents,
    canonical_document st uri = Some document
    /\ findFile st uri = Ok (Some (Vertex.id document, Bucket.hash b))
    /\ fileContent st (Vertex.id document, Bucket.hash b) = Some contents
    /\ md5_base64 contents = Bucket.hash b.
Proof.
  intros Hload Hb.
  assert (content_index_ok st) as [Hc Hh].
  { revert Hload. apply load_invariant.
    - split; intros k v Hl; cbn in Hl; by rewrite lookup_empty in Hl.
    - intros ? ? ?; apply processVertex_content_index.
    - intros s label outV inV property s' HP He.
      exact (doProcessEdge_indices_inv
                  (fun i => (forall hash contents, Indices.contents i !! hash = Some contents
                                -> md5_base64 contents = hash)
                            /\ (forall uri b, Indices.documents i !! uri = Some b ->
                                  is_Some (Indices.contents i !! Bucket.hash b)))
                  _ _ _ _ _ _ HP He). }
  destruct (loaded_bucket _ _ _ _ Hload Hb) as (document & rest & c & Hd & _ & _).
  destruct (Hh _ _ Hb) as [contents Hcontents].
  exists document, contents.
  split; [unfold canonical_document; rewrite Hb; simpl; by rewrite Hd|].
  split; [unfold findFile, first_document_id; rewrite Hb, Hd; reflexivity|].
  split; [exact Hcontents|by apply Hc].
Qed.

Lemma onLines_all_last (lines : list Line) (k : Id) : forall (st st' : JsonStore),
  onLines st lines = Ok st' ->
  Vertices.all (vertices st') !! k
  = match last (filter (fun v => Vertex.id v = k) (with_key <$> ingested_vertices lines)) with
    | Some v => Some v
    | None => Vertices.all (vertices st) !! k
    end.
Proof.
  induction lines as [|l lines IH]; intros st st' H; simpl in H.
  { by simplify_eq. }
  apply bind_Ok in H as (st1 & H1 & H2). rewrite (IH _ _ H2). clear IH H2.
  unfold ingested_vertices; simpl. fold (ingested_vertices lines).
  unfold onLine in H1. case_decide as Ht; [by simplify_eq|].
  destruct (JSON_parse l) as [[| |v|e]|]; simplify_eq; try reflexivity.
  - rewrite fmap_cons, filter_cons, (processVertex_all _ _ _ H1).
    rewrite with_key_id. case_decide as Hk.
    + rewrite last_cons. subst k.
      destruct (last _); [reflexivity|]. by rewrite lookup_insert_eq.
    + destruct (last _); [reflexivity|]. by rewrite lookup_insert_ne.
  - by rewrite (processEdge_vertices _ _ _ H1).
Qed.

(** X5. [vertices.all] of a loaded store: under each id it holds the last
    vertex record of the stream with that id (a moniker with its key),
    and nothing under an id no record has. *)
Theorem loaded_vertices (lines : list Line) (st : JsonStore) (k : Id) :
  load lines = Ok st ->
  Vertices.all (vertices st) !! k
  = last (filter (fun v => Vertex.id v = k) (with_key <$> ingested_vertices lines)).
Proof.
  intros H. apply load_Ok in H. rewrite (onLines_all_last _ k _ _ H).
  destruct (last _); [reflexivity|]. cbn. apply lookup_empty.
Qed.

Lemma processVertex_root_version (st st' : JsonStore) (v : Vertex.t) :
  processVertex st v = Ok st' ->
  projectRoot st'
  = match Vertex.body v with
    | Vertex.group (Some rootUri) => URI_parse rootUri
    | _ => projectRoot st
    end
  /\ version st'
     = match Vertex.body v with
       | Vertex.metaData version => version
       | _ => version st
       end
  /\ match Vertex.body v with
     | Vertex.group (Some rootUri) => is_Some (URI_parse rootUri)
     | _ => True
     end.
Proof.
  unfold processVertex, doProcessDocument, with_key.
  destruct (Vertex.body v) eqn:Hb; simpl; rewrite ?Hb; intros H;
    repeat case_match; simplify_eq; simpl; rewrite ?Hb in *; simplify_eq; auto.
Qed.

Lemma onLines_root_version (lines : list Line) : forall (st st' : JsonStore),
  onLines st lines = Ok st' ->
  projectRoot st'
  = match last (rootUris lines) with
    | Some rootUri => URI_parse rootUri
    | None => projectRoot st
    end
  /\ version st'
     = match last (versions lines) with
       | Some version => version
       | None => version st
       end.
Proof.
  induction lines as [|l lines IH]; intros st st' H; simpl in H.
  { by simplify_eq. }
  apply bind_Ok in H as (st1 & H1 & H2). destruct (IH _ _ H2) as [-> ->]. clear IH H2.
  unfold rootUris, versions, ingested_vertices; simpl.
  fold (ingested_vertices lines). fold (rootUris lines). fold (versions lines).
  unfold onLine in H1. case_decide as Ht; [by simplify_eq|].
  destruct (JSON_parse l) as [[| |v|e]|]; simplify_eq; try done.
  - destruct (processVertex_root_version _ _ _ H1) as (Hr & Hv & _).
    simpl. fold (rootUris lines). fold (versions lines). rewrite Hr, Hv.
    unfold rootUris, versions, ingested_vertices.
    destruct (Vertex.body v) as [ver|[r|]| | | | | | | | | | | | | | | | | ]; simpl;
      rewrite ?last_cons; split;
      try reflexivity; destruct (last _); reflexivity.
  - unfold processEdge in H1.
    assert (projectRoot st1 = projectRoot st /\ version st1 = version st) as [-> ->];
      [|done].
    destruct (Edge.inV e).
    { by apply doProcessEdge_fields in H1 as (_ & _ & -> & -> & _). }
    destruct (Edge.inVs e) as [inVs|]; [|by simplify_eq].
    revert H1. generalize (Edge.label e), (Edge.outV e),
      (match Edge.label e with EdgeLabels.item => Edge.property e | _ => None end).
    intros label outV property. revert st.
    induction inVs as [|i inVs IHi]; intros st H1; simpl in H1; [by simplify_eq|].
    apply bind_Ok in H1 as (s & Hs & H1).
    apply doProcessEdge_fields in Hs as (_ & _ & <- & <- & _). by apply IHi.
Qed.

(** X6. What a successful [load] says of the stream: it has a group record with
    a root URI, the last of which parses to the project root of the store,
    and its last meta data record carries the version of the store, which
    is a semantic version within the supported range. *)
Theorem loaded_root_and_version (lines : list Line) (st : JsonStore) :
  load lines = Ok st ->
  exists rootUri root ver semVer,
    last (rootUris lines) = Some rootUri
    /\ URI_parse rootUri = Some root
    /\ projectRoot st = Some root
    /\ last (versions lines) = Some (Some ver)
    /\ version st = Some ver
    /\ SemVer.parse ver = Some semVer
    /\ SemVer.satisfies semVer (supported_range true) = true.
Proof.
  intros H. unfold load in H. apply bind_Ok in H as (st1 & H1 & H2).
  apply bind_Ok in H2 as (u & Hc & H3). simplify_eq.
  destruct (onLines_root_version _ _ _ H1) as [Hr Hv]. cbn in Hr, Hv.
  unfold onClose in Hc.
  destruct (projectRoot st) as [root|] eqn:Hroot; [|discriminate].
  destruct (version st) as [ver|] eqn:Hver; [|discriminate].
  destruct (SemVer.parse ver) as [semVer|] eqn:Hp; [|discriminate].
  destruct (SemVer.satisfies semVer (supported_range true)) eqn:Hs; [|discriminate].
  destruct (last (rootUris lines)) as [rootUri|]; [|discriminate].
  destruct (last (versions lines)) as [[ver'|]|]; try discriminate.
  exists rootUri, root, ver, semVer. simplify_eq. auto 10.
Qed.

(** ** Edge records *)

Lemma doProcessEdges_app (l1 l2 : list Id) : forall (st : JsonStore) label outV property,
  doProcessEdges st label outV (l1 ++ l2) property
  = doProcessEdges st label outV l1 property ≫= fun st' =>
      doProcessEdges st' label outV l2 property.
Proof.
  induction l1 as [|i l1 IH]; intros st label outV property; simpl; [reflexivity|].
  destruct (doProcessEdge st label outV i property); simpl; auto.
Qed.

(** X7. A 1:N edge is the sequence of its single-target applications: an edge
    to [l1 ++ l2] acts as the edge to [l1] followed by the edge to [l2],
    an edge to the single target [i] acts as the 1:1 edge to [i], and an
    edge to no target changes nothing. *)
Theorem processEdge_in_sequence (st : JsonStore) (label : EdgeLabels.t) (outV : Id)
    (property : option ItemEdgeProperties.t) :
  (forall l1 l2,
     processEdge st (edge_1N label outV (l1 ++ l2) property)
     = processEdge st (edge_1N label outV l1 property) ≫= fun st' =>
         processEdge st' (edge_1N label outV l2 property))
  /\ (forall i,
        processEdge st (edge_1N label outV [i] property)
        = processEdge st (edge_11 label outV i property))
  /\ processEdge st (edge_1N label outV [] property) = Ok st.
Proof.
  split; [|split].
  - intros l1 l2. unfold processEdge; simpl. apply doProcessEdges_app.
  - intros i. unfold processEdge; simpl.
    destruct (doProcessEdge st label outV i _); reflexivity.
  - reflexivity.
Qed.

Lemma doProcessEdges_contains (inVs : list Id) (tos : list Vertex.t) :
  forall (st : JsonStore) (outV : Id) (from : Vertex.t)
         (property : option ItemEdgeProperties.t),
    Vertices.all (vertices st) !! outV = Some from ->
    Forall2 (fun i to => Vertices.all (vertices st) !! i = Some to) inVs tos ->
    exists st',
      doProcessEdges st EdgeLabels.contains outV inVs property = Ok st'
      /\ default [] (Out.contains (out st') !! Vertex.id from)
         = default [] (Out.contains (out st) !! Vertex.id from) ++ tos
      /\ (forall to, to ∈ tos -> In.contains (in_ st') !! Vertex.id to = Some from)
      /\ (forall k, In.contains (in_ st) !! k = Some from ->
                    In.contains (in_ st') !! k = Some from)
      /\ vertices st' = vertices st.
Proof.
  revert tos. induction inVs as [|i inVs IH];
    intros tos st outV from property Hfrom Hall.
  - apply Forall2_nil_inv_l in Hall as ->.
    exists st. simpl. rewrite app_nil_r. split; [done|]. split; [done|].
    split; [|done]. intros to Hin. by apply elem_of_nil in Hin.
  - apply Forall2_cons_inv_l in Hall as (to & tos' & Hto & Hall & ->).
    simpl. unfold doProcessEdge at 1. rewrite Hfrom, Hto. simpl.
    match goal with
    | |- exists st', doProcessEdges ?s _ _ _ _ = _ /\ _ =>
        destruct (IH tos' s outV from property) as (st' & Hrun & Hout & Hin & Hkeep & Hv);
          [exact Hfrom|exact Hall|]
    end.
    exists st'. split; [exact Hrun|]. split; [|split; [|split]].
    + rewrite Hout. simpl. rewrite lookup_insert_eq. simpl.
      destruct (Out.contains (out st) !! Vertex.id from); simpl;
        by rewrite <- ?app_assoc.
    + intros to' Hin'. apply elem_of_cons in Hin' as [->|Hin']; [|by apply Hin].
      apply Hkeep. simpl. by rewrite lookup_insert_eq.
    + intros k Hk. apply Hkeep. simpl.
      destruct (decide (Vertex.id to = k)) as [<-|Hne];
        [by rewrite lookup_insert_eq|by rewrite lookup_insert_ne].
    + by rewrite Hv.
Qed.

(** X8. A [contains] edge whose endpoints are known appends its targets, in
    order and without removing duplicates, to the children of the
    container, records the container as the parent of each target, and
    leaves the vertices alone. *)
Theorem contains_edge_appends (st : JsonStore) (outV : Id) (from : Vertex.t)
    (inVs : list Id) (tos : list Vertex.t) (property : option ItemEdgeProperties.t) :
  Vertices.all (vertices st) !! outV = Some from ->
  Forall2 (fun i to => Vertices.all (vertices st) !! i = Some to) inVs tos ->
  exists st',
    processEdge st (edge_1N EdgeLabels.contains outV inVs property) = Ok st'
    /\ default [] (Out.contains (out st') !! Vertex.id from)
       = default [] (Out.contains (out st) !! Vertex.id from) ++ tos
    /\ (forall to, to ∈ tos -> In.contains (in_ st') !! Vertex.id to = Some from)
    /\ vertices st' = vertices st.
Proof.
  intros Hfrom Hall.
  destruct (doProcessEdges_contains inVs tos st outV from None Hfrom Hall)
    as (st' & Hrun & Hout & Hin & _ & Hv).
  exists st'. unfold processEdge; simpl. auto.
Qed.

(** X9. A second [next] edge from the same source overwrites the first: the
    source points to the second target, both targets have the source as
    [previous], the pointer of the first target being stale. *)
Theorem next_edge_last_write_wins (st : JsonStore) (a b c : Id) (va vb vc : Vertex.t)
    (p p' : option ItemEdgeProperties.t) :
  Vertices.all (vertices st) !! a = Some va ->
  Vertices.all (vertices st) !! b = Some vb ->
  Vertices.all (vertices st) !! c = Some vc ->
  exists st',
    (doProcessEdge st EdgeLabels.next a b p ≫= fun s =>
       doProcessEdge s EdgeLabels.next a c p') = Ok st'
    /\ Out.next (out st') !! Vertex.id va = Some vc
    /\ In.previous (in_ st') !! Vertex.id vc = Some va
    /\ (Vertex.id vb <> Vertex.id vc ->
        In.previous (in_ st') !! Vertex.id vb = Some va).
Proof.
  intros Ha Hb Hc. unfold doProcessEdge at 2. rewrite Ha, Hb. simpl.
  unfold doProcessEdge. simpl. rewrite Ha, Hc. eexists. split; [reflexivity|].
  simpl. rewrite !lookup_insert_eq. split; [done|]. split; [done|].
  intros Hne. rewrite lookup_insert_ne by done. by rewrite lookup_insert_eq.
Qed.

(** X10. The first failing line decides the outcome of [load]: the lines after
    it have no part in it. *)
Theorem load_first_failure (before more : list Line) (st : JsonStore) (l : Line)
    (e : Error) :
  onLines new_JsonStore before = Ok st ->
  onLine st l = Throw e ->
  load (before ++ l :: more) = Throw e /\ load (before ++ [l]) = Throw e.
Proof. intros Hb Hl. split; by eapply load_app_Throw. Qed.

Lemma processEdge_console (st st' : JsonStore) (e : Edge.t) :
  processEdge st e = Ok st' -> indices st' = indices st /\ console st' = console st.
Proof.
  unfold processEdge. intros H.
  destruct (Edge.inV e); [eapply doProcessEdge_indices; eauto|].
  destruct (Edge.inVs e); [eapply doProcessEdges_indices; eauto|].
  by simplify_eq.
Qed.

Lemma with_key_document (v : Vertex.t) (uri : string) (contents : option string) :
  Vertex.body (with_key v) = Vertex.document uri contents ->
  with_key v = v.
Proof.
  unfold with_key. destruct (Vertex.body v) eqn:Hb; try reflexivity.
  case_decide; [reflexivity|]. simpl. discriminate.
Qed.

Lemma onLines_console (lines : list Line) : forall (seen : list Vertex.t) (st st' : JsonStore),
  onLines st lines = Ok st' ->
  console st = [] ->
  (forall uri b, Indices.documents (indices st) !! uri = Some b ->
     exists d, d ∈ seen /\ Vertex.uri d = Some uri
               /\ document_hash d = Some (Bucket.hash b)) ->
  (forall v1 v2 uri,
     v1 ∈ seen ++ ingested_vertices lines -> v2 ∈ seen ++ ingested_vertices lines ->
     Vertex.uri v1 = Some uri -> Vertex.uri v2 = Some uri ->
     document_hash v1 = document_hash v2) ->
  console st' = [].
Proof.
  induction lines as [|l lines IH]; intros seen st st' H Hlog Hb Hcons; simpl in H.
  { by simplify_eq. }
  apply bind_Ok in H as (st1 & H1 & H2).
  unfold ingested_vertices in Hcons. simpl in Hcons.
  fold (ingested_vertices lines) in Hcons.
  unfold onLine in H1. case_decide as Ht; [simplify_eq; eauto|].
  destruct (JSON_parse l) as [[| |v|e]|]; simplify_eq; eauto.
  2:{ destruct (processEdge_console _ _ _ H1) as [Hi Hc].
      eapply (IH seen); eauto; [by rewrite Hc|by rewrite Hi]. }
  apply (IH (seen ++ [v]) _ _ H2).
  - unfold processVertex in H1.
    destruct (Vertex.body (with_key v)) eqn:Hbody;
      repeat case_match; simplify_eq; try exact Hlog.
    pose proof (with_key_document _ _ _ Hbody) as Hwk. rewrite Hwk in *.
    unfold doProcessDocument; simpl.
    destruct (Indices.documents (indices st) !! uri) as [b|] eqn:Hold; simpl.
    + destruct (Hb _ _ Hold) as (d & Hd & Hu & Hh).
      assert (document_hash v = document_hash d) as E.
      { apply (Hcons v d uri).
        - apply elem_of_app. right. apply list_elem_of_here.
        - apply elem_of_app. by left.
        - unfold Vertex.uri. by rewrite Hbody.
        - done. }
      unfold document_hash in E at 1. rewrite Hbody, Hh in E. simplify_eq.
      rewrite decide_True by done. exact Hlog.
    + rewrite decide_True by done. exact Hlog.
  - intros u b Hl. unfold processVertex in H1.
    destruct (Vertex.body (with_key v)) eqn:Hbody;
      repeat case_match; simplify_eq;
      try (destruct (Hb _ _ Hl) as (d & Hd & Hu & Hh); exists d;
           split; [apply elem_of_app; by left|done]).
    pose proof (with_key_document _ _ _ Hbody) as Hwk. rewrite Hwk in *.
    rewrite doProcessDocument_bucket in Hl. simpl in Hl.
    apply lookup_insert_Some in Hl as [[<- <-]|[_ Hl]].
    + simpl. destruct (Indices.documents (indices st) !! uri) as [b0|] eqn:Hold; simpl.
      * destruct (Hb _ _ Hold) as (d & Hd & Hu & Hh). exists d.
        split; [apply elem_of_app; by left|done].
      * exists v. split; [apply elem_of_app; right; apply list_elem_of_here|].
        unfold Vertex.uri, document_hash. by rewrite Hbody.
    + destruct (Hb _ _ Hl) as (d & Hd & Hu & Hh). exists d.
      split; [apply elem_of_app; by left|done].
  - intros v1 v2 u. rewrite <- !app_assoc. simpl. apply Hcons.
Qed.

(** X11. When the documents of a stream that share a URI all have the same
    digest, loading writes nothing to the error console. *)
Theorem consistent_documents_log_nothing (lines : list Line) (st : JsonStore) :
  load lines = Ok st ->
  (forall v1 v2 uri,
     v1 ∈ ingested_vertices lines -> v2 ∈ ingested_vertices lines ->
     Vertex.uri v1 = Some uri -> Vertex.uri v2 = Some uri ->
     document_hash v1 = document_hash v2) ->
  console st = [].
Proof.
  intros H Hcons. apply load_Ok in H.
  apply (onLines_console lines [] _ _ H); [reflexivity| |exact Hcons].
  intros uri b Hl. cbn in Hl. by rewrite lookup_empty in Hl.
Qed.

(** ** Ranges and positions *)

Ltac compare_lines :=
  repeat match goal with
         | |- context [Z.ltb ?a ?b] => destruct (Z.ltb_spec a b)
         | |- context [Z.gtb ?a ?b] => rewrite (Z.gtb_ltb a b)
         | |- context [Z.eqb ?a ?b] => destruct (Z.eqb_spec a b)
         | |- context [Z.leb ?a ?b] => destruct (Z.leb_spec a b)
         end.

Lemma containsRange_true (range otherRange : Range) :
  containsRange range otherRange = true
  <-> (line (start range) <= line (start otherRange) <= line (end_ range)
       /\ line (start range) <= line (end_ otherRange) <= line (end_ range)
       /\ (line (start otherRange) = line (start range) ->
           character (start range) <= character (start otherRange))
       /\ (line (end_ otherRange) = line (end_ range) ->
           character (end_ otherRange) <= character (end_ range)))%Z.
Proof.
  unfold containsRange.
  compare_lines; simpl; split; try discriminate; intros; try reflexivity; lia.
Qed.

(** X12. A position inside a range is inside every range that contains that
    range. *)
Theorem containsRange_containsPosition (outer inner : Range) (position : Position) :
  containsRange outer inner = true ->
  containsPosition inner position = true ->
  containsPosition outer position = true.
Proof.
  rewrite containsRange_true, !containsPosition_iff.
  unfold position_in_range. lia.
Qed.

(** X13. Containment of ranges is transitive. *)
Theorem containsRange_trans (a b c : Range) :
  containsRange a b = true -> containsRange b c = true -> containsRange a c = true.
Proof. rewrite !containsRange_true. lia. Qed.

(** X14. A range contains itself exactly when its start line is not after its
    end line; the characters play no part. *)
Theorem containsRange_refl (range : Range) :
  containsRange range range = (line (start range) <=? line (end_ range))%Z.
Proof.
  destruct (containsRange range range) eqn:E.
  - apply containsRange_true in E. symmetry. apply Z.leb_le. lia.
  - symmetry. apply Z.leb_gt.
    destruct (Z.lt_ge_cases (line (end_ range)) (line (start range))) as [|Hle]; [done|].
    assert (containsRange range range = true) as E'
      by (apply containsRange_true; lia).
    congruence.
Qed.

Lemma nests_inside_trans (a b c : Vertex.t) :
  nests_inside a b = true -> nests_inside b c = true -> nests_inside a c = true.
Proof.
  unfold nests_inside.
  destruct (Vertex.span a), (Vertex.span b), (Vertex.span c); try discriminate.
  rewrite !containsRange_true. lia.
Qed.

Lemma refine_minimal (later : list Vertex.t) : forall current : Vertex.t,
  let r := refine current later in
  (r = current \/ r ∈ later)
  /\ (r = current \/ nests_inside current r = true)
  /\ forall x, x ∈ later -> nests_inside r x = true -> nests_inside x r = true.
Proof.
  induction later as [|item later IH]; intros current; simpl.
  { split; [by left|]. split; [by left|]. intros x Hx. by apply elem_of_nil in Hx. }
  destruct (nests_inside current item) eqn:Hn.
  - destruct (IH item) as (Hin & Hup & Hmin).
    split; [right; destruct Hin as [->|Hin]; [left|by right]|].
    split.
    { right. destruct Hup as [->|Hup]; [done|]. by eapply nests_inside_trans. }
    intros x Hx Hrx. apply elem_of_cons in Hx as [->|Hx]; [|by apply Hmin].
    destruct Hup as [Hup|Hup]; [by rewrite Hup in *|done].
  - destruct (IH current) as (Hin & Hup & Hmin).
    split; [destruct Hin as [Hin|Hin]; [by left|right; by right]|].
    split; [done|].
    intros x Hx Hrx. apply elem_of_cons in Hx as [->|Hx]; [|by apply Hmin].
    assert (nests_inside current item = true) as Hc; [|congruence].
    destruct Hup as [Hup|Hup]; [by rewrite Hup in *|].
    by eapply nests_inside_trans.
Qed.

Lemma elem_of_candidates (position : Position) (contains : list Vertex.t) (x : Vertex.t) :
  x ∈ candidates position contains <-> x ∈ contains /\ is_candidate position x = true.
Proof.
  unfold candidates. rewrite !list_elem_of_In, List.filter_In. reflexivity.
Qed.

(** X15. The range [findRangeFromPosition] returns is one of the ranges the
    first document of the file contains, its span contains the position,
    and no range of that document that contains the position is strictly
    nested in it: each one that nests inside the answer has the answer
    nested inside it in turn. *)
Theorem findRangeFromPosition_innermost (st : JsonStore) (file : string)
    (position : Position) (r : Vertex.t) :
  findRangeFromPosition st file position = Ok (Some r) ->
  exists value document contains,
    Indices.documents (indices st) !! file = Some value
    /\ head (Bucket.documents value) = Some document
    /\ Out.contains (out st) !! Vertex.id document = Some contains
    /\ r ∈ contains
    /\ is_candidate position r = true
    /\ forall x, x ∈ contains -> is_candidate position x = true ->
                 nests_inside r x = true -> nests_inside x r = true.
Proof.
  unfold findRangeFromPosition, first_document_id. intros H.
  destruct (Indices.documents (indices st) !! file) as [value|] eqn:Hv; [|discriminate].
  destruct (Bucket.documents value) as [|document rest] eqn:Hd; [discriminate|].
  simpl in H.
  destruct (Out.contains (out st) !! Vertex.id document) as [contains|] eqn:Hco;
    [|discriminate].
  assert (fold_left (findRange_step position) contains None = Some r) as Hf.
  { destruct contains; [discriminate|]. by injection H. }
  clear H. rewrite fold_findRange_most_specific in Hf.
  exists value, document, contains.
  split; [done|]. split; [by rewrite Hd|]. split; [done|].
  destruct (candidates position contains) as [|first later] eqn:Hc; [discriminate|].
  simpl in Hf. injection Hf as <-.
  destruct (refine_minimal later first) as (Hin & Hup & Hmin).
  assert (refine first later ∈ candidates position contains) as Hr.
  { rewrite Hc. destruct Hin as [->|Hin]; [left|by right]. }
  apply elem_of_candidates in Hr as [Hr1 Hr2].
  split; [done|]. split; [done|].
  intros x Hx Hcand Hrx.
  assert (x ∈ first :: later) as Hx'
    by (rewrite <- Hc; by apply elem_of_candidates).
  apply elem_of_cons in Hx' as [->|Hx']; [|by apply Hmin].
  destruct Hup as [Hup|Hup]; [by rewrite Hup in *|done].
Qed.

(** ** Locations *)

(** X16. Adding a range a second time changes nothing: [addLocation] leaves the
    locations and the set of ids it has just produced as they are. *)
Theorem addLocation_idempotent (st : JsonStore) (result result' : list Location)
    (value : Vertex.t) (dedup dedup' : list Id) :
  addLocation st result value dedup = Ok (result', dedup') ->
  addLocation st result' value dedup' = Ok (result', dedup').
Proof.
  intros H. apply addLocation_Ok in H as [(Hin & -> & ->)|(_ & l & _ & _ & ->)];
    unfold addLocation.
  - by rewrite decide_True.
  - rewrite decide_True; [done|]. apply elem_of_app. right. apply list_elem_of_here.
Qed.

(** ** Hover *)

(** X17. With two turns of the loop or more, [hover] answers exactly when
    a range is found at the position and the hover edge of that range, or
    of the target of its [next] edge, names a vertex that has a [result].
    For a hover result the contents are its contents and the range is its
    own range, or the range vertex itself when it has none; for a vertex
    whose result is an array the contents are [undefined] and the range
    is the range vertex. *)
Theorem hover_answer (fuel : nat) (st : JsonStore) (uri : string)
    (position : Position) (h : Hover) :
  (2 <= fuel)%nat ->
  hover fuel st uri position = Ok (Some h)
  <-> exists range attached anchorId,
        findRangeFromPosition st (toDatabase uri) position = Ok (Some range)
        /\ found st (Out.hover (out st)) (Vertex.id range) attached anchorId
        /\ ((exists contents hoverRange,
               Vertex.body attached = Vertex.hoverResult contents hoverRange
               /\ h = {| Hover_contents := Some contents;
                         Hover_range := match hoverRange with
                                        | Some hoverRange => ofResult hoverRange
                                        | None => ofVertex range
                                        end |})
            \/ (array_result attached = true
                /\ h = {| Hover_contents := None; Hover_range := ofVertex range |})).
Proof.
  intros Hfuel. unfold hover. split.
  - intros H. apply bind_Ok in H as (range & Hr & H).
    destruct range as [range|]; [|discriminate].
    apply bind_Ok in H as ([attached anchorId] & Hg & H).
    destruct attached as [attached|]; [|discriminate].
    exists range, attached, anchorId.
    apply getResultForId_Ok in Hg as [He Ha].
    split; [done|]. split.
    { destruct Ha as [->|(next & H0 & Hn & ->)]; [by left|].
      right. split; [done|]. by exists next. }
    unfold array_result.
    destruct (Vertex.body attached) as [| | | | | | | | | | | | | | |contents [r|]| | |]
      eqn:Hb; try discriminate; simplify_eq; try (right; split; reflexivity);
      left; eexists _, _; split; reflexivity.
  - intros (range & attached & anchorId & Hr & Hf & Hcases).
    rewrite Hr. simpl.
    assert (getResultForId fuel st (Vertex.id range) (Out.hover (out st))
            = Ok (Some attached, anchorId)) as ->.
    { destruct fuel as [|[|fuel]]; try lia.
      destruct Hf as [[H0 ->]|(H0 & next & Hn & He & ->)].
      - by apply getResultForId_here.
      - by apply getResultForId_next. }
    simpl. destruct Hcases as [(contents & hoverRange & Hb & ->)|[Ha ->]].
    + rewrite Hb. by destruct hoverRange.
    + unfold array_result in Ha.
      destruct (Vertex.body attached); try discriminate; reflexivity.
Qed.

(** ** Declarations *)

Lemma load_declaration_empty (lines : list Line) (st : JsonStore) :
  load lines = Ok st ->
  Out.declaration (out st) = ∅ /\ Out.implementation (out st) = ∅.
Proof.
  apply (load_invariant
           (fun st => Out.declaration (out st) = ∅ /\ Out.implementation (out st) = ∅)).
  - split; reflexivity.
  - intros st0 v st' HP H. apply processVertex_adjacency in H as [-> _]. exact HP.
  - intros st0 label outV inV property st' [HP1 HP2] H.
    unfold doProcessEdge in H.
    repeat case_match; simplify_eq; split; assumption.
Qed.

(** X18. No record of a stream fills [out.declaration] or
    [out.implementation]: edges with the labels
    [textDocument/declaration] and [textDocument/implementation] are
    accepted, when both their ends are known, and recorded nowhere. *)
Theorem loaded_no_declaration_results (lines : list Line) (st : JsonStore) :
  load lines = Ok st ->
  Out.declaration (out st) = ∅ /\ Out.implementation (out st) = ∅.
Proof. apply load_declaration_empty. Qed.

(** X19. In a loaded store [declarations] never answers with locations: it
    returns nothing when no range is at the position or the range found
    has no [next] edge, and it does not return at all when the range has a
    [next] edge. *)
Theorem declarations_never_answers (lines : list Line) (st : JsonStore)
    (uri : string) (position : Position) :
  load lines = Ok st ->
  (forall fuel r, declarations fuel st uri position = Ok r -> r = None)
  /\ (forall range next,
        findRangeFromPosition st (toDatabase uri) position = Ok (Some range) ->
        Out.next (out st) !! Vertex.id range = Some next ->
        forall fuel, declarations fuel st uri position = OutOfFuel)
  /\ (forall range fuel,
        findRangeFromPosition st (toDatabase uri) position = Ok (Some range) ->
        Out.next (out st) !! Vertex.id range = None ->
        declarations (S fuel) st uri position = Ok None).
Proof.
  intros Hload.
  destruct (load_declaration_empty lines st Hload) as [Hempty _].
  unfold declarations. rewrite Hempty. split; [|split].
  - intros fuel r H. apply bind_Ok in H as (range & Hr & H).
    destruct range as [range|]; [|by simplify_eq].
    apply bind_Ok in H as ([declarationResult anchorId] & Hg & H).
    apply getResultForId_Ok in Hg.
    destruct declarationResult as [d|]; [|by simplify_eq].
    destruct Hg as [Hd _]. by rewrite lookup_empty in Hd.
  - intros range next Hr Hn fuel. rewrite Hr. simpl.
    by rewrite (getResultForId_stuck st (Vertex.id range) ∅ next
                  (lookup_empty _) Hn (lookup_empty _) fuel).
  - intros range fuel Hr Hn. rewrite Hr. simpl.
    unfold getResultForId. simpl. rewrite lookup_empty, Hn. reflexivity.
Qed.

(** ** Document symbols *)

Lemma toDocumentSymbol_dropped (st : JsonStore) (value : RangeBasedDocumentSymbol)
    (range : Vertex.t) :
  Vertices.ranges (vertices st) !! RangeBased_id value = Some range ->
  names_symbol range = false ->
  toDocumentSymbol st value = Ok None.
Proof.
  destruct value as [id children]. simpl. intros -> Hn.
  unfold names_symbol in Hn.
  destruct (Vertex.body range) as [| | | | | |span [[]|]| | | | | | | | | | | |];
    try reflexivity; discriminate.
Qed.

Lemma convertSymbols_omap (st : JsonStore) (l : list RangeBasedDocumentSymbol) :
  forall result r : list DocumentSymbol,
  convertSymbols st l result = Ok r
  <-> exists converted : list (option DocumentSymbol),
        Forall2 (fun item c => toDocumentSymbol st item = Ok c) l converted
        /\ r = result ++ omap id converted.
Proof.
  induction l as [|item l IH]; intros result r.
  - simpl. split.
    + intros H. exists []. split; [constructor|]. simpl. rewrite app_nil_r. congruence.
    + intros (converted & Hall & ->). apply Forall2_nil_inv_l in Hall as ->.
      simpl. by rewrite app_nil_r.
  - cbn [convertSymbols]. split.
    + intros H. apply bind_Ok in H as (c & Hc & H).
      apply IH in H as (converted & Hall & ->).
      exists (c :: converted). split; [by constructor|].
      destruct c; simpl; [|reflexivity]. by rewrite <- app_assoc.
    + intros (converted & Hall & ->).
      apply Forall2_cons_inv_l in Hall as (c & converted' & Hc & Hall & ->).
      rewrite Hc. simpl. apply IH. exists converted'. split; [done|].
      destruct c; simpl; [|reflexivity]. by rewrite <- app_assoc.
Qed.

(** X20. The entries of a range based result are converted one by one, in
    order: the symbols [convertSymbols] adds are the conversions of the
    entries that convert, entries that do not are left out, and the loop
    fails only when the conversion of an entry fails. *)
Theorem convertSymbols_in_order (st : JsonStore) (l : list RangeBasedDocumentSymbol)
    (result r : list DocumentSymbol) :
  convertSymbols st l result = Ok r
  <-> exists converted : list (option DocumentSymbol),
        Forall2 (fun item c => toDocumentSymbol st item = Ok c) l converted
        /\ r = result ++ omap id converted.
Proof. apply convertSymbols_omap. Qed.

(** X21. A range based result that lists entries none of which carries a
    [declaration] or [definition] tag yields the empty list of symbols,
    not the absent answer an empty result yields. *)
Theorem documentSymbols_nothing_converts (st : JsonStore) (uri : string)
    (value : Bucket.t) (document documentSymbolResult : Vertex.t)
    (result : list RangeBasedDocumentSymbol) :
  Indices.documents (indices st) !! toDatabase uri = Some value ->
  head (Bucket.documents value) = Some document ->
  Out.documentSymbol (out st) !! Vertex.id document = Some documentSymbolResult ->
  Vertex.body documentSymbolResult = Vertex.documentSymbolResult (rangeBased result) ->
  result <> [] ->
  Forall (fun item => exists range,
            Vertices.ranges (vertices st) !! RangeBased_id item = Some range
            /\ names_symbol range = false) result ->
  documentSymbols st uri = Ok (Some []).
Proof.
  intros Hv Hd Hs Hb Hne Hall.
  unfold documentSymbols, first_document_id. rewrite Hv.
  destruct (Bucket.documents value) as [|d rest]; [discriminate|].
  injection Hd as ->. simpl. rewrite Hs, Hb.
  destruct result as [|item result]; [done|].
  assert (convertSymbols st (item :: result) [] = Ok []) as ->; [|reflexivity].
  apply convertSymbols_omap.
  exists (replicate (length (item :: result)) None). split.
  - clear Hne Hb. revert Hall. generalize (item :: result). intros l Hall.
    induction Hall as [|x l (range & Hr & Hn) _ IH]; simpl; constructor; [|done].
    by eapply toDocumentSymbol_dropped.
  - generalize (length (item :: result)). intros n. induction n; simpl; done.
Qed.

End Store.

(** ** The statements at sample streams

    The sample stores are named by the run that builds them, and every
    fact about them is obtained by evaluation. *)

Lemma store_of_Ok (o : outcome JsonStore) : is_Ok o = true -> o = Ok (store_of o).
Proof. destruct o; simpl; intros H; try discriminate; reflexivity. Qed.

Ltac by_evaluation := vm_compute; reflexivity.
Ltac loaded := apply store_of_Ok; by_evaluation.

Lemma load_malformed_line_witness :
  load Sample.md5_base64 Sample.JSON_stringify_si Sample.URI_parse
    (Sample.header "0.4.100" ++ [Sample.malformed])
  = Throw (SyntaxError "{oops").
Proof.
  eapply (proj1 (load_malformed_line Sample.md5_base64 Sample.JSON_stringify_si
                   Sample.URI_parse (Sample.header "0.4.100") []
                   (store_of (onLines Sample.md5_base64 Sample.JSON_stringify_si
                                Sample.URI_parse new_JsonStore (Sample.header "0.4.100")))
                   Sample.malformed ltac:(loaded) ltac:(discriminate))).
  reflexivity.
Defined.

(** C8, as stated, fails: a stream with the record [{}], which has no
    discriminator, loads. *)
Lemma load_record_without_discriminator :
  exists st,
    load Sample.md5_base64 Sample.JSON_stringify_si Sample.URI_parse
      (Sample.header "0.4.100" ++ [Sample.untyped]) = Ok st.
Proof. eexists. loaded. Qed.

Lemma load_dangling_edge_witness :
  exists id,
    load Sample.md5_base64 Sample.JSON_stringify_si Sample.URI_parse
      (Sample.header "0.4.100" ++ [Sample.dangling_edge]) = Throw (NoVertexFound id)
    /\ id = IdNum 99.
Proof.
  destruct (load_dangling_edge Sample.md5_base64 Sample.JSON_stringify_si
              Sample.URI_parse (Sample.header "0.4.100") []
              (store_of (onLines Sample.md5_base64 Sample.JSON_stringify_si
                           Sample.URI_parse new_JsonStore (Sample.header "0.4.100")))
              Sample.dangling_edge _
              ltac:(loaded) ltac:(discriminate) eq_refl ltac:(discriminate))
    as (id & Hload & Hid & _ & _).
  - exists (IdNum 99). split; [right; apply list_elem_of_here|].
    vm_compute. intros H. repeat (inversion H as [|? ? ? H']; subst; clear H; rename H' into H).
  - exists id. split; [exact Hload|].
    vm_compute in Hload. congruence.
Defined.

(** C6, as stated, fails: an edge without targets whose [outV] is the id
    of no vertex does not stop the load. *)
Lemma load_edge_without_targets :
  exists st,
    load Sample.md5_base64 Sample.JSON_stringify_si Sample.URI_parse
      (Sample.header "0.4.100" ++ [Sample.edge_without_targets]) = Ok st
    /\ Vertices.all (vertices st) !! IdNum 99 = None.
Proof. eexists. split; [loaded|by_evaluation]. Qed.

Lemma divergent_document_not_fatal_witness :
  exists st',
    onLines Sample.md5_base64 Sample.JSON_stringify_si Sample.URI_parse new_JsonStore
      (Sample.header "0.4.100"
       ++ [ {| text := "vertex"; JSON_parse := Some (JVertex Sample.first_document) |};
            {| text := "vertex"; JSON_parse := Some (JVertex Sample.second_document) |} ])
    = Ok st'
    /\ findFile st' "file:///root/a.ts" = Ok (Some (IdNum 3, "one"))
    /\ Vertices.documents (vertices st') !! IdNum 4 = Some Sample.second_document
    /\ console st' = ["Document file:///root/a.ts has different content."].
Proof.
  destruct (divergent_document_not_fatal Sample.md5_base64 Sample.JSON_stringify_si
              Sample.URI_parse
              (Sample.header "0.4.100"
               ++ [ {| text := "vertex";
                       JSON_parse := Some (JVertex Sample.first_document) |} ])
              []
              (store_of
                 (onLines Sample.md5_base64 Sample.JSON_stringify_si Sample.URI_parse
                    new_JsonStore
                    (Sample.header "0.4.100"
                     ++ [ {| text := "vertex";
                             JSON_parse := Some (JVertex Sample.first_document) |} ])))
              {| text := "vertex"; JSON_parse := Some (JVertex Sample.second_document) |}
              Sample.second_document "file:///root/a.ts" (Some "two")
              {| Bucket.hash := "one"; Bucket.documents := [Sample.first_document] |}
              ltac:(loaded) ltac:(discriminate) eq_refl eq_refl ltac:(by_evaluation)
              ltac:(discriminate))
    as (st' & first & rest & c & Hline & Hlines & Hd & _ & _ & _ & _ & Hfile & _
        & Hdoc & _ & Hlog).
  exists st'. split.
  - rewrite <- (app_assoc (Sample.header "0.4.100") [_] [_]) in Hlines. exact Hlines.
  - simpl in Hd. injection Hd as <- <-.
    split; [exact Hfile|]. split; [exact Hdoc|].
    rewrite Hlog. by_evaluation.
Defined.

Lemma version_gate_witness :
  onClose (set_version (Some "0.5.0-next.2")
             (set_projectRoot (Some "file:///root") new_JsonStore)) = Ok tt.
Proof.
  destruct (version_gate
              (set_version (Some "0.5.0-next.2")
                 (set_projectRoot (Some "file:///root") new_JsonStore))
              "file:///root" "0.5.0-next.2" eq_refl eq_refl)
    as (_ & _ & _ & _ & _ & _ & _ & _ & _ & H & _).
  exact (H eq_refl).
Defined.

(** C4, as stated, fails at 0.5.0: a stream whose meta data carries that
    version is rejected. *)
Lemma load_rejects_0_5_0 :
  load Sample.md5_base64 Sample.JSON_stringify_si Sample.URI_parse (Sample.header "0.5.0")
  = Throw (RequiresVersion "0.5.0").
Proof. by_evaluation. Qed.

Lemma findRangeFromPosition_most_specific_witness :
  exists st,
    load Sample.md5_base64 Sample.JSON_stringify_si Sample.URI_parse Sample.nested_ranges
    = Ok st
    /\ findRangeFromPosition st "file:///root/a.ts" {| line := 3; character := 0 |}
       = Ok (Some Sample.R2).
Proof.
  eexists. split; [loaded|].
  match goal with
  | |- findRangeFromPosition ?st ?file ?position = _ =>
      destruct (findRangeFromPosition_most_specific Sample.md5_base64
                  Sample.JSON_stringify_si Sample.URI_parse Sample.nested_ranges
                  st file position ltac:(loaded))
        as (_ & _ & _ & H);
      destruct (H {| Bucket.hash := "No content provided.";
                     Bucket.documents :=
                       [Sample.V 3 (Vertex.document "file:///root/a.ts" None)] |}
                  ltac:(by_evaluation))
        as (document & Hd & _ & Hex)
  end.
  assert (document = Sample.V 3 (Vertex.document "file:///root/a.ts" None)) as ->.
  { vm_compute in Hd. injection Hd as <-. reflexivity. }
  apply (Hex (IdNum 4) (IdNum 5) 0%Z 0%Z 4%Z 1%Z None None [Sample.R1; Sample.R2]
           ltac:(by_evaluation));
    [left; reflexivity|reflexivity].
Defined.

Lemma documentSymbols_empty_result_witness :
  exists st,
    load Sample.md5_base64 Sample.JSON_stringify_si Sample.URI_parse Sample.empty_symbols
    = Ok st
    /\ documentSymbols Sample.toDatabase st "file:///root/a.ts" = Ok None.
Proof.
  eexists. split; [loaded|].
  match goal with
  | |- documentSymbols _ ?st ?uri = _ =>
      eapply (proj1 (documentSymbols_empty_result Sample.toDatabase st uri)
                (Sample.V 3 (Vertex.document "file:///root/a.ts" None))
                (Sample.V 6 (Vertex.documentSymbolResult (rangeBased [])))
                (rangeBased []))
  end; by_evaluation.
Defined.

(** C1, at a chain of two [next] edges. The hover result is attached to the
    third vertex of the chain of range 3; the walk reads the [next] edge of
    the starting id at every turn, never reaches vertex 5, and returns
    nothing, whatever the number of turns. *)
Theorem getResultForId_misses_third_vertex :
  exists st,
    load Sample.md5_base64 Sample.JSON_stringify_si Sample.URI_parse Sample.hover_chain
    = Ok st
    /\ Out.next (out st) !! IdNum 3 = Some (Sample.V 4 Vertex.resultSet)
    /\ Out.next (out st) !! IdNum 4 = Some (Sample.V 5 Vertex.resultSet)
    /\ Out.hover (out st) !! IdNum 3 = None
    /\ Out.hover (out st) !! IdNum 4 = None
    /\ Out.hover (out st) !! IdNum 5 = Some Sample.hover_result
    /\ forall fuel,
         getResultForId fuel st (IdNum 3) (Out.hover (out st)) = OutOfFuel.
Proof.
  eexists. split; [loaded|].
  do 5 (split; [by_evaluation|]).
  apply (getResultForId_stuck _ _ _ (Sample.V 4 Vertex.resultSet)); by_evaluation.
Qed.

(** A chain of one [next] edge with nothing attached: neither walk returns.
    [getResultForId] from the range and [findMonikers] from the result set
    read the pointer of the starting id at every turn. *)
Lemma chain_walks_spin_on_bare_chain :
  exists st,
    load Sample.md5_base64 Sample.JSON_stringify_si Sample.URI_parse Sample.bare_chain
    = Ok st
    /\ (forall fuel,
          getResultForId fuel st (IdNum 3) (Out.references (out st)) = OutOfFuel)
    /\ (forall fuel result, findMonikers fuel st result (IdNum 4) = OutOfFuel).
Proof.
  eexists. split; [loaded|]. split.
  - apply (getResultForId_stuck _ _ _ (Sample.V 4 Vertex.resultSet)); by_evaluation.
  - intros fuel result. revert fuel.
    apply (findMonikers_stuck _ _ _ (Sample.V 3 (Vertex.range (Sample.span 0 0 0 5) None)));
      by_evaluation.
Qed.

(** C2, as stated, fails: the store loaded from a stream whose [next] edges
    form a cycle is finite, and neither walk terminates on it. *)
Lemma chain_walks_cycle :
  exists st,
    load Sample.md5_base64 Sample.JSON_stringify_si Sample.URI_parse Sample.cyclic_chain
    = Ok st
    /\ (forall fuel,
          getResultForId fuel st (IdNum 3) (Out.references (out st)) = OutOfFuel)
    /\ (forall fuel result, findMonikers fuel st result (IdNum 3) = OutOfFuel).
Proof.
  eexists. split; [loaded|]. split.
  - apply (getResultForId_stuck _ _ _ (Sample.V 4 Vertex.resultSet)); by_evaluation.
  - intros fuel result. revert fuel.
    apply (findMonikers_stuck _ _ _ (Sample.V 4 Vertex.resultSet)); by_evaluation.
Qed.

Lemma chain_walks_terminate_witness :
  exists st,
    load Sample.md5_base64 Sample.JSON_stringify_si Sample.URI_parse Sample.attached_chain
    = Ok st
    /\ (exists r, forall fuel, (2 <= fuel)%nat ->
          getResultForId fuel st (IdNum 3) (Out.references (out st)) = Ok r)
    /\ (exists r, forall fuel, (2 <= fuel)%nat ->
          findMonikers fuel st [] (IdNum 4) = Ok r).
Proof.
  eexists. split; [loaded|]. split.
  - apply (proj1 (chain_walks_terminate _ (IdNum 3) _ [])).
    right. right. exists (Sample.V 4 Vertex.resultSet). split; [by_evaluation|].
    exists (Sample.V 5 Vertex.referenceResult). by_evaluation.
  - eapply (proj2 (chain_walks_terminate _ (IdNum 4) ∅ [])).
    right. right. exists (Sample.V 3 (Vertex.range (Sample.span 0 0 0 5) None)).
    split; [by_evaluation|].
    exists (Sample.V 6 (Vertex.moniker "tsc" "lib:foo" (Some MonikerKind.export)
                          (Some "tsc:lib:foo"))).
    by_evaluation.
Defined.



Lemma references_deduplicated_closure_witness :
  (exists fuel locations,
      forall fuel', (fuel <= fuel')%nat ->
        references Sample.toDatabase Sample.fromDatabase fuel'
          (store_of (load Sample.md5_base64 Sample.JSON_stringify_si Sample.URI_parse
                       (Sample.symbols [])))
          "file:///root/x.ts" {| line := 0; character := 2 |} true
        = Ok (Some locations))
  /\ exists r location,
       Vertex.id r = IdNum 21
       /\ location_of Sample.fromDatabase
            (store_of (load Sample.md5_base64 Sample.JSON_stringify_si Sample.URI_parse
                         (Sample.symbols []))) r = Some location
       /\ location ∈ [Sample.location_A; Sample.location_B].
Proof.
  destruct (references_deduplicated_closure Sample.toDatabase Sample.fromDatabase
              (store_of (load Sample.md5_base64 Sample.JSON_stringify_si Sample.URI_parse
                           (Sample.symbols [])))
              "file:///root/x.ts" {| line := 0; character := 2 |} true)
    as [Hreturned Hreturns].
  assert (found (store_of (load Sample.md5_base64 Sample.JSON_stringify_si
                             Sample.URI_parse (Sample.symbols [])))
            (Out.references
               (out (store_of (load Sample.md5_base64 Sample.JSON_stringify_si
                                 Sample.URI_parse (Sample.symbols [])))))
            (IdNum 11) (Sample.V 13 Vertex.referenceResult) (IdNum 12)) as Hfound.
  { right. split; [by_evaluation|]. exists (Sample.V 12 Vertex.resultSet).
    split; [by_evaluation|]. split; [by_evaluation|reflexivity]. }
  split.
  - apply (Hreturns Sample.range_A (Sample.V 13 Vertex.referenceResult) (IdNum 12)
             (Sample.V 14 (Vertex.moniker "tsc" "lib:foo" (Some MonikerKind.export)
                             (Some "tsc:lib:foo")))
             3%nat).
    + by_evaluation.
    + exact Hfound.
    + left. by_evaluation.
    + vm_compute. repeat constructor; eexists; reflexivity.
    + intros pending key matching moniker vertex _ _ Hidx Hin Hv.
      assert (Indices.monikers
                (indices (store_of (load Sample.md5_base64 Sample.JSON_stringify_si
                                      Sample.URI_parse (Sample.symbols []))))
              = {[ "tsc:lib:foo" :=
                     [ Sample.V 14 (Vertex.moniker "tsc" "lib:foo"
                                      (Some MonikerKind.export) (Some "tsc:lib:foo"));
                       Sample.V 24 (Vertex.moniker "tsc" "lib:foo"
                                      (Some MonikerKind.import) (Some "tsc:lib:foo")) ] ]})
        as E by by_evaluation.
      rewrite E in Hidx. apply lookup_singleton_Some in Hidx as [<- <-].
      clear E.
      apply elem_of_cons in Hin as [->|Hin];
        [|apply elem_of_cons in Hin as [->|Hin]; [|by apply elem_of_nil in Hin]].
      * assert (vertex = Sample.V 12 Vertex.resultSet) as ->
          by (vm_compute in Hv; injection Hv as <-; reflexivity).
        clear Hv. split; [left; exists (Sample.V 13 Vertex.referenceResult); by_evaluation|].
        intros result anchorId [[H _]|[H _]]; vm_compute in H; [|discriminate].
        injection H as <-. vm_compute. repeat constructor; eexists; reflexivity.
      * assert (vertex = Sample.V 22 Vertex.resultSet) as ->
          by (vm_compute in Hv; injection Hv as <-; reflexivity).
        clear Hv. split; [left; exists Sample.result_B; by_evaluation|].
        intros result anchorId [[H _]|[H _]]; vm_compute in H; [|discriminate].
        injection H as <-. vm_compute. repeat constructor; eexists; reflexivity.
  - destruct (Hreturned 10%nat [Sample.location_A; Sample.location_B]
                ltac:(by_evaluation)) as (_ & _ & Hincludes).
    apply (Hincludes Sample.range_A (Sample.V 13 Vertex.referenceResult) (IdNum 12)
             (Sample.V 14 (Vertex.moniker "tsc" "lib:foo" (Some MonikerKind.export)
                             (Some "tsc:lib:foo")))
             "tsc:lib:foo"
             [ Sample.V 14 (Vertex.moniker "tsc" "lib:foo" (Some MonikerKind.export)
                              (Some "tsc:lib:foo"));
               Sample.V 24 (Vertex.moniker "tsc" "lib:foo" (Some MonikerKind.import)
                              (Some "tsc:lib:foo")) ]
             (Sample.V 24 (Vertex.moniker "tsc" "lib:foo" (Some MonikerKind.import)
                             (Some "tsc:lib:foo")))
             (Sample.V 22 Vertex.resultSet) Sample.result_B (IdNum 22)
             Sample.range_B [Sample.location_A] [IdNum 11] []
             (Sample.V 14 (Vertex.moniker "tsc" "lib:foo" (Some MonikerKind.export)
                             (Some "tsc:lib:foo")))).
    + by_evaluation.
    + exact Hfound.
    + left. by_evaluation.
    + reflexivity.
    + by_evaluation.
    + apply list_elem_of_further, list_elem_of_here.
    + by_evaluation.
    + by_evaluation.
    + discriminate.
    + by_evaluation.
    + left. split; [by_evaluation|reflexivity].
    + eapply (contributes_references _ _ _
                [Typed ItemEdgeProperties.references Sample.range_B]);
        [by_evaluation|apply list_elem_of_here].
Defined.

(** C3, as stated, fails when the reference result of the anchor names the
    other moniker in a [referenceLinks] item: moniker 24 shares the key of
    the anchor's moniker 14 and the reference result 23 found for its
    vertex contributes range 21, yet the query on A returns the location
    of A alone. *)
Lemma references_misses_linked_moniker :
  exists st,
    load Sample.md5_base64 Sample.JSON_stringify_si Sample.URI_parse
      (Sample.symbols [Sample.link_to_B]) = Ok st
    /\ references Sample.toDatabase Sample.fromDatabase 10 st "file:///root/x.ts"
         {| line := 0; character := 2 |} true
       = Ok (Some [Sample.location_A])
    /\ found st (Out.references (out st)) (IdNum 11)
         (Sample.V 13 Vertex.referenceResult) (IdNum 12)
    /\ moniker_of st (IdNum 12)
         (Sample.V 14 (Vertex.moniker "tsc" "lib:foo" (Some MonikerKind.export)
                         (Some "tsc:lib:foo")))
    /\ Indices.monikers (indices st) !! "tsc:lib:foo"
       = Some [ Sample.V 14 (Vertex.moniker "tsc" "lib:foo" (Some MonikerKind.export)
                               (Some "tsc:lib:foo"));
                Sample.V 24 (Vertex.moniker "tsc" "lib:foo" (Some MonikerKind.import)
                               (Some "tsc:lib:foo")) ]
    /\ findVertexForMoniker st
         (Sample.V 24 (Vertex.moniker "tsc" "lib:foo" (Some MonikerKind.import)
                         (Some "tsc:lib:foo")))
       = Some (Sample.V 22 Vertex.resultSet)
    /\ found st (Out.references (out st)) (IdNum 22) Sample.result_B (IdNum 22)
    /\ contributes st true Sample.result_B Sample.range_B
    /\ location_of Sample.fromDatabase st Sample.range_B = Some Sample.location_B
    /\ Sample.location_B ∉ [Sample.location_A].
Proof.
  eexists. split; [loaded|].
  split; [by_evaluation|].
  split.
  { right. split; [by_evaluation|]. exists (Sample.V 12 Vertex.resultSet).
    split; [by_evaluation|]. split; [by_evaluation|reflexivity]. }
  split; [left; by_evaluation|].
  split; [by_evaluation|].
  split; [by_evaluation|].
  split; [left; split; [by_evaluation|reflexivity]|].
  split.
  { eapply (contributes_references _ _ _ [Typed ItemEdgeProperties.references Sample.range_B]);
      [by_evaluation|apply list_elem_of_here]. }
  split; [by_evaluation|].
  intros H. apply list_elem_of_singleton in H. discriminate.
Qed.

(** ** The properties of the store and of the queries at sample streams *)

Lemma loaded_typed_collections_witness :
  typed_collections
    (store_of (load Sample.md5_base64 Sample.JSON_stringify_si Sample.URI_parse
                 (Sample.symbols []))).
Proof.
  apply (loaded_typed_collections Sample.md5_base64 Sample.JSON_stringify_si
           Sample.URI_parse (Sample.symbols [])).
  loaded.
Defined.

Lemma loaded_referential_integrity_witness :
  referential_integrity
    (store_of (load Sample.md5_base64 Sample.JSON_stringify_si Sample.URI_parse
                 (Sample.symbols [Sample.link_to_B]))).
Proof.
  apply (loaded_referential_integrity Sample.md5_base64 Sample.JSON_stringify_si
           Sample.URI_parse (Sample.symbols [Sample.link_to_B])).
  loaded.
Defined.

Lemma loaded_moniker_index_witness :
  exists ms,
    Indices.monikers
      (indices (store_of (load Sample.md5_base64 Sample.JSON_stringify_si
                            Sample.URI_parse (Sample.symbols []))))
    !! "tsc:lib:foo" = Some ms
    /\ with_key Sample.md5_base64 Sample.JSON_stringify_si Sample.moniker_B ∈ ms.
Proof.
  apply (proj2 (loaded_moniker_index Sample.md5_base64 Sample.JSON_stringify_si
                  Sample.URI_parse (Sample.symbols []) _ ltac:(loaded))
           Sample.moniker_B "tsc" "lib:foo" (Some MonikerKind.import) None).
  - vm_compute. do 12 apply list_elem_of_further. apply list_elem_of_here.
  - reflexivity.
  - discriminate.
Defined.

Lemma loaded_file_content_witness :
  exists document contents,
    canonical_document
      (store_of (load Sample.md5_base64 Sample.JSON_stringify_si Sample.URI_parse
                   Sample.nested_ranges)) "file:///root/a.ts" = Some document
    /\ findFile
         (store_of (load Sample.md5_base64 Sample.JSON_stringify_si Sample.URI_parse
                      Sample.nested_ranges)) "file:///root/a.ts"
       = Ok (Some (Vertex.id document, "No content provided."))
    /\ fileContent
         (store_of (load Sample.md5_base64 Sample.JSON_stringify_si Sample.URI_parse
                      Sample.nested_ranges))
         (Vertex.id document, "No content provided.") = Some contents
    /\ Sample.md5_base64 contents = "No content provided.".
Proof.
  apply (loaded_file_content Sample.md5_base64 Sample.JSON_stringify_si
           Sample.URI_parse Sample.nested_ranges _ "file:///root/a.ts"
           {| Bucket.hash := "No content provided.";
              Bucket.documents :=
                [Sample.V 3 (Vertex.document "file:///root/a.ts" None)] |}
           ltac:(loaded) ltac:(by_evaluation)).
Defined.

Lemma loaded_vertices_witness :
  Vertices.all
    (vertices (store_of (load Sample.md5_base64 Sample.JSON_stringify_si
                           Sample.URI_parse (Sample.symbols []))))
  !! IdNum 11 = Some Sample.range_A.
Proof.
  rewrite (loaded_vertices Sample.md5_base64 Sample.JSON_stringify_si Sample.URI_parse
             (Sample.symbols []) _ (IdNum 11) ltac:(loaded)).
  by_evaluation.
Defined.

Lemma loaded_root_and_version_witness :
  exists rootUri root ver semVer,
    last (rootUris (Sample.symbols [])) = Some rootUri
    /\ Sample.URI_parse rootUri = Some root
    /\ projectRoot (store_of (load Sample.md5_base64 Sample.JSON_stringify_si
                                Sample.URI_parse (Sample.symbols []))) = Some root
    /\ last (versions (Sample.symbols [])) = Some (Some ver)
    /\ version (store_of (load Sample.md5_base64 Sample.JSON_stringify_si
                            Sample.URI_parse (Sample.symbols []))) = Some ver
    /\ SemVer.parse ver = Some semVer
    /\ SemVer.satisfies semVer (supported_range true) = true.
Proof.
  apply (loaded_root_and_version Sample.md5_base64 Sample.JSON_stringify_si
           Sample.URI_parse (Sample.symbols [])).
  loaded.
Defined.

Lemma contains_edge_appends_witness :
  exists st',
    processEdge
      (store_of (load Sample.md5_base64 Sample.JSON_stringify_si Sample.URI_parse
                   Sample.nested_ranges))
      (edge_1N EdgeLabels.contains (IdNum 3) [IdNum 5; IdNum 4] None) = Ok st'
    /\ default [] (Out.contains (out st') !! IdNum 3)
       = [Sample.R1; Sample.R2; Sample.R2; Sample.R1].
Proof.
  destruct (contains_edge_appends
              (store_of (load Sample.md5_base64 Sample.JSON_stringify_si
                           Sample.URI_parse Sample.nested_ranges))
              (IdNum 3) (Sample.V 3 (Vertex.document "file:///root/a.ts" None))
              [IdNum 5; IdNum 4] [Sample.R2; Sample.R1] None
              ltac:(by_evaluation)
              ltac:(repeat constructor; by_evaluation))
    as (st' & Hst & Hout & _).
  exists st'. split; [exact Hst|].
  etransitivity; [exact Hout|]. by_evaluation.
Defined.

Lemma next_edge_last_write_wins_witness :
  exists st',
    (doProcessEdge
       (store_of (load Sample.md5_base64 Sample.JSON_stringify_si Sample.URI_parse
                    Sample.bare_chain))
       EdgeLabels.next (IdNum 3) (IdNum 4) None ≫= fun s =>
     doProcessEdge s EdgeLabels.next (IdNum 3) (IdNum 2) None) = Ok st'
    /\ Out.next (out st') !! IdNum 3 = Some (Sample.V 2 (Vertex.group (Some "file:///root")))
    /\ In.previous (in_ st') !! IdNum 4
       = Some (Sample.V 3 (Vertex.range (Sample.span 0 0 0 5) None)).
Proof.
  destruct (next_edge_last_write_wins
              (store_of (load Sample.md5_base64 Sample.JSON_stringify_si
                           Sample.URI_parse Sample.bare_chain))
              (IdNum 3) (IdNum 4) (IdNum 2)
              (Sample.V 3 (Vertex.range (Sample.span 0 0 0 5) None))
              (Sample.V 4 Vertex.resultSet)
              (Sample.V 2 (Vertex.group (Some "file:///root")))
              None None
              ltac:(by_evaluation) ltac:(by_evaluation) ltac:(by_evaluation))
    as (st' & Hst & Hout & _ & Hin).
  exists st'. split; [exact Hst|]. split; [exact Hout|].
  apply Hin. discriminate.
Defined.

Lemma load_first_failure_witness :
  load Sample.md5_base64 Sample.JSON_stringify_si Sample.URI_parse
    (Sample.header "0.4.100" ++ Sample.dangling_edge :: Sample.nested_ranges)
  = Throw (NoVertexFound (IdNum 99)).
Proof.
  apply (proj1 (load_first_failure Sample.md5_base64 Sample.JSON_stringify_si
                  Sample.URI_parse (Sample.header "0.4.100") Sample.nested_ranges
                  (store_of (onLines Sample.md5_base64 Sample.JSON_stringify_si
                               Sample.URI_parse new_JsonStore (Sample.header "0.4.100")))
                  Sample.dangling_edge (NoVertexFound (IdNum 99))
                  ltac:(loaded) ltac:(by_evaluation))).
Defined.

Lemma consistent_documents_log_nothing_witness :
  console (store_of (load Sample.md5_base64 Sample.JSON_stringify_si Sample.URI_parse
                       Sample.empty_symbols)) = [].
Proof.
  apply (consistent_documents_log_nothing Sample.md5_base64 Sample.JSON_stringify_si
           Sample.URI_parse Sample.empty_symbols _ ltac:(loaded)).
  intros v1 v2 uri H1 H2.
  vm_compute in H1, H2.
  repeat (apply elem_of_cons in H1 as [->|H1]);
    try (by apply elem_of_nil in H1);
    repeat (apply elem_of_cons in H2 as [->|H2]);
    try (by apply elem_of_nil in H2);
    try discriminate; reflexivity.
Defined.

Lemma containsRange_containsPosition_witness :
  containsPosition (Sample.span 0 0 10 0) {| line := 3; character := 0 |} = true.
Proof.
  apply (containsRange_containsPosition (Sample.span 0 0 10 0) (Sample.span 2 4 4 1));
    reflexivity.
Defined.

Lemma containsRange_trans_witness :
  containsRange (Sample.span 0 0 10 0) (Sample.span 3 0 3 7) = true.
Proof.
  apply (containsRange_trans (Sample.span 0 0 10 0) (Sample.span 2 4 4 1));
    reflexivity.
Defined.

Lemma findRangeFromPosition_innermost_witness :
  exists value document contains,
    Indices.documents
      (indices (store_of (load Sample.md5_base64 Sample.JSON_stringify_si
                            Sample.URI_parse Sample.nested_ranges)))
    !! "file:///root/a.ts" = Some value
    /\ head (Bucket.documents value) = Some document
    /\ Out.contains
         (out (store_of (load Sample.md5_base64 Sample.JSON_stringify_si
                           Sample.URI_parse Sample.nested_ranges)))
       !! Vertex.id document = Some contains
    /\ Sample.R2 ∈ contains
    /\ is_candidate {| line := 3; character := 0 |} Sample.R2 = true
    /\ forall x, x ∈ contains ->
                 is_candidate {| line := 3; character := 0 |} x = true ->
                 nests_inside Sample.R2 x = true -> nests_inside x Sample.R2 = true.
Proof.
  apply (findRangeFromPosition_innermost _ "file:///root/a.ts"
           {| line := 3; character := 0 |} Sample.R2).
  by_evaluation.
Defined.

Lemma addLocation_idempotent_witness :
  addLocation Sample.fromDatabase
    (store_of (load Sample.md5_base64 Sample.JSON_stringify_si Sample.URI_parse
                 (Sample.symbols [])))
    [Sample.location_A] Sample.range_A [IdNum 11]
  = Ok ([Sample.location_A], [IdNum 11]).
Proof.
  apply (addLocation_idempotent Sample.fromDatabase _ [] [Sample.location_A]
           Sample.range_A [] [IdNum 11]).
  by_evaluation.
Defined.

Lemma hover_answer_witness :
  hover Sample.toDatabase 2
    (store_of (load Sample.md5_base64 Sample.JSON_stringify_si Sample.URI_parse
                 Sample.hover_document))
    "file:///root/a.ts" {| line := 0; character := 1 |}
  = Ok (Some {| Hover_contents := Some "text";
                Hover_range := ofVertex Sample.hover_range |}).
Proof.
  apply (hover_answer Sample.toDatabase 2 _ "file:///root/a.ts"
           {| line := 0; character := 1 |} _ ltac:(lia)).
  exists Sample.hover_range, Sample.hover_result, (IdNum 5).
  split; [by_evaluation|]. split.
  - right. split; [by_evaluation|].
    exists (Sample.V 5 Vertex.resultSet).
    split; [by_evaluation|]. split; [by_evaluation|reflexivity].
  - left. exists "text", None. split; reflexivity.
Defined.

Lemma loaded_no_declaration_results_witness :
  Out.declaration
    (out (store_of (load Sample.md5_base64 Sample.JSON_stringify_si Sample.URI_parse
                      (Sample.bare_chain
                       ++ [Sample.edge EdgeLabels.textDocument_declaration 3 4;
                           Sample.edge EdgeLabels.textDocument_implementation 3 4]))))
  = ∅
  /\ Out.implementation
       (out (store_of (load Sample.md5_base64 Sample.JSON_stringify_si Sample.URI_parse
                         (Sample.bare_chain
                          ++ [Sample.edge EdgeLabels.textDocument_declaration 3 4;
                              Sample.edge EdgeLabels.textDocument_implementation 3 4]))))
     = ∅.
Proof.
  apply (loaded_no_declaration_results Sample.md5_base64 Sample.JSON_stringify_si
           Sample.URI_parse
           (Sample.bare_chain
            ++ [Sample.edge EdgeLabels.textDocument_declaration 3 4;
                Sample.edge EdgeLabels.textDocument_implementation 3 4])).
  loaded.
Defined.

Lemma declarations_never_answers_witness :
  declarations Sample.toDatabase Sample.fromDatabase Sample.Location_is 1000
    (store_of (load Sample.md5_base64 Sample.JSON_stringify_si Sample.URI_parse
                 Sample.hover_document))
    "file:///root/a.ts" {| line := 0; character := 1 |}
  = OutOfFuel.
Proof.
  apply (proj1 (proj2 (declarations_never_answers Sample.md5_base64
                         Sample.JSON_stringify_si Sample.URI_parse Sample.toDatabase
                         Sample.fromDatabase Sample.Location_is Sample.hover_document _
                         "file:///root/a.ts" {| line := 0; character := 1 |}
                         ltac:(loaded)))
           Sample.hover_range (Sample.V 5 Vertex.resultSet));
    by_evaluation.
Defined.

Lemma documentSymbols_nothing_converts_witness :
  documentSymbols Sample.toDatabase
    (store_of (load Sample.md5_base64 Sample.JSON_stringify_si Sample.URI_parse
                 Sample.untagged_symbols))
    "file:///root/a.ts"
  = Ok (Some []).
Proof.
  apply (documentSymbols_nothing_converts Sample.toDatabase _ "file:///root/a.ts"
           {| Bucket.hash := "No content provided.";
              Bucket.documents :=
                [Sample.V 3 (Vertex.document "file:///root/a.ts" None)] |}
           (Sample.V 3 (Vertex.document "file:///root/a.ts" None))
           Sample.untagged_symbols_result
           [mkRangeBased (IdNum 4) []]);
    try by_evaluation.
  - discriminate.
  - constructor; [|constructor]. exists Sample.R1. split; by_evaluation.
Defined.
